(** * EduWonderLab worker: storage and indexing layer

    A shallow embedding of [_worker.js] (the Cloudflare Pages worker of the
    EduWonderLab classroom service) and of [app.js] (its browser-side
    client), with the properties of the key-value helpers, the route
    handlers, the dispatcher and the client.

    Conventions of the embedding

    - A JavaScript string is a [jstring]: the sequence of its UTF-16 code
      units, each a number below 65536. Protocol text that is ASCII by
      construction (the HTTP method, the URL path, header names and values)
      is a [string].
    - A JavaScript number is a [Number.number]: a double that is not NaN.
      [JSON.parse] rounds a decimal literal to the nearest double, and
      [Number::toString] prints the shortest decimal that reads back.
    - A JavaScript value that can reach the handlers is a value that
      [JSON.parse] can produce ([value]); an object is the list of its own
      properties in enumeration order; [undefined] is [None] in an
      [option value].
    - The KV namespace is a finite map from keys to stored text
      ([gmap jstring jstring]); [kv.get] is lookup and [kv.put] is insert.
    - An [async] function is a computation in the monad [M]: a tree of
      storage operations that ends by returning or throwing. [run] executes
      it without interruption; [overlapped] interleaves the storage
      operations of two of them. *)

From Stdlib Require Import ZArith NArith QArith Qround Qpower Ascii String List Bool Lia Lqa.
From stdpp Require Import base option list gmap strings.

Close Scope Q_scope.

Local Open Scope Z_scope.

(** ** Strings *)

(** A JavaScript string, as its UTF-16 code units. *)
Definition jstring : Type := list N.

(** The JavaScript string of an ASCII literal. *)
Fixpoint str (s : string) : jstring :=
  match s with
  | EmptyString => []
  | String c r => N_of_ascii c :: str r
  end.

Module Str.

(** WhiteSpace and LineTerminator of ECMAScript: TAB, LF, VT, FF, CR, SP,
    NBSP, U+1680, U+2000 to U+200A, LS, PS, U+202F, U+205F, U+3000 and the
    byte order mark. *)
Definition is_space (c : N) : bool :=
  match c with
  | 9 | 10 | 11 | 12 | 13 | 32 | 160 | 5760
  | 8192 | 8193 | 8194 | 8195 | 8196 | 8197 | 8198 | 8199 | 8200 | 8201 | 8202
  | 8232 | 8233 | 8239 | 8287 | 12288 | 65279 => true
  | _ => false
  end%N.

Definition is_empty (s : jstring) : bool :=
  match s with [] => true | _ :: _ => false end.

(** [String.prototype.trimStart] *)
Fixpoint trim_start (s : jstring) : jstring :=
  match s with
  | [] => []
  | c :: r => if is_space c then trim_start r else s
  end.

(** [String.prototype.trimEnd] *)
Fixpoint trim_end (s : jstring) : jstring :=
  match s with
  | [] => []
  | c :: r =>
      let t := trim_end r in
      if is_space c && is_empty t then [] else c :: t
  end.

(** [String.prototype.trim] *)
Definition trim (s : jstring) : jstring := trim_end (trim_start s).

(** [s.slice(from, to)] for [0 <= from <= to] *)
Definition slice (from to : nat) (s : jstring) : jstring :=
  take (to - from) (drop from s).

(** [s.startsWith(p)] *)
Fixpoint starts_with (p s : jstring) : bool :=
  match p with
  | [] => true
  | a :: p' =>
      match s with
      | b :: s' => (a =? b)%N && starts_with p' s'
      | [] => false
      end
  end.

(** [s.includes(p)] *)
Fixpoint includes (p s : jstring) : bool :=
  starts_with p s ||
  match s with
  | [] => false
  | _ :: r => includes p r
  end.

(** [a === b] on strings *)
Definition eqb (a b : jstring) : bool := bool_decide (a = b).

(** [xs.join(sep)] on strings *)
Fixpoint join (sep : jstring) (xs : list jstring) : jstring :=
  match xs with
  | [] => []
  | [x] => x
  | x :: rest => x ++ sep ++ join sep rest
  end.

End Str.

(** ** Numbers *)

Module Number.

(** A double other than NaN: a signed zero, [±m × 2^e], or a signed
    infinity. *)
Inductive number : Type :=
| Zero (negative : bool)
| Finite (negative : bool) (m : positive) (e : Z)
| Infinite (negative : bool).

(** The finite doubles: 53 bits of mantissa and an exponent from -1074 to
    971, the mantissa filling its 53 bits unless the exponent is the least
    one. *)
Definition is_double (x : number) : bool :=
  match x with
  | Finite _ m e =>
      (Z.pos m <? 2 ^ 53) && (-1074 <=? e) && (e <=? 971)
      && ((2 ^ 52 <=? Z.pos m) || (e =? -1074))
  | _ => true
  end.

Definition eqb (x y : number) : bool :=
  match x, y with
  | Zero a, Zero b => Bool.eqb a b
  | Finite a m e, Finite b n f => Bool.eqb a b && Pos.eqb m n && Z.eqb e f
  | Infinite a, Infinite b => Bool.eqb a b
  | _, _ => false
  end.

Definition pow2 (e : Z) : Q := Qpower (2 # 1) e.

Definition pow10 (t : Z) : Q := Qpower (10 # 1) t.

(** The real number [m × 2^e]. *)
Definition magnitude (m : positive) (e : Z) : Q := Qmult (inject_Z (Z.pos m)) (pow2 e).

(** For a positive [x], the [E] with [2^E <= x < 2^(E+1)]. *)
Definition binade (x : Q) : Z :=
  let E := Z.log2 (Qnum x) - Z.log2 (Z.pos (Qden x)) in
  if Qle_bool (pow2 E) x then E else E - 1.

(** The integer nearest to [y], the even one of two equally near. *)
Definition nearest_even (y : Q) : Z :=
  let m := Qfloor y in
  match Qcompare (Qminus y (inject_Z m)) (1 # 2) with
  | Lt => m
  | Gt => m + 1
  | Eq => if Z.even m then m else m + 1
  end.

(** The double nearest to [±x] for [x >= 0], ties going to the even
    mantissa: what a decimal literal of that value denotes. *)
Definition round (negative : bool) (x : Q) : number :=
  let x := Qred x in
  if Qle_bool x (0 # 1) then Zero negative else
  let e := Z.max (binade x - 52) (-1074) in
  let m := nearest_even (Qmult x (pow2 (- e))) in
  let '(m, e) := if m =? 2 ^ 53 then (2 ^ 52, e + 1) else (m, e) in
  if 971 <? e then Infinite negative
  else match m with
       | Z.pos p => Finite negative p e
       | _ => Zero negative
       end.

(** [x] with the sign [negative]. *)
Definition with_sign (negative : bool) (x : number) : number :=
  match x with
  | Zero _ => Zero negative
  | Finite _ m e => Finite negative m e
  | Infinite _ => Infinite negative
  end.

(** The Number value of an integer. *)
Definition of_Z (z : Z) : number :=
  match z with
  | Z0 => Zero false
  | Z.pos _ => round false (inject_Z z)
  | Z.neg p => round true (inject_Z (Z.pos p))
  end.

(** *** Decimal digits *)

Fixpoint digits_fuel (fuel : nat) (n : N) (acc : list N) : list N :=
  match fuel with
  | O => n :: acc
  | S fuel' =>
      if (n <? 10)%N then n :: acc
      else digits_fuel fuel' (n / 10)%N ((n mod 10)%N :: acc)
  end.

(** The decimal digits of [n], most significant first. *)
Definition digits (n : N) : list N := digits_fuel (S (N.to_nat (N.log2 n))) n [].

(** The number a sequence of decimal digits denotes. *)
Definition of_digits (ds : list N) : N := fold_left (λ acc d, 10 * acc + d)%N ds 0%N.

(** Decimal digits, and digits that begin with another digit than zero. *)
Definition all_digits (ds : list N) : Prop := Forall (λ d, (d < 10)%N) ds.

Definition leads (ds : list N) : Prop :=
  match ds with
  | d :: _ => d ≠ 0%N
  | [] => False
  end.

(** The real number [ds × 10^t]. *)
Definition decimal (ds : list N) (t : Z) : Q :=
  Qmult (inject_Z (Z.of_N (of_digits ds))) (pow10 t).

(** *** [Number::toString] *)

(** [m × 2^e] as an integer times a power of ten. *)
Definition exact_decimal (m : positive) (e : Z) : N * Z :=
  if 0 <=? e then ((N.pos m * 2 ^ Z.to_N e)%N, 0)
  else ((N.pos m * 5 ^ Z.to_N (- e))%N, e).

Fixpoint drop_zeros (r : list N) (t : Z) : list N * Z :=
  match r with
  | 0%N :: ((_ :: _) as r') => drop_zeros r' (t + 1)
  | _ => (r, t)
  end.

(** [ds × 10^t] without the trailing zeros of [ds]. *)
Definition strip (ds : list N) (t : Z) : list N * Z :=
  let '(r, t) := drop_zeros (rev ds) t in (rev r, t).

(** The decimal [ds × 10^t] denotes the double [x]. *)
Definition reads_as (x : number) (ds : list N) (t : Z) : bool :=
  eqb (round false (decimal ds t)) x.

(** The decimal of [k] or more digits that denotes [x], with [k] as small as
    possible; of two such decimals the one nearer to [x], and of two equally
    near the even one. [D × 10^t] is [x] itself. Seventeen digits denote any
    double, so the search ends before its fuel does. *)
Fixpoint shortest_from (fuel k : nat) (D : list N) (t : Z) (x : number) : list N * Z :=
  match fuel with
  | O => (D, t)
  | S fuel' =>
      if (length D <=? k)%nat then (D, t) else
      let lo := take k D in
      let hi := digits (of_digits lo + 1) in
      let t' := t + Z.of_nat (length D - k) in
      match reads_as x lo t', reads_as x hi t' with
      | true, true =>
          match (2 * of_digits (drop k D) ?= 10 ^ N.of_nat (length D - k))%N with
          | Lt => (lo, t')
          | Gt => (hi, t')
          | Eq => if N.even (of_digits lo) then (lo, t') else (hi, t')
          end
      | true, false => (lo, t')
      | false, true => (hi, t')
      | false, false => shortest_from fuel' (S k) D t x
      end
  end.

(** The digits [s] and the exponent of the shortest decimal [s × 10^t] that
    denotes [m × 2^e]. *)
Definition shortest (m : positive) (e : Z) : list N * Z :=
  let '(Y, t) := exact_decimal m e in
  let '(D, t) := strip (digits Y) t in
  let '(ds, t) := shortest_from 17 1 D t (Finite false m e) in
  strip ds t.

Definition digit_char (d : N) : N := (48 + d)%N.

(** The text of the decimal with digits [ds] whose value lies between
    [10^(n-1)] and [10^n]: plain digits when [n] is at most 21, a fraction
    when [n] is above -6, and the exponent form otherwise. *)
Definition layout (ds : list N) (n : Z) : jstring :=
  let k := Z.of_nat (length ds) in
  let cs := map digit_char ds in
  if (k <=? n) && (n <=? 21) then cs ++ repeat 48%N (Z.to_nat (n - k))
  else if (0 <? n) && (n <=? 21) then take (Z.to_nat n) cs ++ 46%N :: drop (Z.to_nat n) cs
  else if (-6 <? n) && (n <=? 0) then 48%N :: 46%N :: repeat 48%N (Z.to_nat (- n)) ++ cs
  else
    match cs with
    | [] => []
    | d :: rest => d :: match rest with [] => [] | _ => 46%N :: rest end
    end ++ 101%N :: (if 0 <? n - 1 then 43%N else 45%N)
           :: map digit_char (digits (Z.to_N (Z.abs (n - 1)))).

Definition sign (negative : bool) : jstring := if negative then [45%N] else [].

(** [Number::toString] in radix 10 *)
Definition to_string (x : number) : jstring :=
  match x with
  | Zero _ => str "0"
  | Infinite negative => sign negative ++ str "Infinity"
  | Finite negative m e =>
      sign negative ++ let '(ds, t) := shortest m e in layout ds (Z.of_nat (length ds) + t)
  end.

End Number.

(** ** JSON values *)

#[local] Set Warnings "-register-all".

Inductive value : Type :=
| JNull
| JBool (b : bool)
| JNum (n : Number.number)
| JStr (s : jstring)
| JArr (xs : list value)
| JObj (fs : list (jstring * value)).

(** *** Truthiness, property reads, equality with a string *)

(** [ToBoolean] *)
Definition truthy (v : value) : bool :=
  match v with
  | JNull => false
  | JBool b => b
  | JNum (Number.Zero _) => false
  | JNum _ => true
  | JStr s => negb (Str.is_empty s)
  | JArr _ | JObj _ => true
  end.

(** [ToBoolean] of a value that may be [undefined] *)
Definition truthy_opt (o : option value) : bool :=
  match o with
  | Some v => truthy v
  | None => false
  end.

(** The own property [k] of an object. *)
Fixpoint lookup_prop (k : jstring) (fs : list (jstring * value)) : option value :=
  match fs with
  | [] => None
  | (k', v) :: rest => if Str.eqb k' k then Some v else lookup_prop k rest
  end.

(** [v.k] for a value [v] that is not [null] and a name [k] that no built-in
    prototype defines (all the names the handlers and the client read are
    such): [undefined] unless [v] is an object with that own property. *)
Definition prop (v : value) (k : jstring) : option value :=
  match v with
  | JObj fs => lookup_prop k fs
  | _ => None
  end.

(** [v === s] for a string [s] (also [SameValueZero], used by
    [Array.prototype.includes]) *)
Definition equals_string (v : value) (s : jstring) : bool :=
  match v with
  | JStr t => Str.eqb t s
  | _ => false
  end.

(** *** Own properties in enumeration order *)

(** The array index a property name denotes, if any: the decimal digits,
    without a leading zero, of an integer below 2^32 - 1. *)
Definition array_index (k : jstring) : option N :=
  match k with
  | [] => None
  | c :: r =>
      if forallb (λ c, (48 <=? c) && (c <=? 57))%N k
         && (negb (c =? 48)%N || Str.is_empty r)
         && (length k <=? 10)%nat
      then
        let i := Number.of_digits (map (λ c, c - 48)%N k) in
        if (i <? 4294967295)%N then Some i else None
      else None
  end.

(** The property [k] is enumerated before the property [k']: array indices
    come first, in ascending order; other names follow in the order of their
    creation. *)
Definition enumerated_before (k k' : jstring) : bool :=
  match array_index k, array_index k' with
  | Some i, Some j => (i <? j)%N
  | Some _, None => true
  | None, _ => false
  end.

(** [CreateDataProperty(o, k, v)]: an existing property keeps its place and
    takes the value; a new one is put where the enumeration order has it. *)
Fixpoint define (k : jstring) (v : value) (fs : list (jstring * value))
  : list (jstring * value) :=
  match fs with
  | [] => [(k, v)]
  | (k', v') :: rest =>
      if Str.eqb k' k then (k, v) :: rest
      else if enumerated_before k k' then (k, v) :: (k', v') :: rest
      else (k', v') :: define k v rest
  end.

(** The object that receives the members in the order of the text. *)
Definition object_of (members : list (jstring * value)) : list (jstring * value) :=
  fold_left (λ fs '(k, v), define k v fs) members [].

(** ** JSON text *)

Module JSON.

(** *** [JSON.stringify] *)

Definition hex_digit (n : N) : N :=
  (if n <? 10 then 48 + n else 87 + n)%N.

(** [UnicodeEscape]: a backslash, [u] and four lowercase hex digits *)
Definition unicode_escape (c : N) : jstring :=
  [92; 117; hex_digit (c / 4096 mod 16); hex_digit (c / 256 mod 16);
   hex_digit (c / 16 mod 16); hex_digit (c mod 16)]%N.

(** The leading (high) and the trailing (low) surrogates. *)
Definition is_high (c : N) : bool := (55296 <=? c)%N && (c <=? 56319)%N.

Definition is_low (c : N) : bool := (56320 <=? c)%N && (c <=? 57343)%N.

Definition low_follows (s : jstring) : bool :=
  match s with
  | d :: _ => is_low d
  | [] => false
  end.

(** [QuoteJSONString], one code unit that is not a surrogate *)
Definition escape_unit (c : N) : jstring :=
  if (c =? 34)%N then [92; 34]%N
  else if (c =? 92)%N then [92; 92]%N
  else if (c =? 8)%N then [92; 98]%N
  else if (c =? 12)%N then [92; 102]%N
  else if (c =? 10)%N then [92; 110]%N
  else if (c =? 13)%N then [92; 114]%N
  else if (c =? 9)%N then [92; 116]%N
  else if (c <? 32)%N then unicode_escape c
  else [c].

(** [QuoteJSONString], the body: a high surrogate directly followed by a low
    one makes a pair, which is copied; every other surrogate is written as an
    escape. [after_high] tells whether the code unit before [s] is a high
    surrogate. *)
Fixpoint escape_after (after_high : bool) (s : jstring) : jstring :=
  match s with
  | [] => []
  | c :: r =>
      (if is_high c then (if low_follows r then [c] else unicode_escape c)
       else if is_low c then (if after_high then [c] else unicode_escape c)
       else escape_unit c)
      ++ escape_after (is_high c) r
  end.

Definition escape (s : jstring) : jstring := escape_after false s.

Definition quote (s : jstring) : jstring := 34%N :: escape s ++ [34%N].

(** A finite number is written by [Number::toString], any other as [null]. *)
Definition number_text (n : Number.number) : jstring :=
  match n with
  | Number.Infinite _ => str "null"
  | _ => Number.to_string n
  end.

Fixpoint stringify (v : value) : jstring :=
  match v with
  | JNull => str "null"
  | JBool true => str "true"
  | JBool false => str "false"
  | JNum n => number_text n
  | JStr s => quote s
  | JArr xs =>
      91%N ::
      (fix elements (xs : list value) : jstring :=
         match xs with
         | [] => [93%N]
         | [x] => stringify x ++ [93%N]
         | x :: rest => stringify x ++ 44%N :: elements rest
         end) xs
  | JObj fs =>
      123%N ::
      (fix members (fs : list (jstring * value)) : jstring :=
         match fs with
         | [] => [125%N]
         | [(k, x)] => quote k ++ 58%N :: stringify x ++ [125%N]
         | (k, x) :: rest => quote k ++ 58%N :: stringify x ++ 44%N :: members rest
         end) fs
  end.

Fixpoint stringify_elements (xs : list value) : jstring :=
  match xs with
  | [] => [93%N]
  | [x] => stringify x ++ [93%N]
  | x :: rest => stringify x ++ 44%N :: stringify_elements rest
  end.

Fixpoint stringify_members (fs : list (jstring * value)) : jstring :=
  match fs with
  | [] => [125%N]
  | [(k, x)] => quote k ++ 58%N :: stringify x ++ [125%N]
  | (k, x) :: rest => quote k ++ 58%N :: stringify x ++ 44%N :: stringify_members rest
  end.

(** *** [JSON.parse] *)

(** JSON whitespace: SP, TAB, LF, CR *)
Definition is_ws (c : N) : bool :=
  (c =? 32)%N || (c =? 9)%N || (c =? 10)%N || (c =? 13)%N.

Fixpoint skip_ws (s : jstring) : jstring :=
  match s with
  | [] => []
  | c :: r => if is_ws c then skip_ws r else s
  end.

Definition hex_value (c : N) : option N :=
  if (48 <=? c)%N && (c <=? 57)%N then Some (c - 48)%N
  else if (97 <=? c)%N && (c <=? 102)%N then Some (c - 87)%N
  else if (65 <=? c)%N && (c <=? 70)%N then Some (c - 55)%N
  else None.

(** The code unit named by the four hex digits of a [\u] escape. *)
Definition unicode_unit (a b c d : N) : option N :=
  match hex_value a, hex_value b, hex_value c, hex_value d with
  | Some x, Some y, Some z, Some w => Some (4096 * x + 256 * y + 16 * z + w)%N
  | _, _, _, _ => None
  end.

(** The code unit an escape letter stands for. *)
Definition escaped (e : N) : option N :=
  match e with
  | 34 => Some 34
  | 92 => Some 92
  | 47 => Some 47
  | 98 => Some 8
  | 102 => Some 12
  | 110 => Some 10
  | 114 => Some 13
  | 116 => Some 9
  | _ => None
  end%N.

(** The characters of a string literal after its opening quote, up to and
    without the closing quote. *)
Fixpoint parse_chars (s : jstring) : option (jstring * jstring) :=
  match s with
  | [] => None
  | c :: r =>
      if (c =? 34)%N then Some ([], r)
      else if (c =? 92)%N then
        match r with
        | e :: r1 =>
            let continue (c' : N) (r' : jstring) :=
              match parse_chars r' with
              | Some (t, r2) => Some (c' :: t, r2)
              | None => None
              end in
            if (e =? 117)%N then
              match r1 with
              | h1 :: h2 :: h3 :: h4 :: r2 =>
                  match unicode_unit h1 h2 h3 h4 with
                  | Some c' => continue c' r2
                  | None => None
                  end
              | _ => None
              end
            else
              match escaped e with
              | Some c' => continue c' r1
              | None => None
              end
        | [] => None
        end
      else if (c <? 32)%N then None
      else
        match parse_chars r with
        | Some (t, r') => Some (c :: t, r')
        | None => None
        end
  end.

Definition digit_of (c : N) : option N :=
  if (48 <=? c)%N && (c <=? 57)%N then Some (c - 48)%N else None.

(** The longest run of decimal digits at the head of [s]. *)
Fixpoint scan_digits (s : jstring) : list N * jstring :=
  match s with
  | [] => ([], [])
  | c :: r =>
      match digit_of c with
      | Some d => let '(ds, r') := scan_digits r in (d :: ds, r')
      | None => ([], s)
      end
  end.

(** One or more digits. *)
Definition some_digits (s : jstring) : option (list N * jstring) :=
  match scan_digits s with
  | ([], _) => None
  | (ds, r) => Some (ds, r)
  end.

(** The integer part: a zero, or digits that do not begin with a zero. *)
Definition parse_int (s : jstring) : option (list N * jstring) :=
  match s with
  | c :: r => if (c =? 48)%N then Some ([0%N], r) else some_digits s
  | [] => None
  end.

(** The fraction, if there is one: a point and one or more digits. *)
Definition parse_frac (s : jstring) : option (list N * jstring) :=
  match s with
  | c :: r => if (c =? 46)%N then some_digits r else Some ([], s)
  | [] => Some ([], s)
  end.

(** The sign of an exponent, if there is one. *)
Definition parse_sign (s : jstring) : bool * jstring :=
  match s with
  | c :: r => if (c =? 43)%N then (false, r) else if (c =? 45)%N then (true, r) else (false, s)
  | [] => (false, s)
  end.

(** The exponent, if there is one: [e] or [E], a sign or none, and one or
    more digits. *)
Definition parse_exp (s : jstring) : option (Z * jstring) :=
  match s with
  | c :: r =>
      if (c =? 101)%N || (c =? 69)%N then
        let '(negative, r1) := parse_sign r in
        match some_digits r1 with
        | Some (ds, r2) =>
            Some (if negative then - Z.of_N (Number.of_digits ds) else Z.of_N (Number.of_digits ds), r2)
        | None => None
        end
      else Some (0, s)
  | [] => Some (0, s)
  end.

(** A number literal, read as the double nearest to its value. *)
Definition parse_number (s : jstring) : option (value * jstring) :=
  let '(negative, s1) :=
    match s with
    | c :: r => if (c =? 45)%N then (true, r) else (false, s)
    | [] => (false, s)
    end in
  match parse_int s1 with
  | Some (int, s2) =>
      match parse_frac s2 with
      | Some (frac, s3) =>
          match parse_exp s3 with
          | Some (exp, s4) =>
              Some (JNum (Number.round negative
                            (Number.decimal (int ++ frac) (exp - Z.of_nat (length frac)))),
                    s4)
          | None => None
          end
      | None => None
      end
  | None => None
  end.

(** [s] without its prefix [lit], when it has that prefix. *)
Fixpoint expect (lit s : jstring) : option jstring :=
  match lit with
  | [] => Some s
  | a :: lit' =>
      match s with
      | b :: s' => if (a =? b)%N then expect lit' s' else None
      | [] => None
      end
  end.

Definition literal (lit : jstring) (v : value) (s : jstring) : option (value * jstring) :=
  match expect lit s with
  | Some r => Some (v, r)
  | None => None
  end.

(** The text after leading whitespace and the code unit [n], when that is
    what comes next. *)
Definition next_is (n : N) (s : jstring) : option jstring :=
  match skip_ws s with
  | c :: r => if (c =? n)%N then Some r else None
  | [] => None
  end.

(** Recursive descent; [fuel] bounds the depth of the descent. [parse]
    supplies twice the length of the text, which no text exhausts. *)
Fixpoint parse_value (fuel : nat) (s : jstring) {struct fuel} : option (value * jstring) :=
  match fuel with
  | O => None
  | S fuel' =>
      match skip_ws s with
      | [] => None
      | c :: r =>
          if (c =? 110)%N then literal (str "ull") JNull r
          else if (c =? 116)%N then literal (str "rue") (JBool true) r
          else if (c =? 102)%N then literal (str "alse") (JBool false) r
          else if (c =? 34)%N then
            match parse_chars r with
            | Some (t, r') => Some (JStr t, r')
            | None => None
            end
          else if (c =? 91)%N then
            match next_is 93 r with
            | Some r' => Some (JArr [], r')
            | None =>
                match parse_elements fuel' r with
                | Some (xs, r') => Some (JArr xs, r')
                | None => None
                end
            end
          else if (c =? 123)%N then
            match next_is 125 r with
            | Some r' => Some (JObj [], r')
            | None =>
                match parse_members fuel' r with
                | Some (fs, r') => Some (JObj (object_of fs), r')
                | None => None
                end
            end
          else parse_number (c :: r)
      end
  end
with parse_elements (fuel : nat) (s : jstring) {struct fuel} : option (list value * jstring) :=
  match fuel with
  | O => None
  | S fuel' =>
      match parse_value fuel' s with
      | Some (x, r) =>
          match next_is 44 r with
          | Some r' =>
              match parse_elements fuel' r' with
              | Some (xs, r'') => Some (x :: xs, r'')
              | None => None
              end
          | None =>
              match next_is 93 r with
              | Some r' => Some ([x], r')
              | None => None
              end
          end
      | None => None
      end
  end
with parse_members (fuel : nat) (s : jstring) {struct fuel}
  : option (list (jstring * value) * jstring) :=
  match fuel with
  | O => None
  | S fuel' =>
      match next_is 34 s with
      | Some r =>
          match parse_chars r with
          | Some (k, r1) =>
              match next_is 58 r1 with
              | Some r2 =>
                  match parse_value fuel' r2 with
                  | Some (x, r3) =>
                      match next_is 44 r3 with
                      | Some r4 =>
                          match parse_members fuel' r4 with
                          | Some (fs, r5) => Some ((k, x) :: fs, r5)
                          | None => None
                          end
                      | None =>
                          match next_is 125 r3 with
                          | Some r4 => Some ([(k, x)], r4)
                          | None => None
                          end
                      end
                  | None => None
                  end
              | None => None
              end
          | None => None
          end
      | None => None
      end
  end.

(** [JSON.parse]: [None] stands for the [SyntaxError] it throws. *)
Definition parse (s : jstring) : option value :=
  match parse_value (2 * length s + 2) s with
  | Some (v, r) => if Str.is_empty (skip_ws r) then Some v else None
  | None => None
  end.

(** *** What a value is read back as *)

(** The text that may follow a number without being read as part of it. *)
Definition ends_number (rest : jstring) : Prop :=
  match rest with
  | [] => True
  | c :: _ => digit_of c = None ∧ c ≠ 46%N ∧ c ≠ 101%N ∧ c ≠ 69%N
  end.


(** What [parse_chars] yields after one more code unit. *)
Definition continued (c : N) (o : option (jstring * jstring)) : option (jstring * jstring) :=
  match o with
  | Some (t, r') => Some (c :: t, r')
  | None => None
  end.

(** The code units a JSON value can begin with. *)
Definition starts_value (c : N) : Prop :=
  c = 110%N ∨ c = 116%N ∨ c = 102%N ∨ c = 34%N ∨ c = 91%N ∨ c = 123%N ∨ c = 45%N
  ∨ (48 ≤ c ∧ c ≤ 57)%N.

(** The text that may follow a run of digits. *)
Definition stops (rest : jstring) : Prop :=
  match rest with
  | [] => True
  | c :: _ => digit_of c = None
  end.

(** The number [JSON.parse] reads from the text of [n]: a negative zero
    comes back as zero and an infinity as [null]. *)
Definition reread_number (n : Number.number) : value :=
  match n with
  | Number.Zero _ => JNum (Number.Zero false)
  | Number.Finite negative m e => JNum (Number.round negative (Number.magnitude m e))
  | Number.Infinite _ => JNull
  end.

(** The value [JSON.parse] reads from the text of [v]. *)
Fixpoint reread (v : value) : value :=
  match v with
  | JNum n => reread_number n
  | JArr xs => JArr (map reread xs)
  | JObj fs => JObj (object_of (map (λ '(k, x), (k, reread x)) fs))
  | _ => v
  end.

(** Fuel that is enough to read a value back: one unit per value and per
    element or member. *)
Fixpoint need (v : value) : nat :=
  match v with
  | JArr xs =>
      S ((fix elements (xs : list value) : nat :=
            match xs with
            | [] => O
            | x :: rest => S (need x + elements rest)
            end) xs)
  | JObj fs =>
      S ((fix members (fs : list (jstring * value)) : nat :=
            match fs with
            | [] => O
            | (_, x) :: rest => S (need x + members rest)
            end) fs)
  | _ => 1%nat
  end.

Fixpoint need_elements (xs : list value) : nat :=
  match xs with
  | [] => O
  | x :: rest => S (need x + need_elements rest)
  end.

Fixpoint need_members (fs : list (jstring * value)) : nat :=
  match fs with
  | [] => O
  | (_, x) :: rest => S (need x + need_members rest)
  end.

(** The text of [v] is read as [reread v], whatever follows it. *)
Definition reads_back (v : value) : Prop :=
  ∀ fuel rest,
    (need v ≤ fuel)%nat → ends_number rest →
    parse_value fuel (stringify v ++ rest) = Some (reread v, rest).

(** The own properties are listed in enumeration order, each name once. *)
Fixpoint enumerated (keys : list jstring) : bool :=
  match keys with
  | [] => true
  | k :: rest =>
      forallb (λ k', negb (Str.eqb k' k) && negb (enumerated_before k' k)) rest
      && enumerated rest
  end.

(** A name that may come after the name [k] in an enumeration. *)
Definition follows (k k' : jstring) : Prop := k' ≠ k ∧ enumerated_before k' k = false.

(** The values of JavaScript among the terms of [value]: every number is a
    double and every object lists its properties in enumeration order. *)
Fixpoint well_formed (v : value) : bool :=
  match v with
  | JNum n => Number.is_double n
  | JArr xs => forallb well_formed xs
  | JObj fs => enumerated (map fst fs) && forallb (λ f, well_formed f.2) fs
  | _ => true
  end.

(** The values that JSON text holds exactly: well-formed values with no
    infinity and no negative zero. *)
Fixpoint exact (v : value) : bool :=
  match v with
  | JNum (Number.Zero negative) => negb negative
  | JNum (Number.Infinite _) => false
  | JNum n => Number.is_double n
  | JArr xs => forallb exact xs
  | JObj fs => enumerated (map fst fs) && forallb (λ f, exact f.2) fs
  | _ => true
  end.

End JSON.

(** ** The worker's runtime *)

(** [ToString], as a template literal and [new Error] apply it; [None]
    stands for the [TypeError] of an object whose own [toString] property
    (never callable in JSON data) shadows the inherited method. *)
Fixpoint to_string (v : value) : option jstring :=
  match v with
  | JNull => Some (str "null")
  | JBool true => Some (str "true")
  | JBool false => Some (str "false")
  | JNum n => Some (Number.to_string n)
  | JStr s => Some s
  | JArr xs =>
      match
        (fix items (xs : list value) : option (list jstring) :=
           match xs with
           | [] => Some []
           | x :: rest =>
               match (match x with JNull => Some [] | _ => to_string x end),
                     items rest with
               | Some a, Some b => Some (a :: b)
               | _, _ => None
               end
           end) xs
      with
      | Some parts => Some (Str.join (str ",") parts)
      | None => None
      end
  | JObj fs =>
      match lookup_prop (str "toString") fs with
      | Some _ => None
      | None => Some (str "[object Object]")
      end
  end.

(** The KV namespace bound as [EWL_DATA]. *)
Abbreviation KV := (gmap jstring jstring).

Inductive exn : Type := TypeError | RangeError.

Inductive outcome (A : Type) : Type :=
| Return (a : A)
| Throw (e : exn).
Arguments Return {A} a.
Arguments Throw {A} e.

(** An [async] function over the namespace: it is done, or it awaits
    [kv.get(key)] and goes on with the text found, or it awaits
    [kv.put(key, text)] and goes on. *)
Inductive M (A : Type) : Type :=
| Done (o : outcome A)
| Get (key : jstring) (k : option jstring → M A)
| Put (key text : jstring) (k : M A).
Arguments Done {A} o.
Arguments Get {A} key k.
Arguments Put {A} key text k.

Definition ret {A : Type} (a : A) : M A := Done (Return a).

Definition throw {A : Type} (e : exn) : M A := Done (Throw e).

Definition lift {A : Type} (o : outcome A) : M A := Done o.

Fixpoint bind {A B : Type} (m : M A) (f : A → M B) : M B :=
  match m with
  | Done (Return a) => f a
  | Done (Throw e) => Done (Throw e)
  | Get key k => Get key (λ t, bind (k t) f)
  | Put key text k => Put key text (bind k f)
  end.

Notation "x <- m ;; k" := (bind m (λ x, k))
  (at level 100, m at next level, right associativity).
Notation "m ;;; k" := (bind m (λ _, k))
  (at level 100, right associativity).

(** The function run to its end with no other request in between: the
    namespace it leaves and what it returns or throws. *)
Fixpoint run {A : Type} (m : M A) (kv : KV) : KV * outcome A :=
  match m with
  | Done o => (kv, o)
  | Get key k => run (k (kv !! key)) kv
  | Put key text k => run k (<[key := text]> kv)
  end.

(** One storage operation of a function. *)
Inductive step {A : Type} : KV → M A → KV → M A → Prop :=
| step_get (kv : KV) (key : jstring) (k : option jstring → M A) :
    step kv (Get key k) kv (k (kv !! key))
| step_put (kv : KV) (key text : jstring) (k : M A) :
    step kv (Put key text k) (<[key := text]> kv) k.

(** Two requests served at the same time: their storage operations
    interleave in some order, each on the namespace the one before left. *)
Inductive overlapped {A B : Type} : KV → M A → M B → KV → outcome A → outcome B → Prop :=
| overlapped_done (kv : KV) (a : outcome A) (b : outcome B) :
    overlapped kv (Done a) (Done b) kv a b
| overlapped_left (kv kv1 kv2 : KV) (m m' : M A) (n : M B) (a : outcome A) (b : outcome B) :
    step kv m kv1 m' → overlapped kv1 m' n kv2 a b → overlapped kv m n kv2 a b
| overlapped_right (kv kv1 kv2 : KV) (m : M A) (n n' : M B) (a : outcome A) (b : outcome B) :
    step kv n kv1 n' → overlapped kv1 m n' kv2 a b → overlapped kv m n kv2 a b.

(** [xs.map(f)] followed by [Promise.all]: the reads are issued in index
    order. *)
Fixpoint mapM {A B : Type} (f : A → M B) (xs : list A) : M (list B) :=
  match xs with
  | [] => ret []
  | x :: rest => y <- f x ;; ys <- mapM f rest ;; ret (y :: ys)
  end.

(** [kv.get(key)] and [kv.put(key, text)] of the namespace. *)
Definition kv_get (key : jstring) : M (option jstring) := Get key (λ t, ret t).

Definition kv_put (key text : jstring) : M unit := Put key text (ret tt).

(** What the host supplies to one request: [Date.now().toString(36)],
    [Math.random().toString(36)] and [new Date().toISOString()]. *)
Record Env : Type := {
  now_base36 : jstring;
  random_base36 : jstring;
  now_iso : jstring
}.

Record Response : Type := {
  status : Z;
  headers : list (string * string);
  body : jstring
}.

(** [new Response(body, { status, headers })]: the status is taken modulo
    2^16 and must lie between 200 and 599, or the constructor throws a
    [RangeError]; a body with a status that allows none (204, 205, 304)
    makes it throw a [TypeError]. [None] is the [null] body. *)
Definition new_Response (body : option jstring) (status : Z) (headers : list (string * string))
  : outcome Response :=
  let status := status mod 65536 in
  if (status <? 200) || (599 <? status) then Throw RangeError
  else
    match body with
    | Some text =>
        if (status =? 204) || (status =? 205) || (status =? 304) then Throw TypeError
        else Return {| status := status; headers := headers; body := text |}
    | None => Return {| status := status; headers := headers; body := [] |}
    end.

(** The query part of the request URL. *)
Record URL : Type := { searchParams : list (jstring * jstring) }.

(** [url.searchParams.get(name)]: the first value under [name], or [null]. *)
Fixpoint searchParams_get (name : jstring) (ps : list (jstring * jstring)) : option jstring :=
  match ps with
  | [] => None
  | (k, v) :: rest => if Str.eqb k name then Some v else searchParams_get name rest
  end.

(** [v.trim()]: a method of strings only. *)
Definition call_trim (v : value) : outcome jstring :=
  match v with
  | JStr s => Return (Str.trim s)
  | _ => Throw TypeError
  end.

(** [idx.includes(id)]: arrays compare elements, strings search for a
    substring, nothing else has the method. *)
Definition call_includes (idx : value) (id : jstring) : outcome bool :=
  match idx with
  | JArr xs => Return (existsb (λ x, equals_string x id) xs)
  | JStr s => Return (Str.includes id s)
  | _ => Throw TypeError
  end.

(** [idx.push(id)]: the array after the call; only arrays have the method. *)
Definition call_push (idx : value) (id : jstring) : outcome value :=
  match idx with
  | JArr xs => Return (JArr (xs ++ [JStr id]))
  | _ => Throw TypeError
  end.

(** [body.k]: reading a property of [null] throws. *)
Definition get (v : value) (k : jstring) : outcome (option value) :=
  match v with
  | JNull => Throw TypeError
  | _ => Return (prop v k)
  end.

(** [o || d] *)
Definition or_else (o : option value) (d : value) : value :=
  match o with
  | Some v => if truthy v then v else d
  | None => d
  end.

(** The text a template literal splices in for [v]. *)
Definition template (v : value) : outcome jstring :=
  match to_string v with
  | Some s => Return s
  | None => Throw TypeError
  end.

(** ** [_worker.js] *)

(** [CORS], lines 22-26 *)
Definition CORS : list (string * string) :=
  [ ("Access-Control-Allow-Origin", "*");
    ("Access-Control-Allow-Methods", "GET, POST, OPTIONS");
    ("Access-Control-Allow-Headers", "Content-Type") ]%string.

(** [json(data, status)], lines 28-33; the default status is written out at
    each call. *)
Definition json (data : value) (status : Z) : outcome Response :=
  new_Response (Some (JSON.stringify data)) status
    (("Content-Type", "application/json; charset=utf-8")%string :: CORS).

(** [err(msg, status)], lines 35-37 *)
Definition err (msg : jstring) (status : Z) : outcome Response :=
  json (JObj [(str "ok", JBool false); (str "error", JStr msg)]) status.

(** [uid()], lines 39-42 *)
Definition uid (env : Env) : jstring :=
  now_base36 env ++ Str.slice 2 7 (random_base36 env).

(** *** KV helpers *)

(** [kvGet(kv, key)], lines 46-50: [null] for no text, for the empty text
    and for text that [JSON.parse] rejects. *)
Definition kvGet (key : jstring) : M value :=
  v <- kv_get key ;;
  match v with
  | None => ret JNull
  | Some v =>
      if Str.is_empty v then ret JNull
      else
        match JSON.parse v with
        | Some j => ret j
        | None => ret JNull
        end
  end.

(** [kvPut(kv, key, value)], lines 52-54 *)
Definition kvPut (key : jstring) (v : value) : M unit :=
  kv_put key (JSON.stringify v).

(** [getIndex(kv, name)], lines 56-58 *)
Definition getIndex (name : jstring) : M value :=
  v <- kvGet (str "index:" ++ name) ;;
  ret (or_else (Some v) (JArr [])).

(** [pushIndex(kv, name, id)], lines 60-64 *)
Definition pushIndex (name id : jstring) : M unit :=
  idx <- getIndex name ;;
  found <- lift (call_includes idx id) ;;
  idx <- (if negb found then lift (call_push idx id) else ret idx) ;;
  kvPut (str "index:" ++ name) idx.

(** *** Route handlers *)

(** The record literal of [handleAssignmentsPost]. *)
Definition assignment_record
    (id title prompt gradeBand classPin : jstring) (createdAt : value) : value :=
  JObj [(str "id", JStr id);
        (str "title", JStr title);
        (str "prompt", JStr prompt);
        (str "gradeBand", JStr gradeBand);
        (str "classPin", JStr classPin);
        (str "createdAt", createdAt)].

(** The record literal of [handleSubmissionsPost]. *)
Definition submission_record
    (id : jstring) (assignmentId : value)
    (studentName classPin response steps reflection : jstring) (submittedAt : value) : value :=
  JObj [(str "id", JStr id);
        (str "assignmentId", assignmentId);
        (str "studentName", JStr studentName);
        (str "classPin", JStr classPin);
        (str "response", JStr response);
        (str "steps", JStr steps);
        (str "reflection", JStr reflection);
        (str "submittedAt", submittedAt)].

(** [s.assignmentId === x], for an [s] that is not [null] *)
Definition assigned_to (x : jstring) (s : value) : bool :=
  match prop s (str "assignmentId") with
  | Some a => equals_string a x
  | None => false
  end.

(** [!x || !x.trim()] *)
Definition blank (x : option value) : outcome bool :=
  match x with
  | Some v =>
      if truthy v
      then match call_trim v with
           | Return t => Return (Str.is_empty t)
           | Throw e => Throw e
           end
      else Return true
  | None => Return true
  end.

(** [(body.k || '').trim()], with the empty string as the default *)
Definition trimmed_or_empty (body : value) (k : jstring) : outcome jstring :=
  match get body k with
  | Return o => call_trim (or_else o (JStr []))
  | Throw e => Throw e
  end.

(** [x.trim()] for a destructured [x] *)
Definition trimmed (x : option value) : outcome jstring :=
  match x with
  | Some v => call_trim v
  | None => Throw TypeError
  end.

(** [body.k || new Date().toISOString()] *)
Definition given_or_now (env : Env) (body : value) (k : jstring) : outcome value :=
  match get body k with
  | Return o => Return (or_else o (JStr (now_iso env)))
  | Throw e => Throw e
  end.

(** [handleAssignmentsGet(kv)], lines 68-74 *)
Definition handleAssignmentsGet : M Response :=
  ids <- getIndex (str "assignments") ;;
  items <-
    match ids with
    | JArr xs => mapM (λ id, key <- lift (template id) ;; kvGet (str "assignment:" ++ key)) xs
    | _ => throw TypeError
    end ;;
  lift (json (JObj [(str "ok", JBool true);
                    (str "items", JArr (rev (List.filter truthy items)))]) 200).

(** [handleAssignmentsPost(kv, body)], lines 76-95 *)
Definition handleAssignmentsPost (env : Env) (body : value) : M Response :=
  let b := or_else (Some body) (JObj []) in
  let title := prop b (str "title") in
  let prompt := prop b (str "prompt") in
  no_title <- lift (blank title) ;;
  if no_title then lift (err (str "title is required") 400) else
  no_prompt <- lift (blank prompt) ;;
  if no_prompt then lift (err (str "prompt is required") 400) else
  let id := uid env in
  title' <- lift (trimmed title) ;;
  prompt' <- lift (trimmed prompt) ;;
  gradeBand <- lift (trimmed_or_empty body (str "gradeBand")) ;;
  classPin <- lift (trimmed_or_empty body (str "classPin")) ;;
  createdAt <- lift (given_or_now env body (str "createdAt")) ;;
  let record := assignment_record id title' prompt' gradeBand classPin createdAt in
  kvPut (str "assignment:" ++ id) record ;;;
  pushIndex (str "assignments") id ;;;
  lift (json (JObj [(str "ok", JBool true); (str "id", JStr id); (str "item", record)]) 201).

(** [handleSubmissionsGet(kv, url)], lines 97-110 *)
Definition handleSubmissionsGet (url : URL) : M Response :=
  let filterId :=
    match searchParams_get (str "assignmentId") (searchParams url) with
    | Some s => if Str.is_empty s then [] else s
    | None => []
    end in
  ids <- getIndex (str "submissions") ;;
  items <-
    match ids with
    | JArr xs => mapM (λ id, key <- lift (template id) ;; kvGet (str "submission:" ++ key)) xs
    | _ => throw TypeError
    end ;;
  let items := List.filter truthy items in
  let items :=
    if negb (Str.is_empty filterId)
    then List.filter (assigned_to filterId) items
    else items in
  lift (json (JObj [(str "ok", JBool true); (str "items", JArr (rev items))]) 200).

(** [handleSubmissionsPost(kv, body)], lines 112-138 *)
Definition handleSubmissionsPost (env : Env) (body : value) : M Response :=
  let b := or_else (Some body) (JObj []) in
  let assignmentId := prop b (str "assignmentId") in
  let studentName := prop b (str "studentName") in
  let response := prop b (str "response") in
  match assignmentId with
  | None => lift (err (str "assignmentId is required") 400)
  | Some assignmentId =>
      if negb (truthy assignmentId) then lift (err (str "assignmentId is required") 400) else
      no_name <- lift (blank studentName) ;;
      if no_name then lift (err (str "studentName is required") 400) else
      no_response <- lift (blank response) ;;
      if no_response then lift (err (str "response is required") 400) else
      key <- lift (template assignmentId) ;;
      asgn <- kvGet (str "assignment:" ++ key) ;;
      if negb (truthy asgn) then lift (err (str "assignment not found") 404) else
      let id := uid env in
      studentName' <- lift (trimmed studentName) ;;
      classPin <- lift (trimmed_or_empty body (str "classPin")) ;;
      response' <- lift (trimmed response) ;;
      steps <- lift (trimmed_or_empty body (str "steps")) ;;
      reflection <- lift (trimmed_or_empty body (str "reflection")) ;;
      submittedAt <- lift (given_or_now env body (str "submittedAt")) ;;
      let record :=
        submission_record id assignmentId studentName' classPin response' steps reflection
          submittedAt in
      kvPut (str "submission:" ++ id) record ;;;
      pushIndex (str "submissions") id ;;;
      lift (json (JObj [(str "ok", JBool true); (str "id", JStr id); (str "item", record)]) 201)
  end.

(** *** The main fetch handler *)

(** [String.prototype.toUpperCase] on one code unit below 256. The micro sign
    (181) and the y with diaeresis (255), whose capitals lie above 255, are
    left as they are; an HTTP method, a token of ASCII characters, holds
    neither. *)
Definition upper_char (c : ascii) : string :=
  let n := N_of_ascii c in
  if (97 <=? n)%N && (n <=? 122)%N then String (ascii_of_N (n - 32)) EmptyString
  else if (n =? 223)%N then "SS"%string
  else if (224 <=? n)%N && (n <=? 254)%N && negb (n =? 247)%N
       then String (ascii_of_N (n - 32)) EmptyString
  else String c EmptyString.

(** [s.toUpperCase()] *)
Fixpoint toUpperCase (s : string) : string :=
  match s with
  | EmptyString => EmptyString
  | String c r => (upper_char c ++ toUpperCase r)%string
  end.

(** The request as [fetch] reads it: [request.method], the [pathname] and the
    [searchParams] of [new URL(request.url)], and what [request.json()]
    resolves to ([None] when it rejects). *)
Record Request : Type := {
  method : string;
  pathname : string;
  query : URL;
  json_body : option value
}.

(** The bindings [fetch] receives as [env]: whether [EWL_DATA] is bound, and
    what [env.ASSETS.fetch(request)] settles to. *)
Record Bindings : Type := {
  EWL_DATA : bool;
  ASSETS : Request → outcome Response
}.

(** The text of the 500 response, lines 163-167, with its arrows (U+2192). *)
Definition KV_NOT_BOUND : jstring :=
  str "KV namespace EWL_DATA not bound. Go to Cloudflare Dashboard " ++ [8594%N] ++
  str " Workers & Pages " ++ [8594%N] ++ str " your project " ++ [8594%N] ++
  str " Settings " ++ [8594%N] ++ str " Functions " ++ [8594%N] ++
  str " KV namespace bindings and add EWL_DATA.".

(** [fetch(request, env)], lines 143-198. [host] supplies the clock and the
    random source of this request. *)
Definition fetch (host : Env) (env : Bindings) (request : Request) : M Response :=
  let path := pathname request in
  let method := toUpperCase (method request) in
  if String.eqb method "OPTIONS" then lift (new_Response None 204 CORS) else
  if String.eqb path "/api" || String.eqb path "/api/health" then
    lift (json (JObj [(str "ok", JBool true); (str "service", JStr (str "EduWonderLab API"));
                      (str "ts", JStr (now_iso host))]) 200)
  else
  if String.prefix "/api/" path then
    if negb (EWL_DATA env) then lift (err KV_NOT_BOUND 500) else
    match (if String.eqb method "POST" then json_body request else Some JNull) with
    | None => lift (err (str "Invalid JSON body") 400)
    | Some body =>
        let not_found := lift (err (str "Not found") 404) in
        let submissions :=
          if String.eqb path "/api/submissions" then
            if String.eqb method "GET" then handleSubmissionsGet (query request)
            else if String.eqb method "POST" then handleSubmissionsPost host body
            else not_found
          else not_found in
        if String.eqb path "/api/assignments" then
          if String.eqb method "GET" then handleAssignmentsGet
          else if String.eqb method "POST" then handleAssignmentsPost host body
          else submissions
        else submissions
    end
  else lift (ASSETS env request).

(** ** The browser-side client, [app.js] *)

Module Client.

Definition BASE : jstring := str "/api".

(** The options handed to the browser's [fetch]. *)
Record Options : Type := {
  opt_method : jstring;
  opt_headers : list (string * string);
  opt_body : option jstring
}.

(** The response as the client reads it: [res.status], [res.statusText] and
    the text that [res.json()] hands to the JSON parser. *)
Record Received : Type := {
  res_status : Z;
  res_statusText : jstring;
  res_text : jstring
}.

(** What [request] throws: a [TypeError] of the language, or the [Error] it
    constructs itself. *)
Inductive thrown : Type :=
| Thrown_TypeError
| Thrown_Error (message : jstring).

Inductive result (A : Type) : Type :=
| Resolved (a : A)
| Rejected (t : thrown).
Arguments Resolved {A} a.
Arguments Rejected {A} t.

(** [res.ok] *)
Definition ok (res : Received) : bool := (200 <=? res_status res) && (res_status res <=? 299).

(** [opts] of [request(method, path, body)], lines 12-18; [None] is an
    [undefined] body. *)
Definition options (method : jstring) (body : option value) : Options :=
  {| opt_method := method;
     opt_headers := [("Content-Type", "application/json")%string];
     opt_body := match body with
                 | Some b => Some (JSON.stringify b)
                 | None => None
                 end |}.

(** [try { data = await res.json() } catch (_) { data = null }], lines 22-27 *)
Definition read_json (res : Received) : value :=
  match JSON.parse (res_text res) with
  | Some d => d
  | None => JNull
  end.

(** [(data && data.error) || `Request failed: ${res.status} ${res.statusText}`],
    lines 30-31: the value handed to [new Error]. *)
Definition failure_message (res : Received) (data : value) : value :=
  or_else (if truthy data then prop data (str "error") else Some data)
    (JStr (str "Request failed: " ++ Number.to_string (Number.of_Z (res_status res))
           ++ str " " ++ res_statusText res)).

(** What [request] does once the browser's [fetch] has resolved, lines 22-35. *)
Definition settle (res : Received) : result value :=
  let data := read_json res in
  if negb (ok res) then
    match to_string (failure_message res data) with
    | Some message => Rejected (Thrown_Error message)
    | None => Rejected Thrown_TypeError
    end
  else Resolved data.

(** [request(method, path, body)], lines 11-36, over the browser's [fetch],
    which resolves to a response or rejects. *)
Definition request (network : jstring → Options → result Received)
    (method path : jstring) (body : option value) : result value :=
  match network (BASE ++ path) (options method body) with
  | Resolved res => settle res
  | Rejected t => Rejected t
  end.

(** [window.EWL.apiGet(path)] *)
Definition apiGet (network : jstring → Options → result Received) (path : jstring)
  : result value :=
  request network (str "GET") path None.

(** [window.EWL.apiPost(path, payload)] *)
Definition apiPost (network : jstring → Options → result Received) (path : jstring)
    (payload : option value) : result value :=
  request network (str "POST") path payload.

(** A response of the worker as it reaches the client; the status text is the
    browser's. *)
Definition received (statusText : jstring) (r : Response) : Received :=
  {| res_status := status r; res_statusText := statusText; res_text := body r |}.

End Client.

(** *** The data routes as requests *)

Inductive request : Type :=
| GET_assignments
| POST_assignments (env : Env) (body : value)
| GET_submissions (url : URL)
| POST_submissions (env : Env) (body : value).

(** The handler [fetch] picks for a data route, lines 181-191. *)
Definition handle (r : request) : M Response :=
  match r with
  | GET_assignments => handleAssignmentsGet
  | POST_assignments env body => handleAssignmentsPost env body
  | GET_submissions url => handleSubmissionsGet url
  | POST_submissions env body => handleSubmissionsPost env body
  end.

(** The namespace a request leaves behind when it is served alone, whether
    it returns or throws. *)
Definition after (r : request) (kv : KV) : KV := (run (handle r) kv).1.

(** The namespaces the data routes can produce, one request after another,
    starting from an empty one. *)
Inductive reachable : KV → Prop :=
| reachable_empty : reachable ∅
| reachable_request (kv : KV) (r : request) : reachable kv → reachable (after r kv).

(** The namespaces the worker can produce through [fetch], one request after
    another, starting from an empty one. *)
Inductive served : KV → Prop :=
| served_empty : served ∅
| served_fetch (kv : KV) (host : Env) (env : Bindings) (request : Request) :
    served kv → served (run (fetch host env request) kv).1.

(** Whether [fetch] answers the request itself rather than handing it to the
    static assets. *)
Definition answered_by_worker (request : Request) : bool :=
  String.eqb (toUpperCase (method request)) "OPTIONS"
  || String.eqb (pathname request) "/api"
  || String.eqb (pathname request) "/api/health"
  || String.prefix "/api/" (pathname request).

(** ** Vocabulary of the properties *)

(** The response [json(data, status)] returns when it returns. *)
Definition answer (data : value) (status : Z) : Response :=
  {| status := status;
     headers := ("Content-Type", "application/json; charset=utf-8")%string :: CORS;
     body := JSON.stringify data |}.

(** The response of [json({ ok: true, id, item: record }, 201)] *)
Definition created (id : jstring) (record : value) : Response :=
  answer (JObj [(str "ok", JBool true); (str "id", JStr id); (str "item", record)]) 201.

(** The response of [json({ ok: true, items })] *)
Definition listing (items : list value) : Response :=
  answer (JObj [(str "ok", JBool true); (str "items", JArr items)]) 200.

(** The response of [err(msg, status)] *)
Definition refusal (msg : jstring) (status : Z) : Response :=
  answer (JObj [(str "ok", JBool false); (str "error", JStr msg)]) status.

(** The response of [new Response(null, { status: 204, headers: CORS })] *)
Definition preflight : Response :=
  {| status := 204; headers := CORS; body := [] |}.

(** The response of [json({ ok: true, service: "EduWonderLab API", ts })] *)
Definition health (ts : jstring) : Response :=
  answer (JObj [(str "ok", JBool true); (str "service", JStr (str "EduWonderLab API"));
                (str "ts", JStr ts)]) 200.

(** What [res.json()] reads from a response; [None] when it rejects. *)
Definition payload (r : Response) : option value := JSON.parse (body r).

(** The value [kvGet] resolves a key to. *)
Definition read (kv : KV) (key : jstring) : value :=
  match run (kvGet key) kv with
  | (_, Return v) => v
  | (_, Throw _) => JNull
  end.

(** The value [getIndex] yields for an index. *)
Definition index_value (kv : KV) (name : jstring) : value :=
  match run (getIndex name) kv with
  | (_, Return v) => v
  | (_, Throw _) => JNull
  end.

(** The index [name] is the sequence of ids [ids]. *)
Definition index_holds (kv : KV) (name : jstring) (ids : list jstring) : Prop :=
  index_value kv name = JArr (map JStr ids).

(** The string [o || ''] when it is one: [o] is absent, falsy or a string. *)
Definition text_or_empty (o : option value) : option jstring :=
  match or_else o (JStr []) with
  | JStr s => Some s
  | _ => None
  end.

(** [o] is a string that is not empty after trimming. *)
Definition filled (o : option value) (s : jstring) : Prop :=
  o = Some (JStr s) ∧ Str.is_empty (Str.trim s) = false.

(** [o] is missing, falsy (among which the empty string) or a string of
    whitespace only. *)
Definition missing_or_blank (o : option value) : Prop :=
  truthy_opt o = false ∨ ∃ s, o = Some (JStr s) ∧ Str.is_empty (Str.trim s) = true.

(** The persist, index, respond tail of both POST handlers. *)
Definition commit (prefix name id : jstring) (record : value) : M Response :=
  kvPut (prefix ++ id) record ;;;
  pushIndex name id ;;;
  lift (json (JObj [(str "ok", JBool true); (str "id", JStr id); (str "item", record)]) 201).

(** The ids of an index after [id] is pushed. *)
Definition pushed (ids : list jstring) (id : jstring) : list jstring :=
  if existsb (Str.eqb id) ids then ids else ids ++ [id].

(** The two record types, with the key prefix, the index name, the timestamp
    property and the POST handler of each. *)
Inductive kind : Type := Assignment | Submission.

Definition record_prefix (k : kind) : jstring :=
  match k with
  | Assignment => str "assignment:"
  | Submission => str "submission:"
  end.

Definition index_name (k : kind) : jstring :=
  match k with
  | Assignment => str "assignments"
  | Submission => str "submissions"
  end.

Definition timestamp_field (k : kind) : jstring :=
  match k with
  | Assignment => str "createdAt"
  | Submission => str "submittedAt"
  end.

Definition post (k : kind) : Env → value → M Response :=
  match k with
  | Assignment => handleAssignmentsPost
  | Submission => handleSubmissionsPost
  end.

(** [url.searchParams.get('assignmentId') || ''] *)
Definition filter_of (url : URL) : jstring :=
  match searchParams_get (str "assignmentId") (searchParams url) with
  | Some s => if Str.is_empty s then [] else s
  | None => []
  end.

(** The records an index names, in index order. *)
Definition records (kv : KV) (k : kind) (ids : list jstring) : list value :=
  map (λ id, read kv (record_prefix k ++ id)) ids.

(** Every id of the index of [k] resolves to an object that carries this id,
    and no id is listed twice. *)
Definition index_sound (kv : KV) (k : kind) : Prop :=
  ∃ ids,
    index_holds kv (index_name k) ids ∧ NoDup ids ∧
    ∀ id, id ∈ ids → prop (read kv (record_prefix k ++ id)) (str "id") = Some (JStr id).

Definition store_sound (kv : KV) : Prop := ∀ k, index_sound kv k.

(** Whatever a computation answers is one of the worker's JSON responses: a
    success with status 200 or 201, or an error [{ok:false, error}] with a
    non-empty text and status 400, 404 or 500. *)
Definition answers_json (m : M Response) : Prop :=
  ∀ kv kv' r, run m kv = (kv', Return r) →
    (∃ d st, r = answer d st ∧ (st = 200 ∨ st = 201))
    ∨ (∃ msg st, r = refusal msg st ∧ Str.is_empty msg = false
                 ∧ (st = 400 ∨ st = 404 ∨ st = 500)).

(** ** Sample requests *)

Definition env_a : Env :=
  {| now_base36 := str "lx1"; random_base36 := str "0.abcdefgh";
     now_iso := str "2024-01-01T09:00:00.000Z" |}.

Definition env_b : Env :=
  {| now_base36 := str "lx2"; random_base36 := str "0.fghijklm";
     now_iso := str "2024-01-02T09:00:00.000Z" |}.

Definition env_c : Env :=
  {| now_base36 := str "lx3"; random_base36 := str "0.klmnopqr";
     now_iso := str "2024-01-03T09:00:00.000Z" |}.

Definition env_d : Env :=
  {| now_base36 := str "lx4"; random_base36 := str "0.pqrstuvw";
     now_iso := str "2024-01-04T09:00:00.000Z" |}.

Definition body_fractions : value :=
  JObj [(str "title", JStr (str "Fractions")); (str "prompt", JStr (str "Explain 1/2+1/3"))].

Definition body_decimals : value :=
  JObj [(str "title", JStr (str "  Decimals "));
        (str "prompt", JStr (str "Order 0.5, 0.25, 0.75"));
        (str "createdAt", JStr (str "2023-12-31T23:59:59.000Z"))].

Definition body_ratios : value :=
  JObj [(str "title", JStr (str "Ratios")); (str "prompt", JStr (str "Simplify 6:4"));
        (str "gradeBand", JStr (str " 6-8 "))].


(** The number 5 *)
Definition five : Number.number := Number.Finite false 5629499534213120 (-50).

(** The number 1.5 *)
Definition one_and_a_half : Number.number := Number.Finite false 6755399441055744 (-52).

Definition body_timed : value :=
  JObj [(str "title", JStr (str "Decimals"));
        (str "prompt", JStr (str "Order 0.5, 0.25, 0.75"));
        (str "createdAt", JNum one_and_a_half)].

Definition body_numeric_band : value :=
  JObj [(str "title", JStr (str "Fractions")); (str "prompt", JStr (str "Explain 1/2+1/3"));
        (str "gradeBand", JNum five)].

Definition body_numeric_title : value :=
  JObj [(str "title", JNum five); (str "prompt", JStr [])].

Definition body_endless_stamp : value :=
  JObj [(str "title", JStr (str "Fractions")); (str "prompt", JStr (str "Explain 1/2+1/3"));
        (str "createdAt", JNum (Number.Infinite false))].

Definition kv_note : KV := {[ str "note" := str "keep" ]}.

Definition submission_ana : value :=
  JObj [(str "assignmentId", JStr (str "lx1abcde")); (str "studentName", JStr (str "Ana"));
        (str "response", JStr (str "5/6")); (str "submittedAt", JNum one_and_a_half)].

Definition submission_ben : value :=
  JObj [(str "assignmentId", JStr (str "lx2fghij")); (str "studentName", JStr (str "Ben"));
        (str "response", JStr (str "0.25, 0.5, 0.75"))].

(** A submission whose assignmentId is an object with its own [toString]. *)
Definition submission_odd : value :=
  JObj [(str "assignmentId", JObj [(str "toString", JStr (str "x"))]);
        (str "studentName", JStr (str "Ana")); (str "response", JStr (str "5/6"))].

(** Two assignments, then one submission to each. *)
Definition kv_class : KV :=
  after (POST_submissions env_d submission_ben)
    (after (POST_submissions env_c submission_ana)
       (after (POST_assignments env_b body_timed)
          (after (POST_assignments env_a body_fractions) ∅))).

(** A namespace written by hand: an assignment under an id of three spaces. *)
Definition kv_blank : KV :=
  {[ str "assignment:   " := JSON.stringify (JObj [(str "id", JStr (str "   "))]) ]}.

Definition submission_blank : value :=
  JObj [(str "assignmentId", JStr (str "   ")); (str "studentName", JStr (str " Ana "));
        (str "response", JStr (str "5/6"))].

(** A namespace written by hand: JSON text that is neither a record nor a
    sequence of ids. *)
Definition kv_shapes : KV :=
  {[ str "assignment:x" := str "1.5"; str "index:assignments" := str "1e2" ]}.


Definition url_fractions : URL := {| searchParams := [(str "assignmentId", str "lx1abcde")] |}.

(** Sample requests for [fetch]. *)
Definition no_assets : Request → outcome Response := λ _, Throw TypeError.

Definition bound : Bindings := {| EWL_DATA := true; ASSETS := no_assets |}.

Definition unbound : Bindings := {| EWL_DATA := false; ASSETS := no_assets |}.

Definition no_query : URL := {| searchParams := [] |}.
(** * Properties *)

(** ** Numbers *)

Module NumberFacts.

Import Number.

Lemma pow2_pos e : (0 < pow2 e)%Q.
Proof. apply Qpower_0_lt. reflexivity. Qed.

Lemma pow2_plus a b : (pow2 (a + b) == pow2 a * pow2 b)%Q.
Proof. apply Qpower_plus. discriminate. Qed.

Lemma pow2_succ e : (pow2 (e + 1) == 2 * pow2 e)%Q.
Proof. rewrite pow2_plus. change (pow2 1) with (2 # 1)%Q. ring. Qed.

Lemma pow2_opp a : (pow2 a * pow2 (- a) == 1)%Q.
Proof. rewrite <- pow2_plus. replace (a + - a) with 0 by lia. reflexivity. Qed.

Lemma pow2_inject n : 0 ≤ n → (pow2 n == inject_Z (2 ^ n))%Q.
Proof. intros Hn. rewrite Zpower_Qpower by exact Hn. reflexivity. Qed.

Lemma pow2_lt a b : a < b → (pow2 a < pow2 b)%Q.
Proof. intros H. apply Qpower_lt_compat_l; [ exact H | reflexivity ]. Qed.

Lemma pow2_le a b : a ≤ b → (pow2 a <= pow2 b)%Q.
Proof. intros H. apply Qpower_le_compat_l; [ exact H | discriminate ]. Qed.

Lemma pow2_lt_inv a b : (pow2 a < pow2 b)%Q → a < b.
Proof. intros H. apply (Qpower_lt_compat_l_inv (2 # 1)); [ exact H | reflexivity ]. Qed.

Lemma pow10_pos t : (0 < pow10 t)%Q.
Proof. apply Qpower_0_lt. reflexivity. Qed.

Lemma pow10_plus a b : (pow10 (a + b) == pow10 a * pow10 b)%Q.
Proof. apply Qpower_plus. discriminate. Qed.

Lemma pow10_inject n : 0 ≤ n → (pow10 n == inject_Z (10 ^ n))%Q.
Proof. intros Hn. rewrite Zpower_Qpower by exact Hn. reflexivity. Qed.

Lemma positive_num (x : Q) : (0 < x)%Q → 0 < Qnum x.
Proof. unfold Qlt. cbn. lia. Qed.

(** [binade x] is the exponent of the power of two at or below [x]. *)
Lemma binade_spec (x : Q) :
  (0 < x)%Q → (pow2 (binade x) <= x)%Q ∧ (x < pow2 (binade x + 1))%Q.
Proof.
  intros Hx. pose proof (positive_num x Hx) as Hp.
  destruct x as [p q]. cbn [Qnum Qden] in Hp. unfold binade. cbn [Qnum Qden].
  pose proof (Z.log2_spec p Hp) as [Ha1 Ha2].
  pose proof (Z.log2_spec (Z.pos q) eq_refl) as [Hb1 Hb2].
  pose proof (Z.log2_nonneg p) as Ha0. pose proof (Z.log2_nonneg (Z.pos q)) as Hb0.
  set (a := Z.log2 p) in *. set (b := Z.log2 (Z.pos q)) in *.
  rewrite <- !Z.add_1_r in Ha2, Hb2.
  rewrite Zle_Qle in Ha1, Hb1. rewrite Zlt_Qlt in Ha2, Hb2.
  rewrite <- (pow2_inject a) in Ha1 by lia. rewrite <- (pow2_inject (a + 1)) in Ha2 by lia.
  rewrite <- (pow2_inject b) in Hb1 by lia. rewrite <- (pow2_inject (b + 1)) in Hb2 by lia.
  rewrite pow2_succ in Ha2, Hb2.
  assert (pow2 (a - b) * pow2 b == pow2 a)%Q as HT
    by (rewrite <- pow2_plus; replace (a - b + b) with a by lia; reflexivity).
  assert (pow2 (a - b - 1) * (2 * pow2 b) == pow2 a)%Q as HT'
    by (rewrite <- pow2_succ, <- pow2_plus; replace (a - b - 1 + (b + 1)) with a by lia;
        reflexivity).
  pose proof (pow2_pos a) as HA. pose proof (pow2_pos b) as HB.
  pose proof (pow2_pos (a - b)) as HT0. pose proof (pow2_pos (a - b - 1)) as HT0'.
  assert ((p # q) * inject_Z (Z.pos q) == inject_Z p)%Q as Hx'.
  { rewrite (Qmake_Qdiv p q). field. discriminate. }
  assert (0 < inject_Z (Z.pos q))%Q as HQ by reflexivity.
  set (X := (p # q)%Q) in *. set (P := inject_Z p) in *. set (QQ := inject_Z (Z.pos q)) in *.
  set (A := pow2 a) in *. set (B := pow2 b) in *.
  destruct (Qle_bool (pow2 (a - b)) X) eqn:Hle.
  - apply Qle_bool_iff in Hle. split; [ exact Hle | ].
    rewrite pow2_succ. set (T := pow2 (a - b)) in *.
    apply (Qmult_lt_r _ _ QQ); [ exact HQ | ]. nra.
  - assert (X < pow2 (a - b))%Q as Hlt.
    { destruct (Qlt_le_dec X (pow2 (a - b))) as [ H | H ]; [ exact H | ].
      apply Qle_bool_iff in H. congruence. }
    replace (a - b - 1 + 1) with (a - b) by lia. split; [ | exact Hlt ].
    set (T := pow2 (a - b - 1)) in *.
    apply (Qmult_le_r _ _ QQ); [ exact HQ | ]. nra.
Qed.

(** The exponent is determined by the two bounds. *)
Lemma binade_unique (x : Q) (E : Z) :
  (pow2 E <= x)%Q → (x < pow2 (E + 1))%Q → binade x = E.
Proof.
  intros H1 H2.
  assert (0 < x)%Q as Hx by (eapply Qlt_le_trans; [ apply (pow2_pos E) | exact H1 ]).
  destruct (binade_spec x Hx) as [H3 H4].
  assert (binade x < E + 1) by (apply pow2_lt_inv; eapply Qle_lt_trans; eassumption).
  assert (E < binade x + 1) by (apply pow2_lt_inv; eapply Qle_lt_trans; eassumption).
  lia.
Qed.

Lemma nearest_even_comp (y y' : Q) : (y == y')%Q → nearest_even y = nearest_even y'.
Proof.
  intros H. unfold nearest_even. rewrite (Qfloor_comp y y' H).
  assert (y - inject_Z (Qfloor y') == y' - inject_Z (Qfloor y'))%Q as H' by (rewrite H; reflexivity).
  rewrite (Qcompare_comp _ _ H' (1 # 2)%Q (1 # 2)%Q (Qeq_refl _)). reflexivity.
Qed.

Lemma nearest_even_inject (z : Z) : nearest_even (inject_Z z) = z.
Proof.
  unfold nearest_even. rewrite Qfloor_Z.
  assert (inject_Z z - inject_Z z < 1 # 2)%Q as H by (ring_simplify; reflexivity).
  rewrite (proj1 (Qlt_alt _ _) H). reflexivity.
Qed.

Lemma nearest_even_bounds (y : Q) : Qfloor y ≤ nearest_even y ≤ Qfloor y + 1.
Proof.
  unfold nearest_even.
  destruct (Qcompare _ _); [ destruct (Z.even _) | | ]; lia.
Qed.

(** The rounding depends on the value alone. *)
Lemma round_comp negative (x x' : Q) : (x == x')%Q → round negative x = round negative x'.
Proof. intros H. unfold round. rewrite (Qred_complete x x' H). reflexivity. Qed.

Lemma floor_below (y : Q) (n : Z) : (y < inject_Z n)%Q → Qfloor y < n.
Proof.
  intros H. rewrite Zlt_Qlt. eapply Qle_lt_trans; [ apply Qfloor_le | exact H ].
Qed.

Lemma floor_above (y : Q) (n : Z) : (inject_Z n <= y)%Q → n ≤ Qfloor y.
Proof. intros H. rewrite <- (Qfloor_Z n). apply Qfloor_resp_le. exact H. Qed.

(** The mantissa before rounding: below [2^53], and at least [2^52] unless
    the exponent is the least one. *)
Lemma scaled_bounds (x : Q) :
  (0 < x)%Q →
  let e := Z.max (binade x - 52) (-1074) in
  let y := (x * pow2 (- e))%Q in
  (0 < y)%Q ∧ (y < pow2 53)%Q ∧ ((pow2 52 <= y)%Q ∨ (e = -1074 ∧ (y < pow2 52)%Q)).
Proof.
  intros Hx e y. destruct (binade_spec x Hx) as [H1 H2].
  pose proof (pow2_pos (- e)) as He.
  assert (0 < y)%Q as Hy by (unfold y; nra).
  split; [ exact Hy | ].
  assert (pow2 (binade x - e) <= y)%Q as Hlo.
  { unfold y. replace (binade x - e) with (binade x + - e) by lia. rewrite pow2_plus. nra. }
  assert (y < pow2 (binade x + 1 - e))%Q as Hhi.
  { unfold y. replace (binade x + 1 - e) with (binade x + 1 + - e) by lia. rewrite pow2_plus. nra. }
  destruct (Z.max_spec (binade x - 52) (-1074)) as [ [Hc Hm] | [Hc Hm] ]; fold e in Hm.
  - split.
    + eapply Qlt_le_trans; [ exact Hhi | ]. apply pow2_le. lia.
    + right. split; [ exact Hm | ]. eapply Qlt_le_trans; [ exact Hhi | ]. apply pow2_le. lia.
  - replace (binade x + 1 - e) with 53 in Hhi by lia.
    replace (binade x - e) with 52 in Hlo by lia.
    split; [ exact Hhi | left; exact Hlo ].
Qed.

Lemma Qle_bool_false (x y : Q) : (y < x)%Q → Qle_bool x y = false.
Proof.
  intros H. destruct (Qle_bool x y) eqn:E; [ | reflexivity ].
  apply Qle_bool_iff in E. exfalso. apply (Qlt_irrefl y). eapply Qlt_le_trans; eassumption.
Qed.

Lemma Qle_bool_true_nonpos (x : Q) : Qle_bool x (0 # 1) = false → (0 < x)%Q.
Proof.
  intros H. destruct (Qlt_le_dec 0 x) as [ Hx | Hx ]; [ exact Hx | ].
  apply Qle_bool_iff in Hx. congruence.
Qed.

(** Whatever is rounded, the result is a double. *)
Lemma round_is_double negative (x : Q) : is_double (round negative x) = true.
Proof.
  unfold round. set (x' := Qred x).
  destruct (Qle_bool x' (0 # 1)) eqn:Hsign; [ reflexivity | ].
  apply Qle_bool_true_nonpos in Hsign.
  destruct (scaled_bounds x' Hsign) as (Hy & Hhi & Hlo).
  set (e := Z.max (binade x' - 52) (-1074)) in *.
  set (y := (x' * pow2 (- e))%Q) in *.
  pose proof (nearest_even_bounds y) as Hm.
  assert (-1074 ≤ e) as He by (unfold e; lia).
  assert (Qfloor y < 2 ^ 53) as Hf1
    by (apply floor_below; rewrite <- pow2_inject by lia; exact Hhi).
  assert (0 ≤ Qfloor y) as Hf0
    by (apply floor_above; apply Qlt_le_weak; exact Hy).
  assert (2 ^ 52 ≤ Qfloor y ∨ (e = -1074 ∧ Qfloor y < 2 ^ 52)) as Hf2.
  { destruct Hlo as [ Hlo | [He' Hlo] ].
    - left. apply floor_above. rewrite <- pow2_inject by lia. exact Hlo.
    - right. split; [ exact He' | ]. apply floor_below. rewrite <- pow2_inject by lia.
      exact Hlo. }
  set (m := nearest_even y) in *.
  destruct (m =? 2 ^ 53) eqn:Hm53.
  - destruct (971 <? e + 1) eqn:Hov; [ reflexivity | ].
    apply Z.ltb_ge in Hov. cbn [is_double].
    change (2 ^ 52) with 4503599627370496. cbn [is_double].
    apply andb_true_iff; split; [ apply andb_true_iff; split; [ apply andb_true_iff; split | ] | ].
    + reflexivity.
    + apply Z.leb_le. lia.
    + apply Z.leb_le. lia.
    + reflexivity.
  - apply Z.eqb_neq in Hm53.
    destruct (971 <? e) eqn:Hov; [ reflexivity | ].
    apply Z.ltb_ge in Hov.
    destruct m as [ | p | p ] eqn:Hmp; [ reflexivity | | reflexivity ].
    cbn [is_double].
    apply andb_true_iff; split; [ apply andb_true_iff; split; [ apply andb_true_iff; split | ] | ].
    + apply Z.ltb_lt. lia.
    + apply Z.leb_le. lia.
    + apply Z.leb_le. lia.
    + apply orb_true_iff. destruct Hf2 as [ Hf2 | [Hf2 _] ].
      * left. apply Z.leb_le. lia.
      * right. apply Z.eqb_eq. exact Hf2.
Qed.

Lemma is_double_finite negative (m : positive) (e : Z) :
  is_double (Finite negative m e) = true →
  Z.pos m < 2 ^ 53 ∧ -1074 ≤ e ≤ 971 ∧ (2 ^ 52 ≤ Z.pos m ∨ e = -1074).
Proof.
  cbn [is_double]. rewrite !andb_true_iff, orb_true_iff.
  rewrite Z.ltb_lt, !Z.leb_le, Z.eqb_eq. tauto.
Qed.

Lemma magnitude_pos (m : positive) (e : Z) : (0 < magnitude m e)%Q.
Proof.
  unfold magnitude. pose proof (pow2_pos e).
  assert (0 < inject_Z (Z.pos m))%Q by reflexivity. nra.
Qed.

(** A double is the nearest double to its own value. *)
Lemma round_exact negative (m : positive) (e : Z) :
  is_double (Finite negative m e) = true →
  round negative (magnitude m e) = Finite negative m e.
Proof.
  intros Hd. apply is_double_finite in Hd. destruct Hd as (Hm & He & Hn).
  unfold round. set (x := Qred (magnitude m e)).
  assert (x == magnitude m e)%Q as Hx by apply Qred_correct.
  pose proof (magnitude_pos m e) as Hpos. rewrite <- Hx in Hpos.
  rewrite (Qle_bool_false _ _ Hpos).
  assert (Z.max (binade x - 52) (-1074) = e) as Hexp.
  { destruct (binade_spec x Hpos) as [H1 H2].
    pose proof (pow2_pos e) as Hpe.
    assert (x < pow2 (53 + e))%Q as Hup.
    { rewrite Hx. unfold magnitude. rewrite pow2_plus. rewrite (pow2_inject 53) by lia.
      rewrite Zlt_Qlt in Hm. nra. }
    assert (binade x < 53 + e)
      by (apply pow2_lt_inv; eapply Qle_lt_trans; eassumption).
    destruct Hn as [ Hn | Hn ].
    - assert (pow2 (52 + e) <= x)%Q as Hdown.
      { rewrite Hx. unfold magnitude. rewrite pow2_plus. rewrite (pow2_inject 52) by lia.
        rewrite Zle_Qle in Hn. nra. }
      assert (52 + e < binade x + 1)
        by (apply pow2_lt_inv; eapply Qle_lt_trans; eassumption).
      lia.
    - lia. }
  rewrite Hexp.
  assert (x * pow2 (- e) == inject_Z (Z.pos m))%Q as Hy.
  { rewrite Hx. unfold magnitude. rewrite <- Qmult_assoc, pow2_opp. ring. }
  rewrite (nearest_even_comp _ _ Hy), nearest_even_inject.
  destruct (Z.pos m =? 2 ^ 53) eqn:E; [ apply Z.eqb_eq in E; lia | ].
  destruct (971 <? e) eqn:E'; [ apply Z.ltb_lt in E'; lia | ].
  reflexivity.
Qed.

(** The sign is carried along. *)
Lemma round_sign negative (x : Q) : round negative x = with_sign negative (round false x).
Proof.
  unfold round. destruct (Qle_bool _ _); [ reflexivity | ].
  destruct (_ =? _); destruct (_ <? _); try reflexivity; destruct (nearest_even _); reflexivity.
Qed.


(** *** Decimal digits *)

Lemma value_snoc (ds : list N) (d : N) : of_digits (ds ++ [d]) = (10 * of_digits ds + d)%N.
Proof. unfold of_digits. rewrite fold_left_app. reflexivity. Qed.

Lemma value_app (a b : list N) :
  of_digits (a ++ b) = (of_digits a * 10 ^ N.of_nat (length b) + of_digits b)%N.
Proof.
  induction b as [ | d b IH ] using rev_ind.
  - rewrite app_nil_r. cbn. lia.
  - rewrite app_assoc, !value_snoc, IH, length_app. cbn [length].
    replace (N.of_nat (length b + 1)) with (N.succ (N.of_nat (length b))) by lia.
    rewrite N.pow_succ_r'. lia.
Qed.

Lemma value_cons (d : N) (ds : list N) :
  of_digits (d :: ds) = (d * 10 ^ N.of_nat (length ds) + of_digits ds)%N.
Proof. change (d :: ds) with ([d] ++ ds). rewrite value_app. cbn. lia. Qed.

Lemma value_zeros (n : nat) : of_digits (repeat 0%N n) = 0%N.
Proof.
  induction n as [ | n IH ]; [ reflexivity | ].
  cbn [repeat]. rewrite value_cons, IH. lia.
Qed.

Lemma digits_fuel_spec (fuel : nat) (n : N) (acc : list N) :
  (n < 2 ^ N.of_nat fuel)%N → all_digits acc →
  let ds := digits_fuel fuel n acc in
  of_digits ds = (n * 10 ^ N.of_nat (length acc) + of_digits acc)%N
  ∧ all_digits ds
  ∧ (0 < n → leads ds)%N.
Proof.
  revert n acc. induction fuel as [ | fuel IH ]; intros n acc Hn Hacc.
  - cbn in Hn. assert (n = 0%N) as -> by lia. cbn [digits_fuel].
    split; [ apply value_cons | ]. split; [ constructor; [ lia | exact Hacc ] | ]. lia.
  - cbn [digits_fuel]. destruct (n <? 10)%N eqn:Hlt.
    + apply N.ltb_lt in Hlt.
      split; [ apply value_cons | ]. split; [ constructor; [ exact Hlt | exact Hacc ] | ].
      cbn. lia.
    + apply N.ltb_ge in Hlt.
      assert (n / 10 < 2 ^ N.of_nat fuel)%N as Hdiv.
      { replace (N.of_nat (S fuel)) with (N.succ (N.of_nat fuel)) in Hn by lia.
        rewrite N.pow_succ_r' in Hn.
        apply N.Div0.div_lt_upper_bound. lia. }
      assert (all_digits ((n mod 10)%N :: acc)) as Hacc'.
      { constructor; [ apply N.mod_lt; lia | exact Hacc ]. }
      destruct (IH (n / 10)%N ((n mod 10)%N :: acc) Hdiv Hacc') as (Hv & Hall & Hlead).
      split; [ | split ].
      * rewrite Hv, value_cons. cbn [length].
        replace (N.of_nat (S (length acc))) with (N.succ (N.of_nat (length acc))) by lia.
        rewrite N.pow_succ_r'.
        pose proof (N.div_mod n 10 ltac:(lia)). nia.
      * exact Hall.
      * intros _. apply Hlead.
        assert (1 ≤ n / 10)%N by (apply N.div_le_lower_bound; lia). lia.
Qed.

Lemma digits_spec (n : N) :
  of_digits (digits n) = n ∧ all_digits (digits n) ∧ (0 < n → leads (digits n))%N.
Proof.
  unfold digits.
  assert (n < 2 ^ N.of_nat (S (N.to_nat (N.log2 n))))%N as Hn.
  { destruct (N.eq_dec n 0%N) as [ -> | Hpos ]; [ reflexivity | ].
    replace (N.of_nat (S (N.to_nat (N.log2 n)))) with (N.succ (N.log2 n)) by lia.
    apply N.log2_spec. lia. }
  destruct (digits_fuel_spec _ n [] Hn (Forall_nil_2 _)) as (Hv & Hall & Hlead).
  split; [ | split; assumption ].
  rewrite Hv. cbn. lia.
Qed.

Lemma digits_fuel_nonempty (fuel : nat) (n : N) (acc : list N) : digits_fuel fuel n acc ≠ [].
Proof.
  revert n acc. induction fuel as [ | fuel IH ]; intros n acc; cbn [digits_fuel].
  - done.
  - destruct (n <? 10)%N; [ done | apply IH ].
Qed.

Lemma digits_nonempty (n : N) : digits n ≠ [].
Proof. apply digits_fuel_nonempty. Qed.

(** *** The decimal of a double *)

Lemma decimal_comp (ds ds' : list N) (t t' : Z) :
  (inject_Z (Z.of_N (of_digits ds)) * pow10 t == inject_Z (Z.of_N (of_digits ds')) * pow10 t')%Q →
  (decimal ds t == decimal ds' t')%Q.
Proof. intros H. exact H. Qed.

Lemma exact_decimal_spec (m : positive) (e : Z) :
  let '(Y, t) := exact_decimal m e in
  (0 < Y)%N ∧ (inject_Z (Z.of_N Y) * pow10 t == magnitude m e)%Q.
Proof.
  unfold exact_decimal, magnitude. destruct (0 <=? e) eqn:He.
  - apply Z.leb_le in He. split.
    + assert (0 < 2 ^ Z.to_N e)%N by (apply N.neq_0_lt_0, N.pow_nonzero; lia). nia.
    + change (pow10 0) with (1 # 1)%Q. rewrite Qmult_1_r.
      rewrite pow2_inject by exact He. rewrite <- inject_Z_mult.
      rewrite N2Z.inj_mul, N2Z.inj_pow, Z2N.id by exact He. reflexivity.
  - apply Z.leb_gt in He. split.
    + assert (0 < 5 ^ Z.to_N (- e))%N by (apply N.neq_0_lt_0, N.pow_nonzero; lia). nia.
    + rewrite N2Z.inj_mul, N2Z.inj_pow, Z2N.id by lia.
      rewrite inject_Z_mult, Zpower_Qpower by lia.
      change (inject_Z (Z.of_N 5)) with (5 # 1)%Q. change (Z.of_N (N.pos m)) with (Z.pos m).
      unfold pow10, pow2.
      assert (((10 # 1) ^ e == (2 # 1) ^ e * (5 # 1) ^ e)%Q) as ->
        by (rewrite <- Qmult_power; reflexivity).
      assert (((5 # 1) ^ (- e) * (5 # 1) ^ e == 1)%Q) as H5.
      { rewrite <- Qpower_plus by discriminate. replace (- e + e) with 0 by lia. reflexivity. }
      set (a := ((5 # 1) ^ (- e))%Q) in *. set (b := ((5 # 1) ^ e)%Q) in *.
      set (c := ((2 # 1) ^ e)%Q). set (M := inject_Z (Z.pos m)).
      transitivity (M * c * (a * b))%Q; [ ring | rewrite H5; ring ].
Qed.

Lemma drop_zeros_spec (r : list N) (t : Z) :
  r ≠ [] →
  let '(r', t') := drop_zeros r t in
  r' ≠ [] ∧ (∃ z, r = repeat 0%N z ++ r' ∧ t' = t + Z.of_nat z).
Proof.
  revert t. induction r as [ | d r IH ]; intros t Hne; [ done | ].
  cbn [drop_zeros]. destruct d as [ | p ].
  - destruct r as [ | d' r' ].
    + split; [ done | ]. exists 0%nat. split; [ reflexivity | lia ].
    + specialize (IH (t + 1) ltac:(done)).
      destruct (drop_zeros (d' :: r') (t + 1)) as [r'' t''].
      destruct IH as (Hne' & z & Hz & Ht). split; [ exact Hne' | ].
      exists (S z). cbn [repeat]. rewrite <- app_comm_cons, <- Hz. split; [ reflexivity | lia ].
  - split; [ done | ]. exists 0%nat. split; [ reflexivity | lia ].
Qed.

Lemma pow10_nat (z : nat) : (pow10 (Z.of_nat z) == inject_Z (Z.of_N (10 ^ N.of_nat z)))%Q.
Proof.
  rewrite pow10_inject by lia. rewrite N2Z.inj_pow, nat_N_Z. reflexivity.
Qed.

(** Stripping trailing zeros keeps the of_digits, the digits and the lead. *)
Lemma strip_spec (ds : list N) (t : Z) :
  ds ≠ [] → all_digits ds →
  let '(ds', t') := strip ds t in
  (decimal ds' t' == decimal ds t)%Q ∧ ds' ≠ [] ∧ all_digits ds' ∧ (leads ds → leads ds').
Proof.
  intros Hne Hall. unfold strip.
  assert (rev ds ≠ []) as Hrev by (intros H; apply Hne; apply (f_equal (@rev N)) in H;
                                   rewrite rev_involutive in H; exact H).
  pose proof (drop_zeros_spec (rev ds) t Hrev) as H.
  destruct (drop_zeros (rev ds) t) as [r' t'].
  destruct H as (Hne' & z & Hz & Ht).
  assert (ds = rev r' ++ repeat 0%N z) as Hds.
  { rewrite <- (rev_involutive ds), Hz, rev_app_distr.
    f_equal. clear. induction z as [ | z IH ]; [ reflexivity | ].
    cbn [repeat rev]. rewrite IH. clear. induction z; [ reflexivity | cbn; congruence ]. }
  split; [ | split; [ | split ] ].
  - unfold decimal. rewrite Hds, value_app, repeat_length, value_zeros, Ht.
    rewrite pow10_plus, (pow10_nat z).
    rewrite N.add_0_r, N2Z.inj_mul, inject_Z_mult. ring.
  - intros H. apply Hne'. apply (f_equal (@rev N)) in H. rewrite rev_involutive in H. exact H.
  - rewrite Hds in Hall. apply Forall_app in Hall. tauto.
  - rewrite Hds. destruct (rev r') as [ | d r'' ] eqn:E.
    + exfalso. apply Hne'. apply (f_equal (@rev N)) in E. rewrite rev_involutive in E. exact E.
    + cbn. tauto.
Qed.

Lemma eqb_eq (x y : number) : eqb x y = true → x = y.
Proof.
  destruct x as [ a | a m e | a ], y as [ b | b n f | b ]; cbn; try discriminate.
  - intros H. apply Bool.eqb_prop in H. congruence.
  - rewrite !andb_true_iff. intros [[H1 H2] H3].
    apply Bool.eqb_prop in H1. apply Pos.eqb_eq in H2. apply Z.eqb_eq in H3. congruence.
  - intros H. apply Bool.eqb_prop in H. congruence.
Qed.

(** A decimal that passes the check denotes what the double itself denotes. *)
Lemma reads_as_spec (m : positive) (e : Z) (ds : list N) (t : Z) :
  reads_as (Finite false m e) ds t = true →
  round false (decimal ds t) = round false (magnitude m e).
Proof.
  unfold reads_as. intros H. apply eqb_eq in H.
  rewrite round_exact; [ exact H | ]. rewrite <- H. apply round_is_double.
Qed.

Lemma take_leads (k : nat) (D : list N) : (1 ≤ k)%nat → leads D → leads (take k D).
Proof. destruct k; [ lia | ]. destruct D; [ done | ]. cbn. tauto. Qed.

Lemma shortest_from_spec (fuel k : nat) (D : list N) (t : Z) (m : positive) (e : Z) :
  (1 ≤ k)%nat → D ≠ [] → all_digits D → leads D →
  round false (decimal D t) = round false (magnitude m e) →
  let '(ds, t') := shortest_from fuel k D t (Finite false m e) in
  round false (decimal ds t') = round false (magnitude m e)
  ∧ ds ≠ [] ∧ all_digits ds ∧ leads ds.
Proof.
  intros Hk Hne Hall Hlead Hexact. revert k Hk.
  induction fuel as [ | fuel IH ]; intros k Hk; cbn [shortest_from]; [ tauto | ].
  destruct (length D <=? k)%nat; [ tauto | ].
  set (lo := take k D). set (hi := digits (of_digits lo + 1)).
  set (t' := t + Z.of_nat (length D - k)).
  assert (lo ≠ [] ∧ all_digits lo ∧ leads lo) as Hlo.
  { split; [ | split ].
    - pose proof (take_leads k D Hk Hlead) as H. fold lo in H. destruct lo; done.
    - apply Forall_take. exact Hall.
    - apply take_leads; assumption. }
  assert (hi ≠ [] ∧ all_digits hi ∧ leads hi) as Hhi.
  { destruct (digits_spec (of_digits lo + 1)) as (_ & H1 & H2).
    split; [ apply digits_nonempty | ]. split; [ exact H1 | apply H2; lia ]. }
  destruct (reads_as (Finite false m e) lo t') eqn:Rlo;
    destruct (reads_as (Finite false m e) hi t') eqn:Rhi.
  - apply reads_as_spec in Rlo, Rhi.
    destruct (_ ?= _)%N; [ destruct (N.even _) | | ]; tauto.
  - apply reads_as_spec in Rlo. tauto.
  - apply reads_as_spec in Rhi. tauto.
  - apply IH. lia.
Qed.

(** The digits [Number::toString] prints denote the double, begin with a
    digit other than zero, and are digits. *)
Lemma shortest_spec (m : positive) (e : Z) :
  let '(ds, t) := shortest m e in
  round false (decimal ds t) = round false (magnitude m e)
  ∧ ds ≠ [] ∧ all_digits ds ∧ leads ds.
Proof.
  unfold shortest. pose proof (exact_decimal_spec m e) as HY.
  destruct (exact_decimal m e) as [Y t]. destruct HY as [HY0 HY].
  destruct (digits_spec Y) as (Hv & Hall & Hlead).
  pose proof (strip_spec (digits Y) t (digits_nonempty Y) Hall) as HS.
  destruct (strip (digits Y) t) as [D t1]. destruct HS as (HS1 & HS2 & HS3 & HS4).
  assert (round false (decimal D t1) = round false (magnitude m e)) as Hexact.
  { apply round_comp. rewrite HS1. unfold decimal. rewrite Hv. exact HY. }
  pose proof (shortest_from_spec 17 1 D t1 m e ltac:(lia) HS2 HS3 (HS4 (Hlead HY0)) Hexact) as HF.
  destruct (shortest_from 17 1 D t1 (Finite false m e)) as [ds t2].
  destruct HF as (HF1 & HF2 & HF3 & HF4).
  pose proof (strip_spec ds t2 HF2 HF3) as HS'.
  destruct (strip ds t2) as [ds' t3]. destruct HS' as (HS1' & HS2' & HS3' & HS4').
  split; [ | split; [ exact HS2' | split; [ exact HS3' | exact (HS4' HF4) ] ] ].
  rewrite <- HF1. apply round_comp. exact HS1'.
Qed.
End NumberFacts.

Lemma value_ind' (P : value → Prop) :
  P JNull →
  (∀ b, P (JBool b)) →
  (∀ n, P (JNum n)) →
  (∀ s, P (JStr s)) →
  (∀ xs, Forall P xs → P (JArr xs)) →
  (∀ fs, Forall (λ f, P f.2) fs → P (JObj fs)) →
  ∀ v, P v.
Proof.
  intros Hnull Hbool Hnum Hstr Harr Hobj.
  fix IH 1. intros [ | b | n | s | xs | fs ].
  - exact Hnull.
  - apply Hbool.
  - apply Hnum.
  - apply Hstr.
  - apply Harr. induction xs as [ | x xs IHxs ]; constructor; [ apply IH | exact IHxs ].
  - apply Hobj. induction fs as [ | [k x] fs IHfs ]; constructor; [ apply IH | exact IHfs ].
Qed.

(** ** JSON text *)

Module JSONFacts.

Import Number NumberFacts JSON.

(** *** Numbers *)

Lemma digit_of_char (d : N) : (d < 10)%N → digit_of (digit_char d) = Some d.
Proof.
  intros H. unfold digit_of, digit_char.
  destruct (48 <=? 48 + d)%N eqn:E1; [ | apply N.leb_gt in E1; lia ].
  destruct (48 + d <=? 57)%N eqn:E2; [ | apply N.leb_gt in E2; lia ].
  cbn [andb]. f_equal. lia.
Qed.

Lemma digit_char_not (d c : N) : (d < 10)%N → (c < 48 ∨ 57 < c)%N → (digit_char d =? c)%N = false.
Proof. intros H1 H2. apply N.eqb_neq. unfold digit_char. lia. Qed.

Lemma digit_char_zero (d : N) : d ≠ 0%N → (digit_char d =? 48)%N = false.
Proof. intros H. apply N.eqb_neq. unfold digit_char. lia. Qed.

Lemma ends_number_stops (rest : jstring) : ends_number rest → stops rest.
Proof. destruct rest; [ done | ]. cbn. tauto. Qed.

Lemma scan_digits_chars (ds : list N) (rest : jstring) :
  all_digits ds → stops rest → scan_digits (map digit_char ds ++ rest) = (ds, rest).
Proof.
  intros Hall Hrest. induction Hall as [ | d ds Hd Hall IH ].
  - cbn [map app]. destruct rest as [ | c r ]; [ reflexivity | ].
    cbn in Hrest. cbn [scan_digits]. rewrite Hrest. reflexivity.
  - cbn [map app scan_digits]. rewrite (digit_of_char d Hd), IH. reflexivity.
Qed.

Lemma some_digits_chars (ds : list N) (rest : jstring) :
  ds ≠ [] → all_digits ds → stops rest →
  some_digits (map digit_char ds ++ rest) = Some (ds, rest).
Proof.
  intros Hne Hall Hrest. unfold some_digits. rewrite scan_digits_chars by assumption.
  destruct ds; [ done | reflexivity ].
Qed.

Lemma parse_frac_none (rest : jstring) : ends_number rest → parse_frac rest = Some ([], rest).
Proof.
  destruct rest as [ | c r ]; [ reflexivity | ]. intros (_ & H & _). cbn [parse_frac].
  apply N.eqb_neq in H. rewrite H. reflexivity.
Qed.

Lemma parse_exp_none (rest : jstring) : ends_number rest → parse_exp rest = Some (0, rest).
Proof.
  destruct rest as [ | c r ]; [ reflexivity | ]. intros (_ & _ & H1 & H2). cbn [parse_exp].
  apply N.eqb_neq in H1, H2. rewrite H1, H2. reflexivity.
Qed.

Lemma stops_cons (c : N) (r : jstring) : (c < 48 ∨ 57 < c)%N → stops (c :: r).
Proof.
  intros H. cbn. unfold digit_of.
  destruct (48 <=? c)%N eqn:E1; [ | reflexivity ].
  destruct (c <=? 57)%N eqn:E2; [ | reflexivity ].
  apply N.leb_le in E1, E2. lia.
Qed.

(** The exponent part of the exponent form. *)
Lemma parse_exp_layout (n : Z) (rest : jstring) :
  stops rest → n ≠ 0 →
  parse_exp (101%N :: (if 0 <? n then 43%N else 45%N)
                   :: map digit_char (digits (Z.to_N (Z.abs n))) ++ rest)
  = Some (n, rest).
Proof.
  intros Hrest Hn. cbn [parse_exp]. change (101 =? 101)%N with true. cbn [orb].
  destruct (digits_spec (Z.to_N (Z.abs n))) as (Hv & Hall & _).
  destruct (0 <? n) eqn:E; cbn [parse_sign]; cbn -[digits];
    rewrite (some_digits_chars _ rest (digits_nonempty _) Hall Hrest), Hv;
    [ apply Z.ltb_lt in E | apply Z.ltb_ge in E ]; do 2 f_equal; lia.
Qed.

Lemma decimal_eq (ds ds' : list N) (t t' : Z) :
  of_digits ds = of_digits ds' → t = t' → (decimal ds t == decimal ds' t')%Q.
Proof. intros Hv Ht. unfold decimal. rewrite Hv, Ht. reflexivity. Qed.

Lemma chars_zeros (z : nat) : repeat 48%N z = map digit_char (repeat 0%N z).
Proof. induction z as [ | z IH ]; [ reflexivity | cbn [repeat map]; rewrite IH; reflexivity ]. Qed.

Lemma all_digits_zeros (z : nat) : all_digits (repeat 0%N z).
Proof. induction z as [ | z IH ]; [ constructor | constructor; [ lia | exact IH ] ]. Qed.

(** The layout of a decimal reads back as that decimal. *)
Lemma layout_parse (ds : list N) (n : Z) (rest : jstring) :
  ds ≠ [] → all_digits ds → leads ds → ends_number rest →
  ∃ int frac exp s2 s3,
    parse_int (layout ds n ++ rest) = Some (int, s2) ∧
    parse_frac s2 = Some (frac, s3) ∧
    parse_exp s3 = Some (exp, rest) ∧
    (decimal (int ++ frac) (exp - Z.of_nat (length frac))
     == decimal ds (n - Z.of_nat (length ds)))%Q.
Proof.
  intros Hne Hall Hlead Hrest. pose proof (ends_number_stops rest Hrest) as Hstop.
  destruct ds as [ | d ds' ]; [ done | ]. cbn in Hlead.
  pose proof (Forall_inv Hall) as Hd. pose proof (Forall_inv_tail Hall) as Hall'.
  unfold layout. set (k := Z.of_nat (length (d :: ds'))).
  set (ds := d :: ds') in *.
  destruct ((k <=? n) && (n <=? 21)) eqn:CA.
  { (* plain digits *)
    apply andb_true_iff in CA. destruct CA as [CA1 CA2]. apply Z.leb_le in CA1.
    set (j := Z.to_nat (n - k)).
    assert (map digit_char ds ++ repeat 48%N j = map digit_char (ds ++ repeat 0%N j)) as ->.
    { rewrite map_app, chars_zeros. reflexivity. }
    assert (all_digits (ds ++ repeat 0%N j)) as Hall2.
    { apply Forall_app. split; [ exact Hall | apply all_digits_zeros ]. }
    exists (ds ++ repeat 0%N j), [], 0, rest, rest. split; [ | split; [ | split ] ].
    - unfold ds at 1. cbn [app map parse_int]. rewrite (digit_char_zero d Hlead).
      change (digit_char d :: map digit_char (ds' ++ repeat 0%N j) ++ rest)
        with (map digit_char (ds ++ repeat 0%N j) ++ rest).
      apply some_digits_chars; [ done | exact Hall2 | exact Hstop ].
    - apply parse_frac_none. exact Hrest.
    - apply parse_exp_none. exact Hrest.
    - rewrite app_nil_r. unfold decimal. rewrite value_app, repeat_length, value_zeros.
      cbn [length]. change (pow10 (0 - Z.of_nat 0)) with (1 # 1)%Q.
      replace (n - k) with (Z.of_nat j) by lia. rewrite (pow10_nat j).
      rewrite N.add_0_r, N2Z.inj_mul, inject_Z_mult. ring. }
  destruct ((0 <? n) && (n <=? 21)) eqn:CB.
  { (* digits, a point, digits *)
    apply andb_true_iff in CB. destruct CB as [CB1 CB2].
    apply Z.ltb_lt in CB1. apply Z.leb_le in CB2.
    assert (n < k) as Hnk.
    { apply andb_false_iff in CA. destruct CA as [ CA | CA ];
        [ apply Z.leb_gt in CA; lia | apply Z.leb_gt in CA; lia ]. }
    set (j := Z.to_nat n).
    assert (j = S (pred j)) as Hj by lia.
    rewrite firstn_map, skipn_map.
    assert (drop j ds ≠ []) as Hdrop.
    { intros H. apply (f_equal length) in H. rewrite length_drop in H. cbn [length] in H.
      unfold k in Hnk. lia. }
    exists (take j ds), (drop j ds), 0, (46%N :: map digit_char (drop j ds) ++ rest), rest.
    split; [ | split; [ | split ] ].
    - rewrite <- app_assoc. cbn [app].
      assert (take j ds ≠ []) as Htake by (rewrite Hj; done).
      rewrite Hj at 1. unfold ds at 1. cbn [take map app parse_int].
      rewrite (digit_char_zero d Hlead).
      change (digit_char d :: map digit_char (take (pred j) ds') ++ ?r)
        with (map digit_char (take (S (pred j)) ds) ++ r).
      rewrite <- Hj.
      apply some_digits_chars; [ exact Htake | apply Forall_take; exact Hall | ].
      apply stops_cons. lia.
    - cbn [parse_frac]. change (46 =? 46)%N with true. cbn iota.
      apply some_digits_chars; [ exact Hdrop | apply Forall_drop; exact Hall | exact Hstop ].
    - apply parse_exp_none. exact Hrest.
    - rewrite take_drop. apply decimal_eq; [ reflexivity | ].
      rewrite length_drop. unfold k in *. lia. }
  destruct ((-6 <? n) && (n <=? 0)) eqn:CC.
  { (* a zero, a point, zeros, digits *)
    apply andb_true_iff in CC. destruct CC as [CC1 CC2].
    apply Z.ltb_lt in CC1. apply Z.leb_le in CC2.
    set (z := Z.to_nat (- n)).
    assert (repeat 48%N z ++ map digit_char ds = map digit_char (repeat 0%N z ++ ds)) as Hz.
    { rewrite map_app, chars_zeros. reflexivity. }
    exists [0%N], (repeat 0%N z ++ ds), 0,
      (46%N :: map digit_char (repeat 0%N z ++ ds) ++ rest), rest.
    split; [ | split; [ | split ] ].
    - cbn [app parse_int]. change (48 =? 48)%N with true. cbn iota.
      rewrite <- Hz, <- app_assoc. reflexivity.
    - cbn [parse_frac]. change (46 =? 46)%N with true. cbn iota.
      apply some_digits_chars; [ | | exact Hstop ].
      + destruct z; done.
      + apply Forall_app. split; [ apply all_digits_zeros | exact Hall ].
    - apply parse_exp_none. exact Hrest.
    - apply decimal_eq.
      + cbn [app]. rewrite value_cons, value_app, value_zeros. lia.
      + rewrite length_app, repeat_length. unfold k, z. lia. }
  (* the exponent form *)
  assert (n - 1 ≠ 0) as Hn1.
  { intros Heq. assert (n = 1) as Hone by (clear - Heq; lia). rewrite Hone in CB. discriminate CB. }
  unfold ds at 1. cbn [map].
  destruct ds' as [ | d' ds'' ].
  - exists [d], [], (n - 1),
      (101%N :: (if 0 <? n - 1 then 43%N else 45%N)
             :: map digit_char (digits (Z.to_N (Z.abs (n - 1)))) ++ rest),
      (101%N :: (if 0 <? n - 1 then 43%N else 45%N)
             :: map digit_char (digits (Z.to_N (Z.abs (n - 1)))) ++ rest).
    split; [ | split; [ | split ] ].
    + cbn [map app parse_int]. rewrite (digit_char_zero d Hlead).
      change (digit_char d :: ?r) with (map digit_char [d] ++ r).
      apply some_digits_chars; [ done | exact Hall | apply stops_cons; lia ].
    + reflexivity.
    + apply parse_exp_layout; assumption.
    + apply decimal_eq; [ reflexivity | unfold k, ds; cbn [length]; lia ].
  - set (tl := d' :: ds'') in *.
    exists [d], tl, (n - 1),
      (46%N :: map digit_char tl ++
        101%N :: (if 0 <? n - 1 then 43%N else 45%N)
             :: map digit_char (digits (Z.to_N (Z.abs (n - 1)))) ++ rest),
      (101%N :: (if 0 <? n - 1 then 43%N else 45%N)
             :: map digit_char (digits (Z.to_N (Z.abs (n - 1)))) ++ rest).
    split; [ | split; [ | split ] ].
    + unfold tl at 1. cbn [map app parse_int]. rewrite (digit_char_zero d Hlead).
      change (digit_char d :: ?r) with (map digit_char [d] ++ r).
      rewrite <- app_assoc.
      apply some_digits_chars; [ done | constructor; [ exact Hd | constructor ] | ].
      apply stops_cons. lia.
    + cbn [parse_frac]. change (46 =? 46)%N with true. cbn iota.
      apply some_digits_chars; [ done | exact Hall' | apply stops_cons; lia ].
    + apply parse_exp_layout; assumption.
    + apply decimal_eq; [ reflexivity | unfold k, ds; cbn [length]; lia ].
Qed.


(** The text of a number that is not an infinity is read as the nearest
    double to the decimal it shows. *)
Lemma parse_number_text (n : number) (rest : jstring) :
  (∀ s, n ≠ Infinite s) → ends_number rest →
  parse_number (number_text n ++ rest) = Some (reread_number n, rest).
Proof.
  intros Hfin Hrest. destruct n as [ s | s m e | s ]; [ | | destruct (Hfin s eq_refl) ].
  - cbn [number_text to_string str app]. change (N_of_ascii "0") with 48%N.
    unfold parse_number. change (48 =? 45)%N with false. cbn iota.
    cbn [parse_int]. change (48 =? 48)%N with true. cbn iota.
    rewrite (parse_frac_none rest Hrest), (parse_exp_none rest Hrest). reflexivity.
  - cbn [number_text to_string reread_number].
    pose proof (shortest_spec m e) as HS. destruct (shortest m e) as [ds t].
    destruct HS as (Hval & Hne & Hall & Hlead).
    set (n := Z.of_nat (length ds) + t).
    destruct (layout_parse ds n rest Hne Hall Hlead Hrest)
      as (int & frac & exp & s2 & s3 & Hint & Hfrac & Hexp & Hdec).
    assert (round s (decimal (int ++ frac) (exp - Z.of_nat (length frac)))
            = round s (magnitude m e)) as Hround.
    { rewrite (round_comp s _ _ Hdec). replace (n - Z.of_nat (length ds)) with t by (unfold n; lia).
      rewrite (round_sign s (decimal ds t)), Hval, <- round_sign. reflexivity. }
    destruct s; cbn [sign app].
    + unfold parse_number. change (45 =? 45)%N with true. cbn iota.
      rewrite Hint, Hfrac, Hexp, Hround. reflexivity.
    + unfold parse_number.
      destruct (layout ds n ++ rest) as [ | c r ] eqn:Htext; [ discriminate Hint | ].
      destruct (c =? 45)%N eqn:Hc.
      * apply N.eqb_eq in Hc. subst c. cbn in Hint. discriminate Hint.
      * rewrite Hint, Hfrac, Hexp, Hround. reflexivity.
Qed.

(** The text of a number begins with a minus sign or a digit, unless it is
    [null]. *)
Lemma number_text_head (n : number) (rest : jstring) :
  (∀ s, n ≠ Infinite s) →
  ∃ c r, number_text n ++ rest = c :: r ∧ (c = 45%N ∨ (48 ≤ c ∧ c ≤ 57)%N).
Proof.
  intros Hfin. destruct n as [ s | s m e | s ]; [ | | destruct (Hfin s eq_refl) ].
  - eexists _, _. split; [ reflexivity | right; cbn; lia ].
  - cbn [number_text to_string]. destruct s; [ eexists _, _; split; [ reflexivity | by left ] | ].
    cbn [sign app].
    pose proof (shortest_spec m e) as HS. destruct (shortest m e) as [ds t].
    destruct HS as (_ & Hne & Hall & Hlead).
    destruct ds as [ | d ds' ]; [ done | ]. pose proof (Forall_inv Hall) as Hd. cbn beta in Hd.
    unfold layout. cbn [map]. set (n := Z.of_nat (length (d :: ds')) + t).
    destruct ((Z.of_nat (length (d :: ds')) <=? n) && (n <=? 21));
      [ | destruct ((0 <? n) && (n <=? 21)) eqn:CB; [ | destruct ((-6 <? n) && (n <=? 0)) ] ].
    + eexists _, _. split; [ reflexivity | right; unfold digit_char; lia ].
    + apply andb_true_iff in CB. destruct CB as [CB _]. apply Z.ltb_lt in CB.
      destruct (Z.to_nat n) eqn:E; [ lia | ].
      eexists _, _. split; [ reflexivity | right; unfold digit_char; lia ].
    + eexists _, _. split; [ reflexivity | right; lia ].
    + eexists _, _. split; [ reflexivity | right; unfold digit_char; lia ].
Qed.


(** *** Strings *)

Lemma hex_value_digit (n : N) : (n < 16)%N → hex_value (hex_digit n) = Some n.
Proof.
  intros Hn. unfold hex_value, hex_digit. destruct (n <? 10)%N eqn:E.
  - apply N.ltb_lt in E.
    replace (48 <=? 48 + n)%N with true by (symmetry; apply N.leb_le; lia).
    replace (48 + n <=? 57)%N with true by (symmetry; apply N.leb_le; lia).
    cbn [andb]. f_equal. lia.
  - apply N.ltb_ge in E.
    replace (87 + n <=? 57)%N with false by (symmetry; apply N.leb_gt; lia).
    rewrite andb_false_r.
    replace (97 <=? 87 + n)%N with true by (symmetry; apply N.leb_le; lia).
    replace (87 + n <=? 102)%N with true by (symmetry; apply N.leb_le; lia).
    cbn [andb]. f_equal. lia.
Qed.

Lemma unicode_unit_escape (c : N) :
  (c < 65536)%N →
  unicode_unit (hex_digit (c / 4096 mod 16)) (hex_digit (c / 256 mod 16))
    (hex_digit (c / 16 mod 16)) (hex_digit (c mod 16)) = Some c.
Proof.
  intros Hc. unfold unicode_unit.
  rewrite !hex_value_digit by (apply N.mod_lt; lia). f_equal.
  pose proof (N.div_mod c 16 ltac:(lia)).
  pose proof (N.div_mod (c / 16) 16 ltac:(lia)).
  pose proof (N.div_mod (c / 256) 16 ltac:(lia)).
  pose proof (N.div_mod (c / 4096) 16 ltac:(lia)).
  assert (c / 256 = c / 16 / 16)%N as E1 by (rewrite N.Div0.div_div; reflexivity).
  assert (c / 4096 = c / 256 / 16)%N as E2 by (rewrite N.Div0.div_div; reflexivity).
  assert (c / 4096 / 16 = 0)%N as E3.
  { rewrite N.Div0.div_div. apply N.div_small. lia. }
  lia.
Qed.

Lemma parse_chars_unicode (c : N) (r : jstring) :
  (c < 65536)%N → parse_chars (unicode_escape c ++ r) = continued c (parse_chars r).
Proof.
  intros Hc. unfold unicode_escape. cbn [app parse_chars].
  change (92 =? 34)%N with false. change (92 =? 92)%N with true.
  change (117 =? 117)%N with true. cbn iota.
  rewrite (unicode_unit_escape c Hc). reflexivity.
Qed.

Lemma parse_chars_raw (c : N) (r : jstring) :
  c ≠ 34%N → c ≠ 92%N → (32 ≤ c)%N → parse_chars (c :: r) = continued c (parse_chars r).
Proof.
  intros H1 H2 H3. cbn [parse_chars].
  apply N.eqb_neq in H1, H2. rewrite H1, H2.
  replace (c <? 32)%N with false by (symmetry; apply N.ltb_ge; exact H3). reflexivity.
Qed.

Lemma parse_chars_escape_unit (c : N) (r : jstring) :
  parse_chars (escape_unit c ++ r) = continued c (parse_chars r).
Proof.
  unfold escape_unit.
  destruct (c =? 34)%N eqn:E1; [ apply N.eqb_eq in E1; subst c; reflexivity | ].
  destruct (c =? 92)%N eqn:E2; [ apply N.eqb_eq in E2; subst c; reflexivity | ].
  destruct (c =? 8)%N eqn:E3; [ apply N.eqb_eq in E3; subst c; reflexivity | ].
  destruct (c =? 12)%N eqn:E4; [ apply N.eqb_eq in E4; subst c; reflexivity | ].
  destruct (c =? 10)%N eqn:E5; [ apply N.eqb_eq in E5; subst c; reflexivity | ].
  destruct (c =? 13)%N eqn:E6; [ apply N.eqb_eq in E6; subst c; reflexivity | ].
  destruct (c =? 9)%N eqn:E7; [ apply N.eqb_eq in E7; subst c; reflexivity | ].
  destruct (c <? 32)%N eqn:E8.
  - apply N.ltb_lt in E8. apply parse_chars_unicode. lia.
  - apply N.ltb_ge in E8. apply N.eqb_neq in E1, E2. apply parse_chars_raw; assumption.
Qed.

Lemma surrogate_bounds (c : N) :
  is_high c = true ∨ is_low c = true → (55296 ≤ c ∧ c ≤ 57343)%N.
Proof.
  unfold is_high, is_low. rewrite !andb_true_iff, !N.leb_le. lia.
Qed.

(** A quoted string is read back, whatever follows it. *)
Lemma parse_chars_escape_after (after_high : bool) (s rest : jstring) :
  parse_chars (escape_after after_high s ++ 34%N :: rest) = Some (s, rest).
Proof.
  revert after_high. induction s as [ | c s IH ]; intros after_high; [ reflexivity | ].
  cbn [escape_after]. rewrite <- app_assoc.
  assert (∀ piece, parse_chars (piece ++ escape_after (is_high c) s ++ 34%N :: rest)
                   = continued c (parse_chars (escape_after (is_high c) s ++ 34%N :: rest)) →
                   parse_chars (piece ++ escape_after (is_high c) s ++ 34%N :: rest)
                   = Some (c :: s, rest)) as Hstep.
  { intros piece ->. rewrite IH. reflexivity. }
  apply Hstep.
  destruct (is_high c) eqn:Hh; [ | destruct (is_low c) eqn:Hl ].
  - pose proof (surrogate_bounds c (or_introl Hh)) as Hc.
    destruct (low_follows s); [ apply parse_chars_raw; lia | apply parse_chars_unicode; lia ].
  - pose proof (surrogate_bounds c (or_intror Hl)) as Hc.
    destruct after_high; [ apply parse_chars_raw; lia | apply parse_chars_unicode; lia ].
  - apply parse_chars_escape_unit.
Qed.

Lemma parse_chars_quote (s rest : jstring) :
  parse_chars (escape s ++ 34%N :: rest) = Some (s, rest).
Proof. apply parse_chars_escape_after. Qed.

Lemma quote_unfold (s rest : jstring) :
  quote s ++ rest = 34%N :: escape s ++ 34%N :: rest.
Proof. unfold quote. cbn [app]. rewrite <- app_assoc. reflexivity. Qed.

(** *** Values *)

Lemma stringify_array (xs : list value) : stringify (JArr xs) = 91%N :: stringify_elements xs.
Proof. reflexivity. Qed.

Lemma stringify_object (fs : list (jstring * value)) :
  stringify (JObj fs) = 123%N :: stringify_members fs.
Proof. reflexivity. Qed.

Lemma stringify_head (v : value) (rest : jstring) :
  ∃ c r, stringify v ++ rest = c :: r ∧ starts_value c.
Proof.
  unfold starts_value. destruct v as [ | [] | n | s | xs | fs ].
  - eexists _, _. split; [ reflexivity | tauto ].
  - eexists _, _. split; [ reflexivity | tauto ].
  - eexists _, _. split; [ reflexivity | tauto ].
  - destruct n as [ s | s m e | s ].
    + destruct (number_text_head (Zero s) rest ltac:(done)) as (c & r & H & Hc).
      exists c, r. split; [ exact H | tauto ].
    + destruct (number_text_head (Finite s m e) rest ltac:(done)) as (c & r & H & Hc).
      exists c, r. split; [ exact H | tauto ].
    + eexists _, _. split; [ reflexivity | tauto ].
  - cbn [stringify]. rewrite quote_unfold. eexists _, _. split; [ reflexivity | tauto ].
  - rewrite stringify_array. eexists _, _. split; [ reflexivity | tauto ].
  - rewrite stringify_object. eexists _, _. split; [ reflexivity | tauto ].
Qed.

Lemma starts_value_not_ws (c : N) : starts_value c → is_ws c = false.
Proof.
  unfold starts_value, is_ws. intros H.
  repeat (apply orb_false_iff; split); apply N.eqb_neq; lia.
Qed.

Lemma next_is_value (n : N) (v : value) (rest : jstring) :
  n = 93%N ∨ n = 125%N → next_is n (stringify v ++ rest) = None.
Proof.
  intros Hn. destruct (stringify_head v rest) as (c & r & -> & Hc).
  unfold next_is. cbn [skip_ws]. rewrite (starts_value_not_ws _ Hc).
  replace (c =? n)%N with false; [ reflexivity | ].
  symmetry. apply N.eqb_neq. unfold starts_value in Hc. lia.
Qed.

Lemma parse_value_numeric (fuel : nat) (c : N) (r : jstring) :
  c = 45%N ∨ (48 ≤ c ∧ c ≤ 57)%N →
  parse_value (S fuel) (c :: r) = parse_number (c :: r).
Proof.
  intros Hc. cbn [parse_value skip_ws].
  rewrite (starts_value_not_ws c) by (unfold starts_value; tauto).
  replace (c =? 110)%N with false by (symmetry; apply N.eqb_neq; lia).
  replace (c =? 116)%N with false by (symmetry; apply N.eqb_neq; lia).
  replace (c =? 102)%N with false by (symmetry; apply N.eqb_neq; lia).
  replace (c =? 34)%N with false by (symmetry; apply N.eqb_neq; lia).
  replace (c =? 91)%N with false by (symmetry; apply N.eqb_neq; lia).
  replace (c =? 123)%N with false by (symmetry; apply N.eqb_neq; lia).
  reflexivity.
Qed.

Lemma parse_value_quote (fuel : nat) (r : jstring) :
  parse_value (S fuel) (34%N :: r) =
  match parse_chars r with
  | Some (t, r') => Some (JStr t, r')
  | None => None
  end.
Proof. reflexivity. Qed.

Lemma parse_value_array (fuel : nat) (r : jstring) :
  parse_value (S fuel) (91%N :: r) =
  match next_is 93 r with
  | Some r' => Some (JArr [], r')
  | None =>
      match parse_elements fuel r with
      | Some (xs, r') => Some (JArr xs, r')
      | None => None
      end
  end.
Proof. reflexivity. Qed.

Lemma parse_value_object (fuel : nat) (r : jstring) :
  parse_value (S fuel) (123%N :: r) =
  match next_is 125 r with
  | Some r' => Some (JObj [], r')
  | None =>
      match parse_members fuel r with
      | Some (fs, r') => Some (JObj (object_of fs), r')
      | None => None
      end
  end.
Proof. reflexivity. Qed.

Lemma need_array (xs : list value) : need (JArr xs) = S (need_elements xs).
Proof. reflexivity. Qed.

Lemma need_object (fs : list (jstring * value)) : need (JObj fs) = S (need_members fs).
Proof. reflexivity. Qed.

Lemma ends_number_separator (c : N) (r : jstring) :
  c = 44%N ∨ c = 93%N ∨ c = 125%N → ends_number (c :: r).
Proof.
  intros [ -> | [ -> | -> ] ]; cbn; repeat split; (reflexivity || lia).
Qed.

Lemma parse_elements_stringify (xs : list value) :
  Forall reads_back xs → xs ≠ [] →
  ∀ fuel rest,
    (need_elements xs ≤ fuel)%nat →
    parse_elements fuel (stringify_elements xs ++ rest) = Some (map reread xs, rest).
Proof.
  induction 1 as [ | x xs Hx Hxs IH ]; [ done | ]. intros _ fuel rest Hfuel.
  cbn [need_elements] in Hfuel. destruct fuel as [ | fuel ]; [ lia | ].
  destruct xs as [ | y ys ].
  - cbn [stringify_elements parse_elements map]. rewrite <- app_assoc. cbn [app].
    rewrite Hx by (lia || apply ends_number_separator; tauto). reflexivity.
  - change (stringify_elements (x :: y :: ys))
      with (stringify x ++ 44%N :: stringify_elements (y :: ys)).
    rewrite <- app_assoc, <- app_comm_cons. cbn [parse_elements].
    rewrite Hx by (lia || apply ends_number_separator; tauto).
    change (next_is 44 (44%N :: ?r)) with (Some r). cbv iota beta.
    rewrite IH by (done || cbn [need_elements] in *; lia). reflexivity.
Qed.

Lemma parse_members_stringify (fs : list (jstring * value)) :
  Forall (λ f, reads_back f.2) fs → fs ≠ [] →
  ∀ fuel rest,
    (need_members fs ≤ fuel)%nat →
    parse_members fuel (stringify_members fs ++ rest)
    = Some (map (λ '(k, x), (k, reread x)) fs, rest).
Proof.
  induction 1 as [ | [k x] fs Hx Hfs IH ]; [ done | ]. intros _ fuel rest Hfuel.
  cbn [need_members] in Hfuel. cbn [snd] in Hx. destruct fuel as [ | fuel ]; [ lia | ].
  destruct fs as [ | [k' y] ys ].
  - cbn [stringify_members parse_members map].
    rewrite <- app_assoc, quote_unfold.
    change (next_is 34 (34%N :: ?r)) with (Some r). cbv iota beta.
    rewrite <- app_comm_cons, <- app_assoc. rewrite parse_chars_quote.
    change (next_is 58 (58%N :: ?r)) with (Some r). cbv iota beta.
    cbn [app]. rewrite Hx by (lia || apply ends_number_separator; tauto). reflexivity.
  - change (stringify_members ((k, x) :: (k', y) :: ys))
      with (quote k ++ 58%N :: stringify x ++ 44%N :: stringify_members ((k', y) :: ys)).
    cbn [parse_members map].
    rewrite <- app_assoc, quote_unfold.
    change (next_is 34 (34%N :: ?r)) with (Some r). cbv iota beta.
    rewrite <- app_comm_cons, <- app_assoc, <- app_comm_cons. rewrite parse_chars_quote.
    change (next_is 58 (58%N :: ?r)) with (Some r). cbv iota beta.
    rewrite Hx by (lia || apply ends_number_separator; tauto).
    change (next_is 44 (44%N :: ?r)) with (Some r). cbv iota beta.
    rewrite IH by (done || cbn [need_members] in *; lia). reflexivity.
Qed.

Lemma reread_array (xs : list value) : reread (JArr xs) = JArr (map reread xs).
Proof. reflexivity. Qed.

Lemma reread_object (fs : list (jstring * value)) :
  reread (JObj fs) = JObj (object_of (map (λ '(k, x), (k, reread x)) fs)).
Proof. reflexivity. Qed.

Lemma parse_value_stringify (v : value) : reads_back v.
Proof.
  induction v as [ | b | n | s | xs IH | fs IH ] using value_ind'; intros fuel rest Hfuel Hrest.
  - destruct fuel as [ | fuel ]; [ cbn in Hfuel; lia | reflexivity ].
  - destruct fuel as [ | fuel ]; [ cbn in Hfuel; lia | by destruct b ].
  - destruct fuel as [ | fuel ]; [ cbn in Hfuel; lia | ].
    destruct n as [ s | s m e | s ]; [ | | reflexivity ]; cbn [reread].
    + rewrite <- (parse_number_text (Zero s) rest) by done.
      cbn [stringify]. destruct (number_text_head (Zero s) rest ltac:(done)) as (c & r & -> & Hc).
      apply parse_value_numeric. exact Hc.
    + rewrite <- (parse_number_text (Finite s m e) rest) by done.
      cbn [stringify].
      destruct (number_text_head (Finite s m e) rest ltac:(done)) as (c & r & -> & Hc).
      apply parse_value_numeric. exact Hc.
  - destruct fuel as [ | fuel ]; [ cbn in Hfuel; lia | ].
    cbn [stringify reread]. rewrite quote_unfold, parse_value_quote, parse_chars_quote.
    reflexivity.
  - rewrite need_array in Hfuel. rewrite stringify_array, reread_array.
    destruct fuel as [ | fuel ]; [ lia | ].
    destruct xs as [ | x xs ]; [ reflexivity | ].
    rewrite <- app_comm_cons, parse_value_array.
    assert (next_is 93 (stringify_elements (x :: xs) ++ rest) = None) as ->.
    { destruct xs; cbn [stringify_elements]; rewrite <- app_assoc;
        apply next_is_value; by left. }
    rewrite parse_elements_stringify by (done || lia). reflexivity.
  - rewrite need_object in Hfuel. rewrite stringify_object, reread_object.
    destruct fuel as [ | fuel ]; [ lia | ].
    destruct fs as [ | [k x] fs ]; [ reflexivity | ].
    rewrite <- app_comm_cons, parse_value_object.
    assert (next_is 125 (stringify_members ((k, x) :: fs) ++ rest) = None) as ->.
    { destruct fs as [ | [] ]; cbn [stringify_members]; rewrite <- app_assoc, quote_unfold;
        reflexivity. }
    rewrite parse_members_stringify by (done || lia). reflexivity.
Qed.

Lemma length_quote (s : jstring) : (2 ≤ length (quote s))%nat.
Proof. unfold quote. cbn [length]. rewrite length_app. cbn [length]. lia. Qed.

Lemma length_number_text (n : number) : (1 ≤ length (number_text n))%nat.
Proof.
  destruct n as [ s | s m e | s ].
  - cbn. lia.
  - destruct (number_text_head (Finite s m e) [] ltac:(done)) as (c & r & H & _).
    rewrite app_nil_r in H. rewrite H. cbn [length]. lia.
  - cbn. lia.
Qed.

Lemma need_le_length (v : value) : (need v ≤ length (stringify v))%nat.
Proof.
  induction v as [ | b | n | s | xs IH | fs IH ] using value_ind'.
  - cbn. lia.
  - destruct b; cbn; lia.
  - apply length_number_text.
  - cbn [need stringify]. pose proof (length_quote s). lia.
  - rewrite need_array, stringify_array. cbn [length].
    enough (need_elements xs ≤ length (stringify_elements xs))%nat by lia.
    induction IH as [ | x xs Hx Hxs IHxs ]; [ cbn; lia | ].
    destruct xs as [ | y ys ].
    + cbn [need_elements stringify_elements]. rewrite length_app. cbn [length]. lia.
    + change (stringify_elements (x :: y :: ys))
        with (stringify x ++ 44%N :: stringify_elements (y :: ys)).
      rewrite length_app. cbn [length].
      change (need_elements (x :: y :: ys)) with (S (need x + need_elements (y :: ys))). lia.
  - rewrite need_object, stringify_object. cbn [length].
    enough (need_members fs ≤ length (stringify_members fs))%nat by lia.
    induction IH as [ | [k x] fs Hx Hfs IHfs ]; [ cbn; lia | ]. cbn [snd] in Hx.
    destruct fs as [ | [k' y] ys ].
    + cbn [need_members stringify_members]. rewrite !length_app. cbn [length].
      rewrite length_app. cbn [length]. lia.
    + change (stringify_members ((k, x) :: (k', y) :: ys))
        with (quote k ++ 58%N :: stringify x ++ 44%N :: stringify_members ((k', y) :: ys)).
      rewrite !length_app. cbn [length]. rewrite length_app. cbn [length].
      change (need_members ((k, x) :: (k', y) :: ys))
        with (S (need x + need_members ((k', y) :: ys))). lia.
Qed.

(** [JSON.parse(JSON.stringify(v))] is [v] as it is read back. *)
Lemma parse_stringify (v : value) : parse (stringify v) = Some (reread v).
Proof.
  unfold parse. pose proof (need_le_length v) as Hneed.
  rewrite <- (app_nil_r (stringify v)) at 2.
  rewrite parse_value_stringify by (done || lia). reflexivity.
Qed.

(** [JSON.stringify] never yields the empty text. *)
Lemma stringify_not_empty (v : value) : Str.is_empty (stringify v) = false.
Proof.
  destruct (stringify_head v []) as (c & r & H & _).
  rewrite app_nil_r in H. by rewrite H.
Qed.


(** *** Objects *)

Lemma eqb_true (a b : jstring) : Str.eqb a b = true ↔ a = b.
Proof. unfold Str.eqb. apply bool_decide_eq_true. Qed.

Lemma eqb_false (a b : jstring) : Str.eqb a b = false ↔ a ≠ b.
Proof. unfold Str.eqb. apply bool_decide_eq_false. Qed.

Lemma eqb_refl (a : jstring) : Str.eqb a a = true.
Proof. apply eqb_true. reflexivity. Qed.

Lemma before_asym (a b : jstring) :
  enumerated_before a b = true → enumerated_before b a = false.
Proof.
  unfold enumerated_before. destruct (array_index a), (array_index b); try done.
  intros H. apply N.ltb_lt in H. apply N.ltb_ge. lia.
Qed.

Lemma before_trans (a b c : jstring) :
  enumerated_before a b = true → enumerated_before b c = true → enumerated_before a c = true.
Proof.
  unfold enumerated_before. destruct (array_index a), (array_index b), (array_index c); try done.
  intros H1 H2. apply N.ltb_lt in H1, H2. apply N.ltb_lt. lia.
Qed.

Lemma enumerated_cons (k : jstring) (rest : list jstring) :
  enumerated (k :: rest) = true ↔ (∀ k', List.In k' rest → follows k k') ∧ enumerated rest = true.
Proof.
  cbn [enumerated]. rewrite andb_true_iff, forallb_forall. unfold follows.
  split; intros [H1 H2]; (split; [ | exact H2 ]); intros k' Hk'; specialize (H1 k' Hk').
  - apply andb_true_iff in H1. destruct H1 as [Ha Hb].
    apply negb_true_iff in Ha, Hb. apply eqb_false in Ha. tauto.
  - destruct H1 as [Ha Hb]. apply eqb_false in Ha. rewrite Ha, Hb. reflexivity.
Qed.

Lemma define_keys (k : jstring) (v : value) (fs : list (jstring * value)) (k' : jstring) :
  List.In k' (map fst (define k v fs)) → k' = k ∨ List.In k' (map fst fs).
Proof.
  induction fs as [ | [k1 v1] rest IH ]; cbn [define map fst List.In].
  - intuition congruence.
  - destruct (Str.eqb k1 k) eqn:E; [ | destruct (enumerated_before k k1) ];
      cbn [map fst List.In].
    + apply eqb_true in E. subst k1. intuition congruence.
    + intuition congruence.
    + intros [ H | H ]; [ tauto | ]. apply IH in H. tauto.
Qed.

Lemma define_values (P : value → Prop) (k : jstring) (v : value) (fs : list (jstring * value)) :
  P v → Forall (λ f, P f.2) fs → Forall (λ f, P f.2) (define k v fs).
Proof.
  intros Hv. induction 1 as [ | [k1 v1] rest H1 Hrest IH ]; cbn [define].
  - constructor; [ exact Hv | constructor ].
  - destruct (Str.eqb k1 k); [ | destruct (enumerated_before k k1) ].
    + constructor; assumption.
    + constructor; [ exact Hv | constructor; assumption ].
    + constructor; assumption.
Qed.

(** Defining a property keeps the enumeration order. *)
Lemma define_enumerated (k : jstring) (v : value) (fs : list (jstring * value)) :
  enumerated (map fst fs) = true → enumerated (map fst (define k v fs)) = true.
Proof.
  induction fs as [ | [k1 v1] rest IH ]; [ reflexivity | ].
  cbn [map fst]. intros H. apply enumerated_cons in H. destruct H as [Hk1 Hrest].
  cbn [define]. destruct (Str.eqb k1 k) eqn:E.
  - apply eqb_true in E. subst k1. cbn [map fst]. apply enumerated_cons. tauto.
  - apply eqb_false in E. destruct (enumerated_before k k1) eqn:B; cbn [map fst].
    + apply enumerated_cons. split; [ | apply enumerated_cons; tauto ].
      intros k' [ <- | Hk' ].
      * split; [ exact E | apply before_asym; exact B ].
      * destruct (Hk1 k' Hk') as [Hne Hbefore]. split.
        -- intros ->. congruence.
        -- destruct (enumerated_before k' k) eqn:B'; [ | reflexivity ].
           rewrite (before_trans k' k k1 B' B) in Hbefore. discriminate.
    + apply enumerated_cons. split; [ | apply IH; exact Hrest ].
      intros k' Hk'. apply define_keys in Hk'. destruct Hk' as [ -> | Hk' ].
      * split; [ congruence | exact B ].
      * apply Hk1. exact Hk'.
Qed.

Lemma object_of_snoc (fs : list (jstring * value)) (k : jstring) (v : value) :
  object_of (fs ++ [(k, v)]) = define k v (object_of fs).
Proof. unfold object_of. rewrite fold_left_app. reflexivity. Qed.

(** An object lists its properties in enumeration order. *)
Lemma object_of_enumerated (fs : list (jstring * value)) :
  enumerated (map fst (object_of fs)) = true.
Proof.
  induction fs as [ | [k v] fs IH ] using rev_ind; [ reflexivity | ].
  rewrite object_of_snoc. apply define_enumerated. exact IH.
Qed.

Lemma object_of_values (P : value → Prop) (fs : list (jstring * value)) :
  Forall (λ f, P f.2) fs → Forall (λ f, P f.2) (object_of fs).
Proof.
  induction fs as [ | [k v] fs IH ] using rev_ind; [ constructor | ].
  intros H. apply Forall_app in H. destruct H as [H1 H2].
  rewrite object_of_snoc. apply define_values; [ exact (Forall_inv H2) | apply IH; exact H1 ].
Qed.

(** A new property that follows all the others is added at the end. *)
Lemma define_last (k : jstring) (v : value) (fs : list (jstring * value)) :
  (∀ k', List.In k' (map fst fs) → follows k' k) → define k v fs = fs ++ [(k, v)].
Proof.
  induction fs as [ | [k1 v1] rest IH ]; [ reflexivity | ].
  intros H. cbn [define]. destruct (H k1 (or_introl eq_refl)) as [Hne Hb].
  assert (Str.eqb k1 k = false) as -> by (apply eqb_false; congruence).
  rewrite Hb. cbn [app]. f_equal. apply IH. intros k' Hk'. apply H. right. exact Hk'.
Qed.

Lemma enumerated_snoc (keys : list jstring) (k : jstring) :
  enumerated (keys ++ [k]) = true →
  enumerated keys = true ∧ ∀ k', List.In k' keys → follows k' k.
Proof.
  induction keys as [ | k1 keys IH ]; [ cbn; tauto | ].
  cbn [app]. intros H. apply enumerated_cons in H. destruct H as [H1 H2].
  destruct (IH H2) as [IH1 IH2]. split.
  - apply enumerated_cons. split; [ | exact IH1 ].
    intros k' Hk'. apply H1. apply in_or_app. tauto.
  - intros k' [ <- | Hk' ]; [ | apply IH2; exact Hk' ].
    apply H1. apply in_or_app. right. left. reflexivity.
Qed.

(** Members that are in enumeration order make the object that lists them
    as they are. *)
Lemma object_of_id (fs : list (jstring * value)) :
  enumerated (map fst fs) = true → object_of fs = fs.
Proof.
  induction fs as [ | [k v] fs IH ] using rev_ind; [ reflexivity | ].
  rewrite map_app. cbn [map fst]. intros H. apply enumerated_snoc in H. destruct H as [H1 H2].
  rewrite object_of_snoc, (IH H1). apply define_last. exact H2.
Qed.

Lemma map_fst_reread (fs : list (jstring * value)) :
  map fst (map (λ '(k, x), (k, reread x)) fs) = map fst fs.
Proof. induction fs as [ | [k x] fs IH ]; [ reflexivity | cbn; f_equal; exact IH ]. Qed.

(** *** Well-formed values *)

Lemma well_formed_array (xs : list value) :
  well_formed (JArr xs) = true ↔ Forall (λ x, well_formed x = true) xs.
Proof.
  cbn [well_formed]. rewrite forallb_forall, Forall_forall.
  split; intros H x Hx; apply H; apply list_elem_of_In; exact Hx.
Qed.


Ltac parsed H :=
  repeat match type of H with
         | match ?x with _ => _ end = Some _ => destruct x eqn:?; try discriminate H
         | (if ?b then _ else _) = Some _ => destruct b eqn:?; try discriminate H
         | (let '(_, _) := ?x in _) = Some _ => destruct x eqn:?
         end.

Lemma parse_number_well_formed (s : jstring) (v : value) (r : jstring) :
  parse_number s = Some (v, r) → well_formed v = true.
Proof.
  unfold parse_number. intros H.
  destruct (match s with [] => _ | c :: r0 => _ end) as [negative s1].
  parsed H. injection H as <- <-. apply round_is_double.
Qed.

(** Whatever [JSON.parse] reads is a value of JavaScript. *)
Lemma parse_value_well_formed (fuel : nat) :
  (∀ s v r, parse_value fuel s = Some (v, r) → well_formed v = true)
  ∧ (∀ s xs r, parse_elements fuel s = Some (xs, r) → Forall (λ x, well_formed x = true) xs)
  ∧ (∀ s fs r, parse_members fuel s = Some (fs, r) →
       Forall (λ f, well_formed f.2 = true) fs).
Proof.
  induction fuel as [ | fuel (IHv & IHe & IHm) ]; [ repeat split; discriminate | ].
  split; [ | split ].
  - intros s v r H. cbn [parse_value] in H.
    destruct (skip_ws s) as [ | c r0 ]; [ discriminate H | ].
    destruct (c =? 110)%N; [ unfold literal in H; parsed H; by injection H as <- <- | ].
    destruct (c =? 116)%N; [ unfold literal in H; parsed H; by injection H as <- <- | ].
    destruct (c =? 102)%N; [ unfold literal in H; parsed H; by injection H as <- <- | ].
    destruct (c =? 34)%N; [ parsed H; by injection H as <- <- | ].
    destruct (c =? 91)%N.
    { destruct (next_is 93 r0); [ by injection H as <- <- | ].
      destruct (parse_elements fuel r0) as [ [xs r'] | ] eqn:E; [ | discriminate H ].
      injection H as <- <-. apply well_formed_array. eapply IHe. exact E. }
    destruct (c =? 123)%N.
    { destruct (next_is 125 r0); [ by injection H as <- <- | ].
      destruct (parse_members fuel r0) as [ [fs r'] | ] eqn:E; [ | discriminate H ].
      injection H as <- <-. cbn [well_formed]. apply andb_true_iff. split.
      - apply object_of_enumerated.
      - apply forallb_forall. intros f Hf.
        pose proof (object_of_values (λ x, well_formed x = true) fs (IHm _ _ _ E)) as Hall.
        rewrite Forall_forall in Hall. apply Hall. apply list_elem_of_In. exact Hf. }
    eapply parse_number_well_formed. exact H.
  - intros s xs r H. cbn [parse_elements] in H.
    destruct (parse_value fuel s) as [ [x r0] | ] eqn:Ex; [ | discriminate H ].
    pose proof (IHv _ _ _ Ex) as Hx.
    destruct (next_is 44 r0) as [ r1 | ].
    + destruct (parse_elements fuel r1) as [ [ys r2] | ] eqn:Ey; [ | discriminate H ].
      injection H as <- <-. constructor; [ exact Hx | eapply IHe; exact Ey ].
    + destruct (next_is 93 r0); [ | discriminate H ].
      injection H as <- <-. constructor; [ exact Hx | constructor ].
  - intros s fs r H. cbn [parse_members] in H.
    destruct (next_is 34 s) as [ r0 | ]; [ | discriminate H ].
    destruct (parse_chars r0) as [ [k r1] | ]; [ | discriminate H ].
    destruct (next_is 58 r1) as [ r2 | ]; [ | discriminate H ].
    destruct (parse_value fuel r2) as [ [x r3] | ] eqn:Ex; [ | discriminate H ].
    pose proof (IHv _ _ _ Ex) as Hx.
    destruct (next_is 44 r3) as [ r4 | ].
    + destruct (parse_members fuel r4) as [ [gs r5] | ] eqn:Ey; [ | discriminate H ].
      injection H as <- <-. constructor; [ exact Hx | eapply IHm; exact Ey ].
    + destruct (next_is 125 r3); [ | discriminate H ].
      injection H as <- <-. constructor; [ exact Hx | constructor ].
Qed.

Lemma parse_well_formed (s : jstring) (v : value) : parse s = Some v → well_formed v = true.
Proof.
  unfold parse. intros H.
  destruct (parse_value _ s) as [ [v' r] | ] eqn:E; [ | discriminate H ].
  destruct (Str.is_empty _); [ | discriminate H ]. injection H as <-.
  eapply (proj1 (parse_value_well_formed _)). exact E.
Qed.

Lemma stringify_elements_ext (xs ys : list value) :
  Forall2 (λ x y, stringify x = stringify y) xs ys →
  stringify_elements xs = stringify_elements ys.
Proof.
  induction 1 as [ | x y xs ys Hxy Hrest IH ]; [ reflexivity | ].
  destruct Hrest as [ | x' y' xs' ys' Hxy' Hrest' ].
  - cbn [stringify_elements]. rewrite Hxy. reflexivity.
  - change (stringify x ++ 44%N :: stringify_elements (x' :: xs')
            = stringify y ++ 44%N :: stringify_elements (y' :: ys')).
    rewrite Hxy, IH. reflexivity.
Qed.

Lemma stringify_members_ext (fs gs : list (jstring * value)) :
  Forall2 (λ f g, f.1 = g.1 ∧ stringify f.2 = stringify g.2) fs gs →
  stringify_members fs = stringify_members gs.
Proof.
  induction 1 as [ | [k x] [k' y] fs gs [Hk Hxy] Hrest IH ]; [ reflexivity | ].
  cbn [fst snd] in Hk, Hxy. subst k'.
  destruct Hrest as [ | [k1 x1] [k2 y1] fs' gs' Hxy' Hrest' ].
  - cbn [stringify_members]. rewrite Hxy. reflexivity.
  - change (quote k ++ 58%N :: stringify x ++ 44%N :: stringify_members ((k1, x1) :: fs')
            = quote k ++ 58%N :: stringify y ++ 44%N :: stringify_members ((k2, y1) :: gs')).
    rewrite Hxy, IH. reflexivity.
Qed.

Lemma number_text_reread (n : number) :
  is_double n = true → stringify (reread_number n) = number_text n.
Proof.
  intros Hd. destruct n as [ s | s m e | s ]; [ reflexivity | | reflexivity ].
  cbn [reread_number]. rewrite (round_exact s m e Hd). reflexivity.
Qed.

(** The text of a value of JavaScript is the text of what it is read back
    as: writing again what was read writes the same text. *)
Lemma stringify_reread (v : value) :
  well_formed v = true → stringify (reread v) = stringify v.
Proof.
  induction v as [ | b | n | s | xs IH | fs IH ] using value_ind'; intros Hwf;
    try reflexivity.
  - apply number_text_reread. exact Hwf.
  - rewrite reread_array, !stringify_array. f_equal. apply stringify_elements_ext.
    apply well_formed_array in Hwf. clear - IH Hwf.
    induction IH as [ | x xs Hx Hxs IHxs ]; [ constructor | ].
    cbn [map]. constructor.
    + apply Hx. exact (Forall_inv Hwf).
    + apply IHxs. exact (Forall_inv_tail Hwf).
  - cbn [well_formed] in Hwf. apply andb_true_iff in Hwf. destruct Hwf as [Henum Hvals].
    rewrite reread_object, object_of_id by (rewrite map_fst_reread; exact Henum).
    rewrite !stringify_object. f_equal. apply stringify_members_ext.
    clear Henum. induction IH as [ | [k x] fs Hx Hfs IHfs ]; [ constructor | ].
    cbn [forallb] in Hvals. apply andb_true_iff in Hvals. destruct Hvals as [Hv1 Hv2].
    cbn [map]. constructor.
    + split; [ reflexivity | ]. apply Hx. exact Hv1.
    + apply IHfs. exact Hv2.
Qed.

Lemma exact_well_formed (v : value) : exact v = true → well_formed v = true.
Proof.
  induction v as [ | b | n | s | xs IH | fs IH ] using value_ind'; intros He; try reflexivity.
  - destruct n; [ reflexivity | exact He | discriminate He ].
  - cbn [exact well_formed] in *. rewrite forallb_forall in *. rewrite Forall_forall in IH.
    intros x Hx. apply IH; [ apply list_elem_of_In; exact Hx | apply He; exact Hx ].
  - cbn [exact well_formed] in *. apply andb_true_iff in He. destruct He as [He1 He2].
    rewrite He1. cbn [andb]. rewrite forallb_forall in *. rewrite Forall_forall in IH.
    intros f Hf. apply IH; [ apply list_elem_of_In; exact Hf | apply He2; exact Hf ].
Qed.

(** A value that JSON text holds exactly is read back as it is. *)
Lemma reread_exact (v : value) : exact v = true → reread v = v.
Proof.
  induction v as [ | b | n | s | xs IH | fs IH ] using value_ind'; intros He; try reflexivity.
  - destruct n as [ [] | s m e | s ]; try discriminate He; [ reflexivity | ].
    cbn [reread reread_number]. rewrite (round_exact s m e He). reflexivity.
  - rewrite reread_array. f_equal. cbn [exact] in He.
    induction IH as [ | x xs Hx Hxs IHxs ]; [ reflexivity | ].
    cbn [forallb] in He. apply andb_true_iff in He. destruct He as [H1 H2].
    cbn [map]. rewrite (Hx H1), (IHxs H2). reflexivity.
  - cbn [exact] in He. apply andb_true_iff in He. destruct He as [Henum Hvals].
    rewrite reread_object, object_of_id by (rewrite map_fst_reread; exact Henum). f_equal.
    clear Henum. induction IH as [ | [k x] fs Hx Hfs IHfs ]; [ reflexivity | ].
    cbn [forallb] in Hvals. apply andb_true_iff in Hvals. destruct Hvals as [H1 H2].
    cbn [map]. cbn [snd] in Hx, H1. rewrite (Hx H1), (IHfs H2). reflexivity.
Qed.

(** An exact value is read back from its text as it is. *)
Lemma parse_stringify_exact (v : value) : exact v = true → parse (stringify v) = Some v.
Proof. intros H. rewrite parse_stringify, (reread_exact v H). reflexivity. Qed.

(** Text that [JSON.parse] rejects, and text that it reads. *)
Example parse_rejects_garbage : parse (str "{oops") = None.
Proof. reflexivity. Qed.

Example parse_reads_fraction :
  parse (str "[1.5,1e2]")
  = Some (JArr [JNum (Finite false 6755399441055744 (-52));
                JNum (Finite false 7036874417766400 (-46))]).
Proof. vm_compute. reflexivity. Qed.
End JSONFacts.

(** ** The monad of the handlers *)

Section Runs.

Context {A B : Type}.

Lemma run_bind (m : M A) (f : A → M B) (kv : KV) :
  run (bind m f) kv =
  match run m kv with
  | (kv', Return a) => run (f a) kv'
  | (kv', Throw e) => (kv', Throw e)
  end.
Proof.
  revert kv. induction m as [ [ a | e ] | key k IH | key text k IH ]; intros kv; cbn [bind run].
  - reflexivity.
  - reflexivity.
  - apply IH.
  - apply IH.
Qed.

Lemma run_lift (x : outcome A) (kv : KV) : run (lift x) kv = (kv, x).
Proof. reflexivity. Qed.

Lemma bind_lift_return (a : A) (k : A → M B) : (x <- lift (Return a) ;; k x) = k a.
Proof. reflexivity. Qed.

Lemma bind_lift_throw (e : exn) (k : A → M B) : (x <- lift (Throw e) ;; k x) = throw e.
Proof. reflexivity. Qed.

End Runs.

(** A function that runs alone is one of the ways it can overlap with
    another: all its storage operations come first. *)
Lemma overlapped_sequential {A B : Type} (m : M A) (n : M B) (kv kv1 kv2 : KV)
    (a : outcome A) (b : outcome B) :
  run m kv = (kv1, a) → run n kv1 = (kv2, b) → overlapped kv m n kv2 a b.
Proof.
  revert kv. induction m as [ o | key k IH | key text k IH ]; intros kv Hm Hn.
  - cbn [run] in Hm. injection Hm as <- <-. clear - Hn. revert kv Hn.
    induction n as [ o' | key k IH | key text k IH ]; intros kv Hn.
    + cbn [run] in Hn. injection Hn as <- <-. constructor.
    + eapply overlapped_right; [ constructor | ]. apply IH. exact Hn.
    + eapply overlapped_right; [ constructor | ]. apply IH. exact Hn.
  - eapply overlapped_left; [ constructor | ]. apply IH; assumption.
  - eapply overlapped_left; [ constructor | ]. apply IH; assumption.
Qed.

(** ** The responses *)

Lemma json_answer (d : value) (st : Z) :
  st = 200 ∨ st = 201 ∨ st = 400 ∨ st = 404 ∨ st = 500 → json d st = Return (answer d st).
Proof. intros [ -> | [ -> | [ -> | [ -> | -> ] ] ] ]; reflexivity. Qed.

Lemma err_refusal (msg : jstring) (st : Z) :
  st = 400 ∨ st = 404 ∨ st = 500 → err msg st = Return (refusal msg st).
Proof. intros H. unfold err, refusal. apply json_answer. tauto. Qed.

(** ** The KV helpers *)

Section Helpers.

Implicit Types (kv : KV) (key name id : jstring) (v : value).

Lemma kvGet_read kv key : run (kvGet key) kv = (kv, Return (read kv key)).
Proof.
  unfold read, kvGet, kv_get. cbn [bind run ret].
  destruct (kv !! key) as [ t | ]; [ | reflexivity ].
  destruct (Str.is_empty t); [ reflexivity | ].
  destruct (JSON.parse t); reflexivity.
Qed.

Lemma read_lookup kv key :
  read kv key =
  match kv !! key with
  | Some t =>
      if Str.is_empty t then JNull
      else match JSON.parse t with Some j => j | None => JNull end
  | None => JNull
  end.
Proof.
  unfold read, kvGet, kv_get. cbn [bind run ret].
  destruct (kv !! key) as [ t | ]; [ | reflexivity ].
  destruct (Str.is_empty t); [ reflexivity | ].
  destruct (JSON.parse t); reflexivity.
Qed.

(** What is stored is read back as JSON text holds it. *)
Lemma read_insert kv key v : read (<[key := JSON.stringify v]> kv) key = JSON.reread v.
Proof.
  rewrite read_lookup, lookup_insert_eq.
  by rewrite JSONFacts.stringify_not_empty, JSONFacts.parse_stringify.
Qed.

Lemma read_insert_ne kv key key' (t : jstring) :
  key ≠ key' → read (<[key := t]> kv) key' = read kv key'.
Proof. intros Hne. by rewrite !read_lookup, lookup_insert_ne. Qed.

(** What is read is a value of JavaScript. *)
Lemma read_well_formed kv key : JSON.well_formed (read kv key) = true.
Proof.
  rewrite read_lookup. destruct (kv !! key) as [ t | ]; [ | reflexivity ].
  destruct (Str.is_empty t); [ reflexivity | ].
  destruct (JSON.parse t) as [ j | ] eqn:E; [ | reflexivity ].
  eapply JSONFacts.parse_well_formed. exact E.
Qed.

Lemma getIndex_value kv name : run (getIndex name) kv = (kv, Return (index_value kv name)).
Proof. unfold index_value, getIndex. rewrite run_bind, kvGet_read. reflexivity. Qed.

Lemma index_value_read kv name :
  index_value kv name = or_else (Some (read kv (str "index:" ++ name))) (JArr []).
Proof. unfold index_value, getIndex. rewrite run_bind, kvGet_read. reflexivity. Qed.

Lemma index_value_truthy kv name : truthy (index_value kv name) = true.
Proof.
  rewrite index_value_read. cbn [or_else].
  destruct (truthy (read kv (str "index:" ++ name))) eqn:E; [ exact E | reflexivity ].
Qed.

Lemma index_value_well_formed kv name : JSON.well_formed (index_value kv name) = true.
Proof.
  rewrite index_value_read. cbn [or_else].
  destruct (truthy _); [ apply read_well_formed | reflexivity ].
Qed.

Lemma index_value_insert kv name v :
  truthy (JSON.reread v) = true →
  index_value (<[str "index:" ++ name := JSON.stringify v]> kv) name = JSON.reread v.
Proof. intros Hv. rewrite index_value_read, read_insert. cbn [or_else]. by rewrite Hv. Qed.

Lemma index_value_insert_ne kv name key (t : jstring) :
  key ≠ str "index:" ++ name → index_value (<[key := t]> kv) name = index_value kv name.
Proof. intros Hne. by rewrite !index_value_read, read_insert_ne. Qed.

Lemma pushIndex_run kv name id :
  run (pushIndex name id) kv =
  match call_includes (index_value kv name) id with
  | Return found =>
      match (if negb found then call_push (index_value kv name) id
             else Return (index_value kv name)) with
      | Return idx => (<[str "index:" ++ name := JSON.stringify idx]> kv, Return tt)
      | Throw e => (kv, Throw e)
      end
  | Throw e => (kv, Throw e)
  end.
Proof.
  unfold pushIndex. rewrite run_bind, getIndex_value.
  destruct (call_includes (index_value kv name) id) as [ found | e ]; [ | reflexivity ].
  rewrite bind_lift_return.
  destruct found; cbn [negb]; [ reflexivity | ].
  destruct (call_push (index_value kv name) id); reflexivity.
Qed.

Lemma eqb_sym (a b : jstring) : Str.eqb a b = Str.eqb b a.
Proof.
  destruct (Str.eqb b a) eqn:E.
  - apply JSONFacts.eqb_true in E. apply JSONFacts.eqb_true. congruence.
  - apply JSONFacts.eqb_false in E. apply JSONFacts.eqb_false. congruence.
Qed.

(** An array includes the id it was just given. *)
Lemma includes_after_push (xs : list value) id :
  existsb (λ x, equals_string x id) (xs ++ [JStr id]) = true.
Proof.
  rewrite existsb_app. cbn. rewrite JSONFacts.eqb_refl. by rewrite orb_true_r.
Qed.

Lemma includes_strings (ids : list jstring) id :
  existsb (λ x, equals_string x id) (map JStr ids) = existsb (Str.eqb id) ids.
Proof.
  induction ids as [ | i ids IH ]; [ reflexivity | ].
  cbn. rewrite IH. by rewrite (eqb_sym i id).
Qed.

Lemma existsb_eqb_elem_of (ids : list jstring) id :
  existsb (Str.eqb id) ids = true ↔ id ∈ ids.
Proof.
  rewrite existsb_exists. split.
  - intros (x & Hx & Heq). apply JSONFacts.eqb_true in Heq as ->. by apply list_elem_of_In.
  - intros Hin. exists id. split; [ by apply list_elem_of_In | apply JSONFacts.eqb_refl ].
Qed.

Lemma pushed_fresh (ids : list jstring) id : id ∉ ids → pushed ids id = ids ++ [id].
Proof.
  intros Hnin. unfold pushed.
  destruct (existsb (Str.eqb id) ids) eqn:E; [ | reflexivity ].
  by apply existsb_eqb_elem_of in E.
Qed.

Lemma pushed_present (ids : list jstring) id : id ∈ ids → pushed ids id = ids.
Proof. intros Hin. unfold pushed. by apply existsb_eqb_elem_of in Hin as ->. Qed.

Lemma elem_of_pushed (ids : list jstring) id i : i ∈ pushed ids id ↔ i ∈ ids ∨ i = id.
Proof.
  unfold pushed. destruct (existsb (Str.eqb id) ids) eqn:E.
  - apply existsb_eqb_elem_of in E. split; [ by left | by intros [ | -> ] ].
  - rewrite elem_of_app, list_elem_of_singleton. done.
Qed.

Lemma NoDup_pushed (ids : list jstring) id : NoDup ids → NoDup (pushed ids id).
Proof.
  intros Hnd. unfold pushed. destruct (existsb (Str.eqb id) ids) eqn:E; [ done | ].
  apply NoDup_app. split; [ done | ]. split; [ | apply NoDup_singleton ].
  intros x Hx ->%list_elem_of_singleton.
  apply existsb_eqb_elem_of in Hx. congruence.
Qed.

(** A sequence of ids is read back as it is. *)
Lemma reread_ids (ids : list jstring) : JSON.reread (JArr (map JStr ids)) = JArr (map JStr ids).
Proof.
  rewrite JSONFacts.reread_array, map_map. f_equal.
Qed.

(** [pushIndex] on an index that is a sequence of ids. *)
Lemma pushIndex_holds kv name id (ids : list jstring) :
  index_holds kv name ids →
  run (pushIndex name id) kv =
  (<[str "index:" ++ name := JSON.stringify (JArr (map JStr (pushed ids id)))]> kv, Return tt).
Proof.
  unfold index_holds. intros Hidx. rewrite pushIndex_run, Hidx.
  cbn [call_includes call_push]. rewrite includes_strings. unfold pushed.
  destruct (existsb (Str.eqb id) ids); cbn [negb]; [ reflexivity | ].
  by rewrite map_app.
Qed.

Lemma index_holds_insert kv name (ids : list jstring) :
  index_holds (<[str "index:" ++ name := JSON.stringify (JArr (map JStr ids))]> kv) name ids.
Proof. unfold index_holds. rewrite index_value_insert; rewrite reread_ids; reflexivity. Qed.

Lemma index_holds_insert_ne kv name key (t : jstring) (ids : list jstring) :
  key ≠ str "index:" ++ name →
  index_holds (<[key := t]> kv) name ids ↔ index_holds kv name ids.
Proof. intros Hne. unfold index_holds. by rewrite index_value_insert_ne. Qed.

End Helpers.

(** ** The POST handlers *)

Section Posts.

Implicit Types (kv : KV) (env : Env) (body : value) (o : option value).

(** *** Field checks *)

Lemma filled_inj o (s s' : jstring) : filled o s → filled o s' → s = s'.
Proof. intros [-> _] [[= ->] _]. reflexivity. Qed.

Lemma filled_truthy o (s : jstring) : filled o s → truthy_opt o = true.
Proof. intros [-> H]. cbn. by destruct s. Qed.

Lemma blank_filled o (s : jstring) : filled o s → blank o = Return false.
Proof.
  intros [-> H]. cbn [blank call_trim truthy].
  destruct s as [ | c s ]; [ discriminate H | ]. cbn [Str.is_empty negb]. by rewrite H.
Qed.


(** The three ways [!x || !x.trim()] can go. *)
Lemma blank_cases o :
  (∃ s, filled o s ∧ blank o = Return false)
  ∨ (missing_or_blank o ∧ blank o = Return true)
  ∨ blank o = Throw TypeError.
Proof.
  destruct o as [ v | ]; [ | right; left; split; [ by left | reflexivity ] ].
  destruct (truthy v) eqn:Hv;
    [ | right; left; split; [ by left | cbn [blank]; by rewrite Hv ] ].
  destruct v as [ | b | n | s | xs | fs ]; try (right; right; cbn [blank]; by rewrite Hv).
  destruct (Str.is_empty (Str.trim s)) eqn:Hs.
  - right; left. split; [ right; by exists s | ]. cbn [blank call_trim]. by rewrite Hv, Hs.
  - left. exists s. split; [ done | ]. cbn [blank call_trim]. by rewrite Hv, Hs.
Qed.

Lemma trimmed_filled o (s : jstring) : filled o s → trimmed o = Return (Str.trim s).
Proof. by intros [-> _]. Qed.

Lemma trimmed_or_empty_object (fs : list (jstring * value)) (k : jstring) :
  trimmed_or_empty (JObj fs) k =
  match text_or_empty (prop (JObj fs) k) with
  | Some s => Return (Str.trim s)
  | None => Throw TypeError
  end.
Proof.
  unfold trimmed_or_empty, text_or_empty. cbn [get].
  by destruct (or_else (prop (JObj fs) k) (JStr [])).
Qed.

Lemma given_or_now_object env (fs : list (jstring * value)) (k : jstring) :
  given_or_now env (JObj fs) k = Return (or_else (prop (JObj fs) k) (JStr (now_iso env))).
Proof. reflexivity. Qed.

(** Only an object has properties to destructure. *)
Lemma prop_or_else_object body (k : jstring) (v : value) :
  prop (or_else (Some body) (JObj [])) k = Some v →
  ∃ fs, body = JObj fs.
Proof.
  cbn [or_else]. destruct (truthy body); [ | discriminate ].
  destruct body; try discriminate. eauto.
Qed.

Lemma prop_object body (k : jstring) (v : value) : prop body k = Some v → ∃ fs, body = JObj fs.
Proof. destruct body; try discriminate. eauto. Qed.

(** *** Create-Assignment *)

Lemma handleAssignmentsPost_valid env body (t p g c : jstring) :
  filled (prop body (str "title")) t →
  filled (prop body (str "prompt")) p →
  text_or_empty (prop body (str "gradeBand")) = Some g →
  text_or_empty (prop body (str "classPin")) = Some c →
  handleAssignmentsPost env body =
  commit (str "assignment:") (str "assignments") (uid env)
    (assignment_record (uid env) (Str.trim t) (Str.trim p) (Str.trim g) (Str.trim c)
       (or_else (prop body (str "createdAt")) (JStr (now_iso env)))).
Proof.
  intros Ht Hp Hg Hc.
  destruct (prop_object body (str "title") (JStr t) (proj1 Ht)) as [fs ->].
  unfold handleAssignmentsPost. cbn [or_else truthy].
  rewrite (blank_filled _ _ Ht), bind_lift_return.
  rewrite (blank_filled _ _ Hp), bind_lift_return.
  rewrite (trimmed_filled _ _ Ht), bind_lift_return.
  rewrite (trimmed_filled _ _ Hp), bind_lift_return.
  rewrite !trimmed_or_empty_object, Hg, Hc, !bind_lift_return.
  rewrite given_or_now_object, bind_lift_return.
  reflexivity.
Qed.

(** Every run of Create-Assignment either takes the valid path or leaves the
    namespace as it was, answering 400 if it answers at all. *)
Lemma handleAssignmentsPost_cases env body kv :
  (∃ t p g c,
      filled (prop body (str "title")) t ∧ filled (prop body (str "prompt")) p ∧
      text_or_empty (prop body (str "gradeBand")) = Some g ∧
      text_or_empty (prop body (str "classPin")) = Some c)
  ∨ (∃ out, run (handleAssignmentsPost env body) kv = (kv, out) ∧
             ∀ r, out = Return r → status r = 400).
Proof.
  set (b := or_else (Some body) (JObj [])).
  assert (Hrun : handleAssignmentsPost env body =
    (no_title <- lift (blank (prop b (str "title"))) ;;
     if no_title then lift (err (str "title is required") 400) else
     no_prompt <- lift (blank (prop b (str "prompt"))) ;;
     if no_prompt then lift (err (str "prompt is required") 400) else
     title' <- lift (trimmed (prop b (str "title"))) ;;
     prompt' <- lift (trimmed (prop b (str "prompt"))) ;;
     gradeBand <- lift (trimmed_or_empty body (str "gradeBand")) ;;
     classPin <- lift (trimmed_or_empty body (str "classPin")) ;;
     createdAt <- lift (given_or_now env body (str "createdAt")) ;;
     commit (str "assignment:") (str "assignments") (uid env)
       (assignment_record (uid env) title' prompt' gradeBand classPin createdAt)))
    by reflexivity.
  destruct (blank_cases (prop b (str "title"))) as [ (t & Ht & Et) | [ [_ Et] | Et ] ];
    rewrite Et in Hrun;
    [ | right; eexists; split; [ rewrite Hrun; reflexivity | by intros r [= <-] ]
      | right; eexists; split; [ rewrite Hrun; reflexivity | done ] ].
  rewrite bind_lift_return in Hrun.
  destruct (blank_cases (prop b (str "prompt"))) as [ (p & Hp & Ep) | [ [_ Ep] | Ep ] ];
    rewrite Ep in Hrun;
    [ | right; eexists; split; [ rewrite Hrun; reflexivity | by intros r [= <-] ]
      | right; eexists; split; [ rewrite Hrun; reflexivity | done ] ].
  rewrite bind_lift_return in Hrun.
  destruct (prop_or_else_object body (str "title") (JStr t) (proj1 Ht)) as [fs ->].
  change b with (JObj fs) in *. clear b.
  rewrite (trimmed_filled _ _ Ht), bind_lift_return in Hrun.
  rewrite (trimmed_filled _ _ Hp), bind_lift_return in Hrun.
  rewrite !trimmed_or_empty_object in Hrun.
  destruct (text_or_empty (prop (JObj fs) (str "gradeBand"))) as [ g | ] eqn:Hg;
    [ | right; eexists; split; [ rewrite Hrun; reflexivity | done ] ].
  rewrite bind_lift_return in Hrun.
  destruct (text_or_empty (prop (JObj fs) (str "classPin"))) as [ c | ] eqn:Hc;
    [ | right; eexists; split; [ rewrite Hrun; reflexivity | done ] ].
  left. by exists t, p, g, c.
Qed.

(** *** Create-Submission *)

(** The handler after its destructuring, as one chain of steps. *)
Lemma handleSubmissionsPost_run env body kv :
  run (handleSubmissionsPost env body) kv =
  let b := or_else (Some body) (JObj []) in
  match prop b (str "assignmentId") with
  | None => (kv, Return (refusal (str "assignmentId is required") 400))
  | Some a =>
      if negb (truthy a) then (kv, Return (refusal (str "assignmentId is required") 400)) else
      run
      (no_name <- lift (blank (prop b (str "studentName"))) ;;
       if no_name then lift (err (str "studentName is required") 400) else
       no_response <- lift (blank (prop b (str "response"))) ;;
       if no_response then lift (err (str "response is required") 400) else
       key <- lift (template a) ;;
       asgn <- lift (Return (read kv (str "assignment:" ++ key))) ;;
       if negb (truthy asgn) then lift (err (str "assignment not found") 404) else
       studentName' <- lift (trimmed (prop b (str "studentName"))) ;;
       classPin <- lift (trimmed_or_empty body (str "classPin")) ;;
       response' <- lift (trimmed (prop b (str "response"))) ;;
       steps <- lift (trimmed_or_empty body (str "steps")) ;;
       reflection <- lift (trimmed_or_empty body (str "reflection")) ;;
       submittedAt <- lift (given_or_now env body (str "submittedAt")) ;;
       commit (str "submission:") (str "submissions") (uid env)
         (submission_record (uid env) a studentName' classPin response' steps reflection
            submittedAt)) kv
  end.
Proof.
  unfold handleSubmissionsPost. cbv zeta.
  destruct (prop (or_else (Some body) (JObj [])) (str "assignmentId")) as [ a | ];
    [ | reflexivity ].
  destruct (negb (truthy a)); [ reflexivity | ].
  destruct (blank (prop (or_else (Some body) (JObj [])) (str "studentName"))) as [ [] | ];
    try reflexivity.
  rewrite !bind_lift_return.
  destruct (blank (prop (or_else (Some body) (JObj [])) (str "response"))) as [ [] | ];
    try reflexivity.
  rewrite !bind_lift_return.
  destruct (template a) as [ key | ]; [ | reflexivity ].
  rewrite !bind_lift_return. rewrite run_bind, kvGet_read. reflexivity.
Qed.

Lemma handleSubmissionsPost_valid env body kv (a : value) (key n r c s f : jstring) :
  prop body (str "assignmentId") = Some a → truthy a = true →
  filled (prop body (str "studentName")) n →
  filled (prop body (str "response")) r →
  template a = Return key →
  truthy (read kv (str "assignment:" ++ key)) = true →
  text_or_empty (prop body (str "classPin")) = Some c →
  text_or_empty (prop body (str "steps")) = Some s →
  text_or_empty (prop body (str "reflection")) = Some f →
  run (handleSubmissionsPost env body) kv =
  run (commit (str "submission:") (str "submissions") (uid env)
    (submission_record (uid env) a (Str.trim n) (Str.trim c) (Str.trim r) (Str.trim s)
       (Str.trim f) (or_else (prop body (str "submittedAt")) (JStr (now_iso env))))) kv.
Proof.
  intros Ha Hta Hn Hr Hkey Hfound Hc Hs Hf.
  destruct (prop_object body _ _ Ha) as [fs ->].
  rewrite handleSubmissionsPost_run. cbn [or_else truthy]. cbv zeta.
  rewrite Ha, Hta. cbn [negb].
  rewrite (blank_filled _ _ Hn), bind_lift_return.
  rewrite (blank_filled _ _ Hr), bind_lift_return.
  rewrite Hkey, !bind_lift_return, Hfound. cbn [negb].
  rewrite (trimmed_filled _ _ Hn), bind_lift_return.
  rewrite !trimmed_or_empty_object, Hc, bind_lift_return.
  rewrite (trimmed_filled _ _ Hr), bind_lift_return.
  rewrite Hs, Hf, !bind_lift_return.
  rewrite given_or_now_object, bind_lift_return.
  reflexivity.
Qed.

(** The referential check: a reference that resolves to nothing truthy. *)
Lemma handleSubmissionsPost_not_found env body kv (a : value) (key n r : jstring) :
  prop body (str "assignmentId") = Some a → truthy a = true →
  filled (prop body (str "studentName")) n →
  filled (prop body (str "response")) r →
  template a = Return key →
  truthy (read kv (str "assignment:" ++ key)) = false →
  run (handleSubmissionsPost env body) kv
  = (kv, Return (refusal (str "assignment not found") 404)).
Proof.
  intros Ha Hta Hn Hr Hkey Hfound.
  destruct (prop_object body _ _ Ha) as [fs ->].
  rewrite handleSubmissionsPost_run. cbn [or_else truthy]. cbv zeta.
  rewrite Ha, Hta. cbn [negb].
  rewrite (blank_filled _ _ Hn), bind_lift_return.
  rewrite (blank_filled _ _ Hr), bind_lift_return.
  rewrite Hkey, !bind_lift_return, Hfound. reflexivity.
Qed.

(** Every run of Create-Submission either takes the valid path or leaves the
    namespace as it was, answering 400 or 404 if it answers at all. *)
Lemma handleSubmissionsPost_cases env body kv :
  (∃ a key n r c s f,
      prop body (str "assignmentId") = Some a ∧ truthy a = true ∧
      filled (prop body (str "studentName")) n ∧ filled (prop body (str "response")) r ∧
      template a = Return key ∧ truthy (read kv (str "assignment:" ++ key)) = true ∧
      text_or_empty (prop body (str "classPin")) = Some c ∧
      text_or_empty (prop body (str "steps")) = Some s ∧
      text_or_empty (prop body (str "reflection")) = Some f)
  ∨ (∃ out, run (handleSubmissionsPost env body) kv = (kv, out) ∧
             ∀ resp, out = Return resp → status resp = 400 ∨ status resp = 404).
Proof.
  pose proof (handleSubmissionsPost_run env body kv) as Hrun. cbv zeta in Hrun.
  set (b := or_else (Some body) (JObj [])) in *.
  destruct (prop b (str "assignmentId")) as [ a | ] eqn:Ha;
    [ | right; eexists; split; [ exact Hrun | intros ? [= <-]; by left ] ].
  destruct (truthy a) eqn:Hta; cbn [negb] in Hrun;
    [ | right; eexists; split; [ exact Hrun | intros ? [= <-]; by left ] ].
  destruct (blank_cases (prop b (str "studentName"))) as [ (n & Hn & En) | [ [_ En] | En ] ];
    rewrite En in Hrun;
    [ | right; eexists; split; [ exact Hrun | intros ? [= <-]; by left ]
      | right; eexists; split; [ exact Hrun | done ] ].
  rewrite bind_lift_return in Hrun.
  destruct (blank_cases (prop b (str "response"))) as [ (r & Hr & Er) | [ [_ Er] | Er ] ];
    rewrite Er in Hrun;
    [ | right; eexists; split; [ exact Hrun | intros ? [= <-]; by left ]
      | right; eexists; split; [ exact Hrun | done ] ].
  rewrite bind_lift_return in Hrun.
  destruct (prop_or_else_object body _ _ Ha) as [fs ->].
  change b with (JObj fs) in *. clear b.
  destruct (template a) as [ key | ] eqn:Hkey;
    [ | right; eexists; split; [ exact Hrun | done ] ].
  rewrite !bind_lift_return in Hrun.
  destruct (truthy (read kv (str "assignment:" ++ key))) eqn:Hfound; cbn [negb] in Hrun;
    [ | right; eexists; split; [ exact Hrun | intros ? [= <-]; by right ] ].
  rewrite (trimmed_filled _ _ Hn), bind_lift_return in Hrun.
  rewrite !trimmed_or_empty_object in Hrun.
  destruct (text_or_empty (prop (JObj fs) (str "classPin"))) as [ c | ] eqn:Hc;
    [ | right; eexists; split; [ exact Hrun | done ] ].
  rewrite bind_lift_return in Hrun.
  rewrite (trimmed_filled _ _ Hr), bind_lift_return in Hrun.
  destruct (text_or_empty (prop (JObj fs) (str "steps"))) as [ s | ] eqn:Hs;
    [ | right; eexists; split; [ exact Hrun | done ] ].
  rewrite bind_lift_return in Hrun.
  destruct (text_or_empty (prop (JObj fs) (str "reflection"))) as [ f | ] eqn:Hf;
    [ | right; eexists; split; [ exact Hrun | done ] ].
  left. by exists a, key, n, r, c, s, f.
Qed.

End Posts.

(** ** Keys and the shared tail of the POST handlers *)

Section Commit.

Implicit Types (kv : KV) (env : Env) (body record : value).

Lemma assignment_key_not_index (id name : jstring) :
  str "assignment:" ++ id ≠ str "index:" ++ name.
Proof. discriminate. Qed.

Lemma submission_key_not_index (id name : jstring) :
  str "submission:" ++ id ≠ str "index:" ++ name.
Proof. discriminate. Qed.

Lemma assignment_key_not_submission (id id' : jstring) :
  str "assignment:" ++ id ≠ str "submission:" ++ id'.
Proof. discriminate. Qed.

Lemma index_key_inj (name name' : jstring) :
  str "index:" ++ name = str "index:" ++ name' → name = name'.
Proof. apply app_inv_head. Qed.

Lemma commit_run (prefix name id : jstring) record kv :
  run (commit prefix name id record) kv =
  match run (pushIndex name id) (<[prefix ++ id := JSON.stringify record]> kv) with
  | (kv', Return _) => (kv', Return (created id record))
  | (kv', Throw e) => (kv', Throw e)
  end.
Proof.
  unfold commit, kvPut, kv_put. cbn [bind run ret]. rewrite run_bind.
  destruct (run (pushIndex name id) _) as [? []]; reflexivity.
Qed.

(** A commit that returns wrote the record and then an index value. *)
Lemma commit_returns (prefix name id : jstring) record kv kv' (resp : Response) :
  run (commit prefix name id record) kv = (kv', Return resp) →
  resp = created id record ∧
  ∃ idx, kv' = <[str "index:" ++ name := JSON.stringify idx]>
                 (<[prefix ++ id := JSON.stringify record]> kv).
Proof.
  rewrite commit_run, pushIndex_run.
  destruct (call_includes _ id) as [ found | ]; [ | discriminate ].
  destruct (if negb found then _ else _) as [ idx | ]; [ | discriminate ].
  intros [= <- <-]. eauto.
Qed.

(** Whatever its outcome, a commit touches no key but its two. *)
Lemma commit_frame (prefix name id : jstring) record kv kv' (out : outcome Response) :
  run (commit prefix name id record) kv = (kv', out) →
  ∀ k, k ≠ prefix ++ id → k ≠ str "index:" ++ name → kv' !! k = kv !! k.
Proof.
  rewrite commit_run, pushIndex_run. intros Hrun k Hk1 Hk2.
  destruct (call_includes _ id) as [ found | ];
    [ | injection Hrun as <- _; by rewrite lookup_insert_ne ].
  destruct (if negb found then _ else _) as [ idx | ];
    injection Hrun as <- _; by rewrite ?lookup_insert_ne.
Qed.

(** A commit on an index that is a sequence of ids. *)
Lemma commit_holds (prefix name id : jstring) record kv (ids : list jstring) :
  prefix ++ id ≠ str "index:" ++ name →
  index_holds kv name ids →
  run (commit prefix name id record) kv =
  (<[str "index:" ++ name := JSON.stringify (JArr (map JStr (pushed ids id)))]>
     (<[prefix ++ id := JSON.stringify record]> kv),
   Return (created id record)).
Proof.
  intros Hne Hidx. rewrite commit_run.
  rewrite (pushIndex_holds _ name id ids); [ reflexivity | ].
  by apply index_holds_insert_ne.
Qed.

(** Two responses that are the same carry data that is read back the same. *)
Lemma answer_inj (d d' : value) (st st' : Z) :
  answer d st = answer d' st' → JSON.reread d = JSON.reread d' ∧ st = st'.
Proof.
  intros [= Hst Hbody]. split; [ | done ].
  apply (f_equal JSON.parse) in Hbody. rewrite !JSONFacts.parse_stringify in Hbody.
  by injection Hbody.
Qed.

(** The records of two responses to the same id that are the same have the
    same text. *)
Lemma created_text (id : jstring) record record' :
  created id record = created id record' → JSON.stringify record = JSON.stringify record'.
Proof.
  intros H. apply (f_equal body) in H. unfold created, answer in H. cbn [body] in H.
  rewrite !JSONFacts.stringify_object in H. injection H as H.
  cbn [JSON.stringify_members] in H.
  repeat (apply app_inv_head in H; injection H as H).
  apply app_inv_tail in H. exact H.
Qed.

End Commit.

(** ** The GET handlers *)

Section Gets.

Implicit Types (kv : KV) (env : Env) (body record : value).

Lemma fetch_strings (prefix : jstring) (ids : list jstring) kv :
  run (mapM (λ id, key <- lift (template id) ;; kvGet (prefix ++ key)) (map JStr ids)) kv =
  (kv, Return (map (λ id, read kv (prefix ++ id)) ids)).
Proof.
  induction ids as [ | i ids IH ]; [ reflexivity | ].
  cbn [map mapM]. rewrite run_bind. cbn [template to_string]. rewrite bind_lift_return.
  rewrite kvGet_read, run_bind, IH. reflexivity.
Qed.

(** Reading never changes the namespace, also when a read throws. *)
Lemma fetch_keeps (prefix : jstring) (xs : list value) kv :
  (run (mapM (λ id, key <- lift (template id) ;; kvGet (prefix ++ key)) xs) kv).1 = kv.
Proof.
  induction xs as [ | x xs IH ]; [ reflexivity | ].
  cbn [mapM]. rewrite run_bind.
  destruct (template x) as [ key | ]; [ | reflexivity ].
  rewrite bind_lift_return, kvGet_read, run_bind.
  destruct (run (mapM _ xs) kv) as [kv' [ ys | e ]]; exact IH.
Qed.

Lemma handleAssignmentsGet_holds kv (ids : list jstring) :
  index_holds kv (str "assignments") ids →
  run handleAssignmentsGet kv =
  (kv, Return (listing (rev (List.filter truthy (records kv Assignment ids))))).
Proof.
  intros Hidx. unfold handleAssignmentsGet. rewrite run_bind, getIndex_value, Hidx.
  rewrite run_bind, fetch_strings. reflexivity.
Qed.

Lemma handleAssignmentsGet_keeps kv : (run handleAssignmentsGet kv).1 = kv.
Proof.
  unfold handleAssignmentsGet. rewrite run_bind, getIndex_value.
  destruct (index_value kv (str "assignments")) as [ | | | | xs | ]; try reflexivity.
  rewrite run_bind. pose proof (fetch_keeps (str "assignment:") xs kv) as H.
  by destruct (run (mapM _ xs) kv) as [kv' [ ys | e ]].
Qed.

Lemma handleSubmissionsGet_holds (url : URL) kv (ids : list jstring) :
  index_holds kv (str "submissions") ids →
  run (handleSubmissionsGet url) kv =
  (kv, Return (listing (rev
     (if negb (Str.is_empty (filter_of url))
      then List.filter (assigned_to (filter_of url))
             (List.filter truthy (records kv Submission ids))
      else List.filter truthy (records kv Submission ids))))).
Proof.
  intros Hidx. unfold handleSubmissionsGet. cbv zeta. fold (filter_of url).
  rewrite run_bind, getIndex_value, Hidx.
  rewrite run_bind, fetch_strings. reflexivity.
Qed.

Lemma handleSubmissionsGet_keeps (url : URL) kv : (run (handleSubmissionsGet url) kv).1 = kv.
Proof.
  unfold handleSubmissionsGet. cbv zeta. rewrite run_bind, getIndex_value.
  destruct (index_value kv (str "submissions")) as [ | | | | xs | ]; try reflexivity.
  rewrite run_bind. pose proof (fetch_keeps (str "submission:") xs kv) as H.
  by destruct (run (mapM _ xs) kv) as [kv' [ ys | e ]].
Qed.

End Gets.

(** ** Both record types at once *)

Section Kinds.

Implicit Types (k : kind) (kv : KV) (env : Env) (body record : value).

Lemma record_key_not_index k (id name : jstring) :
  record_prefix k ++ id ≠ str "index:" ++ name.
Proof. destruct k; discriminate. Qed.

Lemma record_key_inj k k' (id id' : jstring) :
  record_prefix k ++ id = record_prefix k' ++ id' → k = k' ∧ id = id'.
Proof.
  destruct k, k'; try discriminate; intros H; by apply app_inv_head in H.
Qed.

Lemma index_name_inj k k' :
  str "index:" ++ index_name k = str "index:" ++ index_name k' → k = k'.
Proof. destruct k, k'; (discriminate || reflexivity). Qed.

(** The properties of a record that lists them in enumeration order, as
    they are read back. *)
Lemma reread_record (fs : list (jstring * value)) :
  JSON.enumerated (map fst fs) = true →
  JSON.reread (JObj fs) = JObj (map (λ '(k, x), (k, JSON.reread x)) fs).
Proof.
  intros H. rewrite JSONFacts.reread_object, JSONFacts.object_of_id; [ reflexivity | ].
  rewrite JSONFacts.map_fst_reread. exact H.
Qed.

Lemma lookup_prop_reread (key : jstring) (fs : list (jstring * value)) :
  lookup_prop key (map (λ '(k, x), (k, JSON.reread x)) fs)
  = option_map JSON.reread (lookup_prop key fs).
Proof.
  induction fs as [ | [k x] fs IH ]; [ reflexivity | ].
  cbn [map lookup_prop]. destruct (Str.eqb k key); [ reflexivity | exact IH ].
Qed.

(** A POST either reaches its commit with a record that carries the new id and
    the timestamp [body.field || now], or leaves the namespace as it was and
    does not answer 201. *)
Lemma post_commits k env body kv :
  (∃ fs,
      run (post k env body) kv =
        run (commit (record_prefix k) (index_name k) (uid env) (JObj fs)) kv ∧
      JSON.enumerated (map fst fs) = true ∧
      lookup_prop (str "id") fs = Some (JStr (uid env)) ∧
      lookup_prop (timestamp_field k) fs =
        Some (or_else (prop body (timestamp_field k)) (JStr (now_iso env))) ∧
      (k = Submission →
       lookup_prop (str "assignmentId") fs = prop body (str "assignmentId")))
  ∨ (∃ out, run (post k env body) kv = (kv, out) ∧ ∀ r, out = Return r → status r ≠ 201).
Proof.
  destruct k; cbn [post record_prefix index_name timestamp_field].
  - destruct (handleAssignmentsPost_cases env body kv)
      as [ (t & p & g & c & Ht & Hp & Hg & Hc) | (out & Hrun & Hout) ].
    + left. eexists.
      split; [ by rewrite (handleAssignmentsPost_valid _ _ t p g c) | ].
      done.
    + right. exists out. split; [ done | ]. intros r Hr. rewrite (Hout r Hr). done.
  - destruct (handleSubmissionsPost_cases env body kv)
      as [ (a & key & n & r & c & s & f & Ha & Hta & Hn & Hr & Hkey & Hfound & Hc & Hs & Hf)
         | (out & Hrun & Hout) ].
    + left. eexists.
      split; [ by apply (handleSubmissionsPost_valid _ _ _ a key n r c s f) | ].
      split; [ done | ]. split; [ done | ]. split; [ done | ]. intros _. by rewrite Ha.
    + right. exists out. split; [ done | ]. intros r Hr. by destruct (Hout r Hr) as [-> | ->].
Qed.

(** What a POST that answered 201 has done. *)
Lemma post_created k env body kv kv' (resp : Response) :
  run (post k env body) kv = (kv', Return resp) → status resp = 201 →
  ∃ fs idx,
    resp = created (uid env) (JObj fs) ∧
    kv' = <[str "index:" ++ index_name k := JSON.stringify idx]>
            (<[record_prefix k ++ uid env := JSON.stringify (JObj fs)]> kv) ∧
    JSON.enumerated (map fst fs) = true ∧
    lookup_prop (str "id") fs = Some (JStr (uid env)) ∧
    lookup_prop (timestamp_field k) fs =
      Some (or_else (prop body (timestamp_field k)) (JStr (now_iso env))) ∧
    (k = Submission → lookup_prop (str "assignmentId") fs = prop body (str "assignmentId")).
Proof.
  intros Hrun Hst.
  destruct (post_commits k env body kv)
    as [ (fs & Hc & Hen & Hid & Hts & Ha) | (out & Hout & Hno) ].
  - rewrite Hc in Hrun. apply commit_returns in Hrun as (-> & idx & ->).
    by exists fs, idx.
  - rewrite Hout in Hrun. injection Hrun as <- ->. by destruct (Hno resp).
Qed.

(** The same on an index that is a sequence of ids. *)
Lemma post_created_holds k env body kv kv' (resp : Response) (ids : list jstring) :
  index_holds kv (index_name k) ids →
  run (post k env body) kv = (kv', Return resp) → status resp = 201 →
  ∃ fs,
    resp = created (uid env) (JObj fs) ∧
    kv' = <[str "index:" ++ index_name k :=
              JSON.stringify (JArr (map JStr (pushed ids (uid env))))]>
            (<[record_prefix k ++ uid env := JSON.stringify (JObj fs)]> kv) ∧
    JSON.enumerated (map fst fs) = true ∧
    lookup_prop (str "id") fs = Some (JStr (uid env)).
Proof.
  intros Hidx Hrun Hst.
  destruct (post_commits k env body kv)
    as [ (fs & Hc & Hen & Hid & Hts & Ha) | (out & Hout & Hno) ].
  - rewrite Hc, (commit_holds _ _ _ _ _ ids) in Hrun
      by (done || apply record_key_not_index).
    injection Hrun as <- <-. by exists fs.
  - rewrite Hout in Hrun. injection Hrun as <- ->. by destruct (Hno resp).
Qed.

(** Reads after a commit's two writes. *)
Lemma read_committed_new k kv (id : jstring) (t : jstring) record :
  read (<[str "index:" ++ index_name k := t]>
          (<[record_prefix k ++ id := JSON.stringify record]> kv))
       (record_prefix k ++ id) = JSON.reread record.
Proof.
  rewrite read_insert_ne by (apply not_eq_sym, record_key_not_index).
  apply read_insert.
Qed.

Lemma read_committed_old k k' kv (id id' : jstring) (t t' : jstring) :
  (k, id) ≠ (k', id') →
  read (<[str "index:" ++ index_name k := t]> (<[record_prefix k ++ id := t']> kv))
       (record_prefix k' ++ id') = read kv (record_prefix k' ++ id').
Proof.
  intros Hne.
  rewrite read_insert_ne by (apply not_eq_sym, record_key_not_index).
  apply read_insert_ne. intros [-> ->]%record_key_inj. done.
Qed.

Lemma index_holds_committed k kv (id : jstring) (t : jstring) (ids : list jstring) :
  index_holds (<[str "index:" ++ index_name k := JSON.stringify (JArr (map JStr ids))]>
                 (<[record_prefix k ++ id := t]> kv)) (index_name k) ids.
Proof. apply index_holds_insert. Qed.

Lemma index_holds_committed_other k k' kv (id : jstring) (t t' : jstring)
    (ids : list jstring) :
  k ≠ k' →
  index_holds (<[str "index:" ++ index_name k := t]> (<[record_prefix k ++ id := t']> kv))
              (index_name k') ids ↔ index_holds kv (index_name k') ids.
Proof.
  intros Hne.
  rewrite index_holds_insert_ne by (intros ->%index_name_inj; done).
  apply index_holds_insert_ne, record_key_not_index.
Qed.

End Kinds.

(** ** Soundness of the reachable namespaces *)

Section Reachable.

Implicit Types (k : kind) (kv : KV) (env : Env) (body record : value).

Lemma kind_eq_dec k k' : {k = k'} + {k ≠ k'}.
Proof. decide equality. Qed.

Lemma store_sound_empty : store_sound ∅.
Proof.
  intros k. exists []. split; [ reflexivity | ]. split; [ constructor | ].
  intros id Hin. by apply elem_of_nil in Hin.
Qed.

(** A stored record that carries an id is read back with that id. *)
Lemma reread_carries_id (fs : list (jstring * value)) (id : jstring) :
  JSON.enumerated (map fst fs) = true →
  lookup_prop (str "id") fs = Some (JStr id) →
  prop (JSON.reread (JObj fs)) (str "id") = Some (JStr id).
Proof.
  intros Hen Hid. rewrite (reread_record fs Hen). cbn [prop].
  rewrite lookup_prop_reread, Hid. reflexivity.
Qed.

Lemma store_sound_post k env body kv :
  store_sound kv → store_sound (run (post k env body) kv).1.
Proof.
  intros Hkv.
  destruct (post_commits k env body kv) as [ (fs & Hc & Hen & Hid & _) | (out & -> & _) ];
    [ | exact Hkv ].
  destruct (Hkv k) as (ids & Hidx & Hnd & Hrec).
  rewrite Hc, (commit_holds _ _ _ _ _ ids) by (done || apply record_key_not_index).
  cbn [fst]. intros k'. destruct (kind_eq_dec k' k) as [ -> | Hne ].
  - exists (pushed ids (uid env)).
    split; [ apply index_holds_committed | ]. split; [ by apply NoDup_pushed | ].
    intros i Hi. destruct (decide (i = uid env)) as [ -> | Hi' ].
    + rewrite read_committed_new. by apply reread_carries_id.
    + rewrite read_committed_old by congruence.
      apply Hrec. apply elem_of_pushed in Hi as [ Hi | Hi ]; done.
  - destruct (Hkv k') as (ids' & Hidx' & Hnd' & Hrec'). exists ids'.
    split; [ by apply index_holds_committed_other | ]. split; [ done | ].
    intros i Hi. rewrite read_committed_old by congruence. by apply Hrec'.
Qed.

Lemma store_sound_after (r : request) kv : store_sound kv → store_sound (after r kv).
Proof.
  intros Hkv. destruct r as [ | env body | url | env body ]; unfold after; cbn [handle].
  - by rewrite handleAssignmentsGet_keeps.
  - by apply (store_sound_post Assignment).
  - by rewrite handleSubmissionsGet_keeps.
  - by apply (store_sound_post Submission).
Qed.

Lemma reachable_sound kv : reachable kv → store_sound kv.
Proof.
  induction 1 as [ | kv r _ IH ]; [ apply store_sound_empty | by apply store_sound_after ].
Qed.

(** Records that carry their own ids are as distinct as the ids. *)
Lemma records_NoDup k kv (ids : list jstring) :
  NoDup ids →
  (∀ id, id ∈ ids → prop (read kv (record_prefix k ++ id)) (str "id") = Some (JStr id)) →
  NoDup (records kv k ids).
Proof.
  intros Hnd Hrec. unfold records.
  change (NoDup ((λ id, read kv (record_prefix k ++ id)) <$> ids)).
  apply NoDup_fmap_2_strong; [ | done ].
  intros i j Hi Hj Heq. apply Hrec in Hi, Hj. cbv beta in Heq.
  rewrite Heq, Hj in Hi. by injection Hi.
Qed.

Lemma listed_NoDup {A : Type} (f g : A → bool) (xs : list A) :
  NoDup xs → NoDup (rev (List.filter f xs)) ∧ NoDup (rev (List.filter g (List.filter f xs))).
Proof.
  rewrite !NoDup_ListNoDup. intros Hnd. split.
  - apply NoDup_rev, List.NoDup_filter, Hnd.
  - apply NoDup_rev, List.NoDup_filter, List.NoDup_filter, Hnd.
Qed.

(** *** One successful POST on an index that is a sequence of ids *)

Lemma post_step k env body kv kv' record (ids : list jstring) :
  index_holds kv (index_name k) ids →
  run (post k env body) kv = (kv', Return (created (uid env) record)) →
  truthy (JSON.reread record) = true ∧
  index_holds kv' (index_name k) (pushed ids (uid env)) ∧
  read kv' (record_prefix k ++ uid env) = JSON.reread record ∧
  ∀ i, i ≠ uid env → read kv' (record_prefix k ++ i) = read kv (record_prefix k ++ i).
Proof.
  intros Hidx Hrun.
  destruct (post_created_holds k env body kv kv' _ ids Hidx Hrun eq_refl)
    as (fs & Htext%created_text & -> & Hen & _).
  assert (JSON.reread record = JSON.reread (JObj fs)) as Hsame.
  { pose proof (JSONFacts.parse_stringify record) as H1.
    rewrite Htext, JSONFacts.parse_stringify in H1. by injection H1. }
  split; [ rewrite Hsame; reflexivity | ]. split; [ apply index_holds_committed | ].
  split; [ rewrite Hsame; apply read_committed_new | ].
  intros i Hi. apply read_committed_old. congruence.
Qed.

Lemma records_app k kv (ids ids' : list jstring) :
  records kv k (ids ++ ids') = records kv k ids ++ records kv k ids'.
Proof. apply map_app. Qed.

Lemma records_ext k kv kv' (ids : list jstring) :
  (∀ i, i ∈ ids → read kv' (record_prefix k ++ i) = read kv (record_prefix k ++ i)) →
  records kv' k ids = records kv k ids.
Proof.
  intros Hsame. apply map_ext_in. intros i Hi. apply Hsame. by apply list_elem_of_In.
Qed.

Lemma elem_of_listed (f : value → bool) (x : value) (xs : list value) :
  x ∈ rev (List.filter f xs) ↔ x ∈ xs ∧ f x = true.
Proof. by rewrite list_elem_of_In, <- in_rev, filter_In, <- list_elem_of_In. Qed.

Lemma elem_of_records k kv (ids : list jstring) (x : value) :
  x ∈ records kv k ids ↔ ∃ id, id ∈ ids ∧ read kv (record_prefix k ++ id) = x.
Proof.
  unfold records. rewrite list_elem_of_In, in_map_iff.
  split; intros (id & H1 & H2); exists id; by rewrite ?list_elem_of_In in *.
Qed.

End Reachable.

(** * The claims *)

Section Claims.

Implicit Types (k : kind) (kv : KV) (env : Env) (body record : value).


(** The item a client reads from a 201 response is the record as it is read
    from its text. *)
Lemma created_item (id : jstring) record :
  ∃ d, payload (created id record) = Some d ∧
       prop d (str "item") = Some (JSON.reread record).
Proof.
  eexists. split; [ apply JSONFacts.parse_stringify | ].
  rewrite reread_record by reflexivity. reflexivity.
Qed.

(** C1, as stated, fails: a body whose title and prompt are filled but whose
    gradeBand is the number 5 makes the handler throw at [.trim()]; there is
    no response, hence no 201, and nothing is stored. *)
Lemma create_assignment_numeric_gradeBand_throws :
  filled (prop body_numeric_band (str "title")) (str "Fractions") ∧
  filled (prop body_numeric_band (str "prompt")) (str "Explain 1/2+1/3") ∧
  run (handleAssignmentsPost env_a body_numeric_band) ∅ = (∅, Throw TypeError) ∧
  ¬ ∃ kv' resp,
      run (handleAssignmentsPost env_a body_numeric_band) ∅ = (kv', Return resp)
      ∧ status resp = 201.
Proof.
  split; [ by split | ]. split; [ by split | ]. split; [ reflexivity | ].
  intros (kv' & resp & Hrun & _). discriminate Hrun.
Qed.

(** C1, amended. For every request body whose title and prompt are strings
    that are non-empty after trimming and whose gradeBand and classPin are
    each absent, falsy or a string, on a namespace whose assignments index is
    a sequence of ids, Create-Assignment answers 201 with {ok:true, id, item},
    where item is the record stored under [assignment:{id}]: the text stored
    is the text of the record, and the item a client reads from the response
    is what the store's get reads under that key (the record itself when its
    createdAt is a value that JSON text holds exactly, as every string is).
    Afterwards the index lists the id (appended at its end, unless the index
    listed it already), and List-Assignments includes the stored record in
    its items. *)
Theorem create_assignment_persists_and_lists
    env body kv (t p g c : jstring) (ids : list jstring) :
  filled (prop body (str "title")) t →
  filled (prop body (str "prompt")) p →
  text_or_empty (prop body (str "gradeBand")) = Some g →
  text_or_empty (prop body (str "classPin")) = Some c →
  index_holds kv (str "assignments") ids →
  let id := uid env in
  let createdAt := or_else (prop body (str "createdAt")) (JStr (now_iso env)) in
  let record :=
    assignment_record id (Str.trim t) (Str.trim p) (Str.trim g) (Str.trim c) createdAt in
  ∃ kv',
    run (handleAssignmentsPost env body) kv = (kv', Return (created id record)) ∧
    status (created id record) = 201 ∧
    kv' !! (str "assignment:" ++ id) = Some (JSON.stringify record) ∧
    (∃ d, payload (created id record) = Some d ∧
          prop d (str "item") = Some (read kv' (str "assignment:" ++ id))) ∧
    (JSON.exact createdAt = true → read kv' (str "assignment:" ++ id) = record) ∧
    index_holds kv' (str "assignments") (pushed ids id) ∧
    id ∈ pushed ids id ∧
    (id ∉ ids → pushed ids id = ids ++ [id]) ∧
    ∃ items, run handleAssignmentsGet kv' = (kv', Return (listing items)) ∧
             read kv' (str "assignment:" ++ id) ∈ items.
Proof.
  intros Ht Hp Hg Hc Hidx id createdAt record.
  pose proof (handleAssignmentsPost_valid env body t p g c Ht Hp Hg Hc) as Hrun.
  fold id in Hrun. fold createdAt in Hrun. fold record in Hrun.
  apply (f_equal (λ m, run m kv)) in Hrun. cbv beta in Hrun.
  rewrite (commit_holds (str "assignment:") (str "assignments") id record kv ids) in Hrun
    by (done || apply assignment_key_not_index).
  assert (∀ t', read (<[str "index:" ++ str "assignments" := t']>
                        (<[str "assignment:" ++ id := JSON.stringify record]> kv))
                     (str "assignment:" ++ id) = JSON.reread record) as Hread
    by (intros t'; apply (read_committed_new Assignment)).
  eexists. split; [ exact Hrun | ]. split; [ reflexivity | ].
  split; [ rewrite lookup_insert_ne by discriminate; apply lookup_insert_eq | ].
  split; [ rewrite Hread; apply created_item | ].
  split.
  { intros Hexact. rewrite Hread. apply JSONFacts.reread_exact.
    unfold record, assignment_record. cbn [JSON.exact forallb snd]. rewrite Hexact.
    reflexivity. }
  split; [ apply (index_holds_committed Assignment) | ].
  split; [ apply elem_of_pushed; by right | ].
  split; [ apply pushed_fresh | ].
  eexists. split.
  - apply handleAssignmentsGet_holds, (index_holds_committed Assignment).
  - apply elem_of_listed. split.
    + apply elem_of_records. exists id. split; [ apply elem_of_pushed; by right | ].
      reflexivity.
    + rewrite Hread. unfold record, assignment_record.
      rewrite reread_record by reflexivity. reflexivity.
Qed.

Lemma create_assignment_persists_and_lists_witness :
  ∃ kv',
    run (handleAssignmentsPost env_b body_ratios)
        (after (POST_assignments env_a body_fractions) ∅)
    = (kv', Return (created (str "lx2fghij")
                      (assignment_record (str "lx2fghij") (str "Ratios") (str "Simplify 6:4")
                         (str "6-8") [] (JStr (str "2024-01-02T09:00:00.000Z"))))) ∧
    index_holds kv' (str "assignments") [str "lx1abcde"; str "lx2fghij"].
Proof.
  destruct (create_assignment_persists_and_lists env_b body_ratios
              (after (POST_assignments env_a body_fractions) ∅)
              (str "Ratios") (str "Simplify 6:4") (str " 6-8 ") [] [str "lx1abcde"])
    as (kv' & Hrun & _ & _ & _ & _ & Hidx & _);
    [ by split | by split | reflexivity | reflexivity | reflexivity | ].
  exists kv'. split; [ exact Hrun | exact Hidx ].
Defined.


(** What text keeps of an index that includes [id] still includes it. *)
Lemma includes_reread (idx : value) (id : jstring) :
  call_includes idx id = Return true →
  call_includes (JSON.reread idx) id = Return true
  ∧ truthy (JSON.reread idx) = truthy idx.
Proof.
  destruct idx as [ | | | s | xs | ]; try discriminate; cbn [call_includes JSON.reread].
  - done.
  - intros [= H]. split; [ | reflexivity ]. f_equal.
    apply existsb_exists in H as (x & Hx & Heq). apply existsb_exists.
    destruct x; try discriminate Heq. exists (JStr s). split; [ | exact Heq ].
    apply in_map_iff. exists (JStr s). by split.
Qed.

(** C2. Index append is idempotent and duplicate-free. For every namespace,
    index and id, pushing the id twice in a row does what pushing it once
    does; an id the index does not include yet is placed at its end; and in
    every namespace the worker can reach from the empty one, request after
    request, both indexes are sequences of ids without repetition, and both
    listings answer with a sequence of records without repetition. *)
Theorem pushIndex_idempotent_and_duplicate_free kv (name id : jstring) :
  run (pushIndex name id ;;; pushIndex name id) kv = run (pushIndex name id) kv
  ∧ (∀ xs, index_value kv name = JArr xs →
       existsb (λ x, equals_string x id) xs = false →
       ∃ kv', run (pushIndex name id) kv = (kv', Return tt) ∧
              index_value kv' name = JArr (map JSON.reread xs ++ [JStr id]) ∧
              (JSON.exact (JArr xs) = true → index_value kv' name = JArr (xs ++ [JStr id])))
  ∧ (reachable kv →
       (∀ k, ∃ ids, index_holds kv (index_name k) ids ∧ NoDup ids) ∧
       (∃ items, run handleAssignmentsGet kv = (kv, Return (listing items)) ∧ NoDup items) ∧
       (∀ url, ∃ items, run (handleSubmissionsGet url) kv = (kv, Return (listing items)) ∧
                        NoDup items)).
Proof.
  split; [ | split ].
  - rewrite run_bind, (pushIndex_run kv).
    pose proof (index_value_truthy kv name) as Htruthy.
    pose proof (index_value_well_formed kv name) as Hwf.
    destruct (call_includes (index_value kv name) id) as [ found | e ] eqn:Hinc;
      [ | reflexivity ].
    destruct found; cbn [negb].
    + destruct (includes_reread _ _ Hinc) as [Hinc' Ht'].
      rewrite pushIndex_run, index_value_insert, Hinc' by congruence. cbn [negb].
      by rewrite JSONFacts.stringify_reread, insert_insert_eq.
    + destruct (index_value kv name) as [ | | | | xs | ]; try reflexivity.
      cbn [call_push]. rewrite pushIndex_run, index_value_insert by done.
      cbn [JSON.reread call_includes]. rewrite map_app. cbn [map JSON.reread].
      rewrite includes_after_push. cbn [negb].
      change (JArr (map JSON.reread xs ++ [JStr id]))
        with (JArr (map JSON.reread xs ++ map JSON.reread [JStr id])).
      rewrite <- map_app.
      change (JArr (map JSON.reread (xs ++ [JStr id])))
        with (JSON.reread (JArr (xs ++ [JStr id]))).
      rewrite JSONFacts.stringify_reread, insert_insert_eq; [ reflexivity | ].
      cbn [JSON.well_formed] in Hwf |- *. rewrite forallb_app, Hwf. reflexivity.
  - intros xs Hidx Hfresh. rewrite pushIndex_run, Hidx. cbn [call_includes].
    rewrite Hfresh. cbn [negb call_push]. eexists. split; [ reflexivity | ].
    rewrite index_value_insert by done. cbn [JSON.reread]. rewrite map_app.
    split; [ reflexivity | ]. intros Hexact.
    pose proof (JSONFacts.reread_exact (JArr xs) Hexact) as Hsame.
    cbn [JSON.reread] in Hsame. injection Hsame as ->. reflexivity.
  - intros Hreach. pose proof (reachable_sound kv Hreach) as Hsound.
    split; [ | split ].
    + intros k. destruct (Hsound k) as (ids & Hidx & Hnd & _). by exists ids.
    + destruct (Hsound Assignment) as (ids & Hidx & Hnd & Hrec).
      eexists. split; [ by apply handleAssignmentsGet_holds | ].
      apply (listed_NoDup truthy truthy), records_NoDup; done.
    + intros url. destruct (Hsound Submission) as (ids & Hidx & Hnd & Hrec).
      eexists. split; [ by apply handleSubmissionsGet_holds | ].
      pose proof (records_NoDup Submission kv ids Hnd Hrec) as Hrecs.
      destruct (negb (Str.is_empty (filter_of url)));
        by apply (listed_NoDup truthy (assigned_to (filter_of url))).
Qed.

Lemma pushIndex_idempotent_and_duplicate_free_witness :
  run (pushIndex (str "assignments") (str "lx1abcde") ;;;
       pushIndex (str "assignments") (str "lx1abcde"))
      (after (POST_assignments env_a body_fractions) ∅)
  = run (pushIndex (str "assignments") (str "lx1abcde"))
      (after (POST_assignments env_a body_fractions) ∅)
  ∧ ∃ items,
      run handleAssignmentsGet (after (POST_assignments env_a body_fractions) ∅)
      = (after (POST_assignments env_a body_fractions) ∅, Return (listing items))
      ∧ NoDup items.
Proof.
  destruct (pushIndex_idempotent_and_duplicate_free
              (after (POST_assignments env_a body_fractions) ∅)
              (str "assignments") (str "lx1abcde"))
    as (Hidem & _ & Hreach).
  split; [ exact Hidem | ].
  exact (proj1 (proj2 (Hreach (reachable_request ∅ _ reachable_empty)))).
Defined.

(** C3. List-Assignments answers with the records the assignments index
    names, newest first: the records are fetched in index order, those that
    do not resolve to a truthy value are dropped, and the sequence is
    reversed. In particular, three assignments A, B, C created in this order
    under ids that are pairwise distinct and not yet listed come first in the
    next listing, as C, B, A, before what was listed already; each is listed
    as the store reads it from its text, which is the record itself when JSON
    text holds it exactly. On an empty index the listing is exactly
    [C, B, A]. *)
Theorem list_assignments_newest_first kv (ids : list jstring) :
  index_holds kv (str "assignments") ids →
  run handleAssignmentsGet kv =
    (kv, Return (listing (rev (List.filter truthy (records kv Assignment ids)))))
  ∧ ∀ e1 b1 e2 b2 e3 b3 kv1 kv2 kv3 A B C,
      run (handleAssignmentsPost e1 b1) kv = (kv1, Return (created (uid e1) A)) →
      run (handleAssignmentsPost e2 b2) kv1 = (kv2, Return (created (uid e2) B)) →
      run (handleAssignmentsPost e3 b3) kv2 = (kv3, Return (created (uid e3) C)) →
      uid e1 ∉ ids → uid e2 ∉ ids → uid e3 ∉ ids →
      uid e1 ≠ uid e2 → uid e1 ≠ uid e3 → uid e2 ≠ uid e3 →
      run handleAssignmentsGet kv3 =
        (kv3, Return (listing (JSON.reread C :: JSON.reread B :: JSON.reread A ::
                                 rev (List.filter truthy (records kv Assignment ids)))))
      ∧ (JSON.exact A = true → JSON.exact B = true → JSON.exact C = true →
         run handleAssignmentsGet kv3 =
           (kv3, Return (listing (C :: B :: A ::
                                    rev (List.filter truthy (records kv Assignment ids)))))).
Proof.
  intros Hidx. split; [ by apply handleAssignmentsGet_holds | ].
  intros e1 b1 e2 b2 e3 b3 kv1 kv2 kv3 A B C H1 H2 H3 F1 F2 F3 N12 N13 N23.
  destruct (post_step Assignment e1 b1 kv kv1 A ids Hidx H1) as (HA & Hidx1 & R1 & O1).
  rewrite pushed_fresh in Hidx1 by done.
  destruct (post_step Assignment e2 b2 kv1 kv2 B _ Hidx1 H2) as (HB & Hidx2 & R2 & O2).
  rewrite pushed_fresh in Hidx2
    by (rewrite elem_of_app, list_elem_of_singleton; intros [ | ]; done).
  destruct (post_step Assignment e3 b3 kv2 kv3 C _ Hidx2 H3) as (HC & Hidx3 & R3 & O3).
  rewrite pushed_fresh in Hidx3
    by (rewrite !elem_of_app, !list_elem_of_singleton; intros [ [ | ] | ]; done).
  assert (run handleAssignmentsGet kv3 =
        (kv3, Return (listing (JSON.reread C :: JSON.reread B :: JSON.reread A ::
                                 rev (List.filter truthy (records kv Assignment ids))))))
    as Hlist.
  { rewrite (handleAssignmentsGet_holds kv3 _ Hidx3). do 3 f_equal.
    rewrite <- !app_assoc, records_app. cbn [app records map].
    rewrite R3, (O3 (uid e2)), R2, (O3 (uid e1)), (O2 (uid e1)), R1 by done.
    rewrite (records_ext Assignment kv kv3).
    - rewrite List.filter_app, rev_app_distr. cbn [List.filter].
      rewrite HA, HB, HC. reflexivity.
    - intros i Hi. rewrite O3, O2, O1 by (intros ->; done). reflexivity. }
  split; [ exact Hlist | ].
  intros EA EB EC. rewrite Hlist.
  by rewrite !JSONFacts.reread_exact.
Qed.

Lemma list_assignments_newest_first_witness :
  run handleAssignmentsGet
    (after (POST_assignments env_c body_ratios)
       (after (POST_assignments env_b body_timed)
          (after (POST_assignments env_a body_fractions) ∅)))
  = (after (POST_assignments env_c body_ratios)
       (after (POST_assignments env_b body_timed)
          (after (POST_assignments env_a body_fractions) ∅)),
     Return (listing
       [ assignment_record (str "lx3klmno") (str "Ratios") (str "Simplify 6:4") (str "6-8") []
           (JStr (str "2024-01-03T09:00:00.000Z"));
         assignment_record (str "lx2fghij") (str "Decimals") (str "Order 0.5, 0.25, 0.75") []
           [] (JNum one_and_a_half);
         assignment_record (str "lx1abcde") (str "Fractions") (str "Explain 1/2+1/3") [] []
           (JStr (str "2024-01-01T09:00:00.000Z")) ])).
Proof.
  refine (proj2 (proj2 (list_assignments_newest_first ∅ [] _)
            env_a body_fractions env_b body_timed env_c body_ratios
            (after (POST_assignments env_a body_fractions) ∅)
            (after (POST_assignments env_b body_timed)
               (after (POST_assignments env_a body_fractions) ∅))
            _ _ _ _ _ _ _ _ _ _ _ _ _) _ _ _);
    try reflexivity; try discriminate; apply not_elem_of_nil.
Defined.


(** C4, as stated, fails: an assignmentId that is an object with a toString
    property of its own is truthy, so with a filled studentName and response
    the request passes the field checks, and on the empty namespace it
    resolves to no assignment; but the handler throws while building the key,
    so there is no response, hence no 404. *)
Lemma create_submission_unspliceable_id_throws :
  (∃ a, prop submission_odd (str "assignmentId") = Some a ∧ truthy a = true) ∧
  filled (prop submission_odd (str "studentName")) (str "Ana") ∧
  filled (prop submission_odd (str "response")) (str "5/6") ∧
  (∀ key, (∅ : KV) !! key = None) ∧
  run (handleSubmissionsPost env_a submission_odd) ∅ = (∅, Throw TypeError) ∧
  ¬ ∃ kv' resp,
      run (handleSubmissionsPost env_a submission_odd) ∅ = (kv', Return resp)
      ∧ status resp = 404.
Proof.
  split; [ by eexists | ]. split; [ by split | ]. split; [ by split | ].
  split; [ intros key; apply lookup_empty | ]. split; [ reflexivity | ].
  intros (kv' & resp & Hrun & _). discriminate Hrun.
Qed.



(** C5, as stated, fails for the prompt: with the number 5 as title, a request
    whose prompt is the empty string is not answered 400; the handler throws
    at [title.trim()] before it looks at the prompt. *)
Lemma create_assignment_numeric_title_throws :
  missing_or_blank (prop body_numeric_title (str "prompt")) ∧
  run (handleAssignmentsPost env_a body_numeric_title) ∅ = (∅, Throw TypeError) ∧
  ¬ ∃ kv' resp,
      run (handleAssignmentsPost env_a body_numeric_title) ∅ = (kv', Return resp)
      ∧ status resp = 400.
Proof.
  split; [ by left | ]. split; [ reflexivity | ].
  intros (kv' & resp & Hrun & _). discriminate Hrun.
Qed.



(** C6. When List-Submissions is given a non-empty assignmentId query value
    x, its items are the records the submissions index names, fetched in index
    order, without those that do not resolve to a truthy value, then without
    those whose assignmentId is not the string x itself, and then reversed;
    so the items are exactly the resolvable submissions whose assignmentId
    equals x, and with two submissions S1 (assignmentId x) and S2
    (assignmentId y, other than x) the items are S1 alone. *)
Theorem list_submissions_filters_exactly (url : URL) kv (ids : list jstring) (x : jstring) :
  index_holds kv (str "submissions") ids →
  searchParams_get (str "assignmentId") (searchParams url) = Some x →
  Str.is_empty x = false →
  run (handleSubmissionsGet url) kv =
    (kv, Return (listing (rev (List.filter (assigned_to x)
                                 (List.filter truthy (records kv Submission ids))))))
  ∧ (∀ s, s ∈ rev (List.filter (assigned_to x)
                     (List.filter truthy (records kv Submission ids)))
          ↔ (∃ id, id ∈ ids ∧ read kv (str "submission:" ++ id) = s) ∧
            truthy s = true ∧ prop s (str "assignmentId") = Some (JStr x))
  ∧ (∀ i1 i2 y,
       ids = [i1; i2] →
       prop (read kv (str "submission:" ++ i1)) (str "assignmentId") = Some (JStr x) →
       prop (read kv (str "submission:" ++ i2)) (str "assignmentId") = Some (JStr y) →
       y ≠ x →
       run (handleSubmissionsGet url) kv =
         (kv, Return (listing [read kv (str "submission:" ++ i1)]))).
Proof.
  intros Hidx Hquery Hx.
  assert (filter_of url = x) as Hfilter by (unfold filter_of; by rewrite Hquery, Hx).
  assert (Hrun : run (handleSubmissionsGet url) kv =
    (kv, Return (listing (rev (List.filter (assigned_to x)
                                 (List.filter truthy (records kv Submission ids)))))))
    by (rewrite (handleSubmissionsGet_holds url kv ids Hidx), Hfilter, Hx; reflexivity).
  assert (Hsame : ∀ s, assigned_to x s = true ↔ prop s (str "assignmentId") = Some (JStr x)).
  { intros s. unfold assigned_to.
    destruct (prop s (str "assignmentId")) as [ [ | | | a | | ] | ]; cbn [equals_string];
      try (split; discriminate).
    unfold Str.eqb. rewrite bool_decide_eq_true. split; [ by intros -> | by intros [= ->] ]. }
  split; [ exact Hrun | ]. split.
  - intros s. rewrite elem_of_listed, list_elem_of_In, filter_In, <- list_elem_of_In.
    rewrite (elem_of_records Submission), Hsame. tauto.
  - intros i1 i2 y -> H1 H2 Hy. rewrite Hrun. do 3 f_equal.
    assert (∀ s z, prop s (str "assignmentId") = Some z → truthy s = true) as Hobj
      by (intros [] z; done).
    cbn [records map record_prefix List.filter].
    rewrite (Hobj _ _ H1), (Hobj _ _ H2). cbn [List.filter].
    rewrite (proj2 (Hsame _) H1).
    destruct (assigned_to x (read kv (str "submission:" ++ i2))) eqn:E; [ | reflexivity ].
    apply Hsame in E. rewrite H2 in E. by injection E.
Qed.

Lemma list_submissions_filters_exactly_witness :
  index_holds kv_class (str "submissions") [str "lx3klmno"; str "lx4pqrst"] ∧
  run (handleSubmissionsGet url_fractions) kv_class =
    (kv_class,
     Return (listing [ submission_record (str "lx3klmno") (JStr (str "lx1abcde")) (str "Ana")
                         [] (str "5/6") [] [] (JNum one_and_a_half) ])).
Proof.
  split; [ reflexivity | ].
  refine (proj2 (proj2 (list_submissions_filters_exactly url_fractions kv_class
                          [str "lx3klmno"; str "lx4pqrst"] (str "lx1abcde") _ _ _))
            (str "lx3klmno") (str "lx4pqrst") (str "lx2fghij") _ _ _ _);
    try reflexivity; discriminate.
Defined.


(** A request body that reads [1e400] as createdAt holds infinity there; the
    request is answered 201 and the record is stored with [null] as its
    createdAt, which is neither the caller's value nor the server's time. *)
Example endless_createdAt_is_stored_as_null :
  JSON.parse (str "[1e400]") = Some (JArr [JNum (Number.Infinite false)]) ∧
  prop body_endless_stamp (str "createdAt") = Some (JNum (Number.Infinite false)) ∧
  (∃ resp, (run (handleAssignmentsPost env_a body_endless_stamp) ∅).2 = Return resp ∧
           status resp = 201) ∧
  prop (read (run (handleAssignmentsPost env_a body_endless_stamp) ∅).1
             (str "assignment:lx1abcde"))
       (str "createdAt") = Some JNull.
Proof.
  split; [ reflexivity | ]. split; [ reflexivity | ].
  split; [ eexists; split; reflexivity | reflexivity ].
Qed.



(** C8, as stated, fails: stored text that is JSON text of another structure
    than the expected one is not treated as absent. A record key that holds
    the text [1.5] resolves to the number 1.5, and an index that holds the
    text [1e2] reads as the number 100, which is no sequence of ids. *)
Lemma kvGet_returns_other_structures :
  kv_shapes !! str "assignment:x" = Some (str "1.5") ∧
  run (kvGet (str "assignment:x")) kv_shapes = (kv_shapes, Return (JNum one_and_a_half)) ∧
  kv_shapes !! str "index:assignments" = Some (str "1e2") ∧
  run (getIndex (str "assignments")) kv_shapes
    = (kv_shapes, Return (JNum (Number.of_Z 100))) ∧
  run (kvGet (str "assignment:x")) kv_shapes ≠ (kv_shapes, Return JNull) ∧
  ¬ ∃ ids, run (getIndex (str "assignments")) kv_shapes
           = (kv_shapes, Return (JArr (map JStr ids))).
Proof.
  assert (run (getIndex (str "assignments")) kv_shapes
            = (kv_shapes, Return (JNum (Number.of_Z 100)))) as Hindex by reflexivity.
  split; [ reflexivity | ]. split; [ reflexivity | ].
  split; [ reflexivity | ]. split; [ exact Hindex | ].
  split; [ by intros [= H] | ].
  intros (ids & H).
  pose proof (f_equal snd (eq_trans (eq_sym H) Hindex)) as H'. discriminate H'.
Qed.



(** C9. A Create-Assignment or Create-Submission request that is answered 201
    stores the record under [assignment:{id}] (respectively
    [submission:{id}]) and a value under [index:assignments] (respectively
    [index:submissions]); the value under every other key is what it was
    before the request. *)
Theorem create_writes_exactly_two_keys k env body kv kv' (resp : Response) :
  run (post k env body) kv = (kv', Return resp) → status resp = 201 →
  (∃ record, resp = created (uid env) record ∧
             kv' !! (record_prefix k ++ uid env) = Some (JSON.stringify record))
  ∧ (∃ idx, kv' !! (str "index:" ++ index_name k) = Some (JSON.stringify idx))
  ∧ ∀ key, key ≠ record_prefix k ++ uid env → key ≠ str "index:" ++ index_name k →
           kv' !! key = kv !! key.
Proof.
  intros Hrun Hst.
  destruct (post_created k env body kv kv' resp Hrun Hst) as (fs & idx & -> & -> & _).
  split; [ | split ].
  - exists (JObj fs). split; [ done | ].
    rewrite lookup_insert_ne by (apply not_eq_sym, record_key_not_index).
    apply lookup_insert_eq.
  - exists idx. apply lookup_insert_eq.
  - intros key Hk1 Hk2. by rewrite !lookup_insert_ne.
Qed.

Lemma create_writes_exactly_two_keys_witness :
  (run (handleAssignmentsPost env_a body_fractions) kv_note).1 !! str "note"
  = kv_note !! str "note".
Proof.
  refine (proj2 (proj2 (create_writes_exactly_two_keys Assignment env_a body_fractions kv_note
            (run (handleAssignmentsPost env_a body_fractions) kv_note).1
            (created (str "lx1abcde")
               (assignment_record (str "lx1abcde") (str "Fractions") (str "Explain 1/2+1/3")
                  [] [] (JStr (str "2024-01-01T09:00:00.000Z")))) _ _)) (str "note") _ _);
    [ reflexivity | reflexivity | discriminate | discriminate ].
Defined.

(** C10. Create-Submission never trims assignmentId. Any truthy assignmentId
    passes the field check, a string of whitespace only among them; it is
    looked up under the key [assignment:{assignmentId}] built from the value as
    it came, which for a string is the string itself, untrimmed. When that
    lookup finds nothing the answer is 404, not 400, and nothing is written;
    when it finds a value the answer is 201 and the record is stored with the
    assignmentId as it came, next to a studentName, classPin, response, steps
    and reflection that are trimmed. *)
Theorem create_submission_keeps_assignmentId_verbatim
    env body kv (a : value) (key n r c s f : jstring) (ids : list jstring) :
  prop body (str "assignmentId") = Some a → truthy a = true →
  filled (prop body (str "studentName")) n →
  filled (prop body (str "response")) r →
  template a = Return key →
  text_or_empty (prop body (str "classPin")) = Some c →
  text_or_empty (prop body (str "steps")) = Some s →
  text_or_empty (prop body (str "reflection")) = Some f →
  index_holds kv (str "submissions") ids →
  let record :=
    submission_record (uid env) a (Str.trim n) (Str.trim c) (Str.trim r) (Str.trim s)
      (Str.trim f) (or_else (prop body (str "submittedAt")) (JStr (now_iso env))) in
  (∀ t, a = JStr t → key = t)
  ∧ (truthy (read kv (str "assignment:" ++ key)) = false →
     run (handleSubmissionsPost env body) kv
       = (kv, Return (refusal (str "assignment not found") 404)))
  ∧ (truthy (read kv (str "assignment:" ++ key)) = true →
     ∃ kv',
       run (handleSubmissionsPost env body) kv = (kv', Return (created (uid env) record)) ∧
       status (created (uid env) record) = 201 ∧
       kv' !! (str "submission:" ++ uid env) = Some (JSON.stringify record) ∧
       prop record (str "assignmentId") = Some a ∧
       prop (read kv' (str "submission:" ++ uid env)) (str "assignmentId")
         = Some (JSON.reread a) ∧
       (∀ t, a = JStr t →
          prop (read kv' (str "submission:" ++ uid env)) (str "assignmentId")
            = Some (JStr t)) ∧
       prop (read kv' (str "submission:" ++ uid env)) (str "studentName")
         = Some (JStr (Str.trim n)))
  ∧ (∀ kv' resp,
       run (handleSubmissionsPost env body) kv = (kv', Return resp) → status resp = 201 →
       truthy (read kv (str "assignment:" ++ key)) = true).
Proof.
  intros Ha Hta Hn Hr Hkey Hc Hs Hf Hidx record.
  split; [ | split; [ | split ] ].
  - intros t ->. by injection Hkey.
  - intros Hfound. by apply (handleSubmissionsPost_not_found env body kv a key n r).
  - intros Hfound.
    pose proof (handleSubmissionsPost_valid env body kv a key n r c s f
                  Ha Hta Hn Hr Hkey Hfound Hc Hs Hf) as Hrun.
    fold record in Hrun.
    rewrite (commit_holds (str "submission:") (str "submissions") (uid env) record kv ids)
      in Hrun by (done || apply submission_key_not_index).
    assert (∀ t', read (<[str "index:" ++ str "submissions" := t']>
                          (<[str "submission:" ++ uid env := JSON.stringify record]> kv))
                       (str "submission:" ++ uid env) = JSON.reread record) as Hread
      by (intros t'; apply (read_committed_new Submission)).
    eexists. split; [ exact Hrun | ]. split; [ reflexivity | ].
    split; [ rewrite lookup_insert_ne by discriminate; apply lookup_insert_eq | ].
    split; [ reflexivity | ].
    rewrite Hread. unfold record, submission_record.
    rewrite reread_record by reflexivity.
    split; [ reflexivity | ]. split; [ by intros t -> | reflexivity ].
  - intros kv' resp Hrun Hst.
    destruct (truthy (read kv (str "assignment:" ++ key))) eqn:Hfound; [ done | ].
    rewrite (handleSubmissionsPost_not_found env body kv a key n r) in Hrun by done.
    injection Hrun as _ <-. discriminate Hst.
Qed.

Lemma create_submission_keeps_assignmentId_verbatim_witness :
  Str.trim (str "   ") = [] ∧
  run (handleSubmissionsPost env_a submission_blank) ∅
    = (∅, Return (refusal (str "assignment not found") 404)) ∧
  ∃ kv',
    run (handleSubmissionsPost env_a submission_blank) kv_blank
      = (kv', Return (created (str "lx1abcde")
                        (submission_record (str "lx1abcde") (JStr (str "   ")) (str "Ana") []
                           (str "5/6") [] [] (JStr (str "2024-01-01T09:00:00.000Z"))))) ∧
    prop (read kv' (str "submission:lx1abcde")) (str "assignmentId")
      = Some (JStr (str "   ")).
Proof.
  split; [ reflexivity | ]. split.
  - exact (proj1 (proj2 (create_submission_keeps_assignmentId_verbatim env_a
             submission_blank ∅ (JStr (str "   ")) (str "   ") (str " Ana ") (str "5/6")
             [] [] [] [] eq_refl eq_refl (conj eq_refl eq_refl) (conj eq_refl eq_refl)
             eq_refl eq_refl eq_refl eq_refl eq_refl)) eq_refl).
  - destruct (proj1 (proj2 (proj2 (create_submission_keeps_assignmentId_verbatim env_a
                submission_blank kv_blank (JStr (str "   ")) (str "   ") (str " Ana ")
                (str "5/6") [] [] [] [] eq_refl eq_refl (conj eq_refl eq_refl)
                (conj eq_refl eq_refl) eq_refl eq_refl eq_refl eq_refl eq_refl))) eq_refl)
      as (kv' & Hrun & _ & _ & _ & _ & Hkept & _).
    exists kv'. split; [ exact Hrun | by apply Hkept ].
Defined.

End Claims.
